(** * LaunchSecure: the scan core

    A shallow embedding of the compliance-scan core of the orchestrator:
    the Powerpipe output normalizer and the coverage verification of
    [runPowerpipeBenchmark] (lib/powerpipe), and the scan lifecycle of the
    scans router (the [POST /api/scans] handler, [executeScan] and the
    timeout marking of the two [GET] handlers), over the tables of the
    database schema. *)

From Stdlib Require Import List String Ascii ZArith QArith Bool Arith Lia Lqa.
From Stdlib Require Import Floats Uint63.
From Stdlib Require Import Sorting.Permutation Sorting.Sorted.
Import ListNotations.
Open Scope string_scope.
Open Scope Z_scope.

(* ================================================================== *)
(** * JavaScript text: [toLowerCase], [includes] and [||]              *)
(* ================================================================== *)

Module Js.

(** Text is a sequence of code units; the vocabulary matched by the
    normalizer is ASCII, and [toLowerCase] acts on the letters A-Z. *)
Definition lowerChar (c : ascii) : ascii :=
  let n := nat_of_ascii c in
  if ((65 <=? n) && (n <=? 90))%nat then ascii_of_nat (n + 32) else c.

Fixpoint toLowerCase (s : string) : string :=
  match s with
  | EmptyString => EmptyString
  | String c r => String (lowerChar c) (toLowerCase r)
  end.

(** [s.includes(sub)]: [sub] occurs in [s] at some offset. *)
Fixpoint includes (s sub : string) : bool :=
  String.prefix sub s ||
  match s with
  | EmptyString => false
  | String _ r => includes r sub
  end.

(** Truthiness of a possibly absent string: [undefined], [null] and the
    empty string are falsy. *)
Definition truthy (o : option string) : bool :=
  match o with
  | Some EmptyString => false
  | Some _ => true
  | None => false
  end.

(** [a || b] on possibly absent strings. *)
Definition or (a b : option string) : option string :=
  if truthy a then a else b.

(** [a || ''] *)
Definition orEmpty (a : option string) : string :=
  match or a (Some "") with Some s => s | None => "" end.

(** [a || null] *)
Definition orNull (a : option string) : option string :=
  if truthy a then a else None.

(** [x > 0] where [x] may be [undefined]. *)
Definition gt0 (x : option Z) : bool :=
  match x with Some n => 0 <? n | None => false end.

End Js.

(* ================================================================== *)
(** * Output normalizer ([runPowerpipeBenchmark], [extractControls])   *)
(* ================================================================== *)

(** One row of [control.results]. *)
Record ResultRow := mkResultRow {
  row_reason : option string;
  row_resource : option string;
  row_status : option string
}.

(** [control.summary]: the engine-reported sub-counts. *)
Record ControlSummary := mkControlSummary {
  s_alarm : option Z;
  s_error : option Z;
  s_ok : option Z;
  s_info : option Z;
  s_skip : option Z
}.

(** A control of the engine's output. *)
Record RawControl := mkRawControl {
  raw_control_id : option string;
  raw_title : option string;
  raw_description : option string;
  raw_summary : option ControlSummary;
  raw_results : option (list ResultRow);
  raw_run_error : option string
}.

(** The engine's nested result: [controls] and [groups] are present when
    the field is an array. *)
Unset Elimination Schemes.
Inductive Item : Type :=
| mkItem (controls : option (list RawControl)) (groups : option (list Item)).
Set Elimination Schemes.

Inductive Status := pass | fail | error | skip.

Inductive ErrorType :=
| AccessDenied | UnauthorizedOperation | Forbidden | PermissionError.

(** An element of [PowerpipeBenchmarkResult.controls]. *)
Record Control := mkControl {
  control_id : string;
  title : string;
  description : string;
  status : Status;
  reason : option string;
  resources : option (list ResultRow);
  permission_error : bool;
  error_type : option ErrorType
}.

Definition Status_eqb (a b : Status) : bool :=
  match a, b with
  | pass, pass | fail, fail | error, error | skip, skip => true
  | _, _ => false
  end.

Definition permissionErrorKeywords : list string :=
  [ "accessdenied";
    "access denied";
    "unauthorizedoperation";
    "unauthorized operation";
    "invaliduserid.notfound";
    "accessdeniedexception";
    "forbidden";
    "insufficient permissions";
    "permission denied";
    "user is not authorized";
    "not authorized to perform";
    "unauthorized: access is denied" ].

(** [control.results?.[0]?.reason] *)
Definition firstReason (c : RawControl) : option string :=
  match raw_results c with
  | Some (r :: _) => row_reason r
  | _ => None
  end.

(** [(control.results?.[0]?.reason || control.run_error || '').toLowerCase()] *)
Definition errorText (c : RawControl) : string :=
  Js.toLowerCase (Js.orEmpty (Js.or (firstReason c) (raw_run_error c))).

Definition isPermissionError (text : string) : bool :=
  existsb (fun keyword => Js.includes text keyword) permissionErrorKeywords.

Definition errorType (text : string) : option ErrorType :=
  if isPermissionError text then
    if Js.includes text "accessdenied" || Js.includes text "access denied"
    then Some AccessDenied
    else if Js.includes text "unauthorized" then Some UnauthorizedOperation
    else if Js.includes text "forbidden" then Some Forbidden
    else Some PermissionError
  else None.

(** The status derived from the sub-counts of [control.summary]. *)
Definition deriveStatus (s : option ControlSummary) : Status :=
  if Js.gt0 (match s with Some x => s_alarm x | None => None end) then fail
  else if Js.gt0 (match s with Some x => s_error x | None => None end) then error
  else if Js.gt0 (match s with Some x => s_ok x | None => None end) then pass
  else skip.

(** [transformedControl] for a control whose id is [controlId]. *)
Definition transformedControl (controlId : string) (c : RawControl) : Control :=
  {| control_id := controlId;
     title := Js.orEmpty (raw_title c);
     description := Js.orEmpty (raw_description c);
     status := deriveStatus (raw_summary c);
     reason := Js.orNull (Js.or (firstReason c) (raw_run_error c));
     resources := raw_results c;
     permission_error := isPermissionError (errorText c);
     error_type := errorType (errorText c) |}.

(** [control.results && control.results.length > 0] *)
Definition hasResults (c : RawControl) : bool :=
  match raw_results c with
  | Some (_ :: _) => true
  | _ => false
  end.

(** ** The [Map] keyed by control id

    A JavaScript [Map] iterates in insertion order, and [set] on a key
    that is present replaces the value where it stands. *)
Definition ControlsMap := list (string * Control).

Fixpoint map_get (k : string) (m : ControlsMap) : option Control :=
  match m with
  | [] => None
  | (k', v) :: r => if String.eqb k k' then Some v else map_get k r
  end.

Definition map_has (k : string) (m : ControlsMap) : bool :=
  match map_get k m with Some _ => true | None => false end.

Fixpoint map_set (k : string) (v : Control) (m : ControlsMap) : ControlsMap :=
  match m with
  | [] => [(k, v)]
  | (k', v') :: r =>
      if String.eqb k k' then (k, v) :: r else (k', v') :: map_set k v r
  end.

(** [Array.from(controlsMap.values())] *)
Definition map_values (m : ControlsMap) : list Control := map snd m.

(** The body of the loop over [item.controls]. *)
Definition addControl (m : ControlsMap) (c : RawControl) : ControlsMap :=
  let controlId := Js.orEmpty (raw_control_id c) in
  if String.eqb controlId "" then m
  else if negb (map_has controlId m) || hasResults c
       then map_set controlId (transformedControl controlId c) m
       else m.

Fixpoint extractControls (item : Item) (m : ControlsMap) : ControlsMap :=
  match item with
  | mkItem controls groups =>
      let m1 :=
        match controls with
        | Some cs => fold_left addControl cs m
        | None => m
        end in
      match groups with
      | Some gs =>
          (fix each (gs : list Item) (m : ControlsMap) : ControlsMap :=
             match gs with
             | [] => m
             | g :: gs' => each gs' (extractControls g m)
             end) gs m1
      | None => m1
      end
  end.

(** [allControls]: the normalized control list of one engine result. *)
Definition allControls (result : Item) : list Control :=
  map_values (extractControls result []).

(** ** Summary of one result *)

Record Summary := mkSummary {
  total : nat;
  passed : nat;
  failed : nat;
  errors : nat;
  skipped : nat;
  permission_errors : nat
}.

Definition countStatus (st : Status) (cs : list Control) : nat :=
  List.length (filter (fun c => Status_eqb (status c) st) cs).

Definition countPermissionErrors (cs : list Control) : nat :=
  List.length (filter permission_error cs).

Definition summarize (cs : list Control) : Summary :=
  {| total := List.length cs;
     passed := countStatus pass cs;
     failed := countStatus fail cs;
     errors := countStatus error cs;
     skipped := countStatus skip cs;
     permission_errors := countPermissionErrors cs |}.

(* ================================================================== *)
(** * Coverage verification ([runPowerpipeBenchmark], second half)     *)
(* ================================================================== *)

Record Range := mkRange { min : Z; max : Z }.

Definition EXPECTED_CONTROL_RANGES : list (string * list (string * Range)) :=
  [ ("aws",
      [ ("HIPAA", mkRange 130 350);
        ("SOC2", mkRange 150 250);
        ("ISO27001", mkRange 100 200);
        ("CIS", mkRange 100 200);
        ("NIST", mkRange 200 400);
        ("PCI-DSS", mkRange 100 200);
        ("GDPR", mkRange 80 150);
        ("FedRAMP", mkRange 200 400) ]);
    ("azure",
      [ ("HIPAA", mkRange 120 300);
        ("SOC2", mkRange 120 200);
        ("ISO27001", mkRange 80 150);
        ("CIS", mkRange 80 150);
        ("NIST", mkRange 150 300);
        ("PCI-DSS", mkRange 80 150) ]);
    ("gcp",
      [ ("HIPAA", mkRange 120 300);
        ("SOC2", mkRange 120 200);
        ("ISO27001", mkRange 80 150);
        ("CIS", mkRange 80 150);
        ("NIST", mkRange 150 300) ]) ].

(** Property lookup in an object literal. *)
Fixpoint prop {A : Type} (k : string) (o : list (string * A)) : option A :=
  match o with
  | [] => None
  | (k', v) :: r => if String.eqb k k' then Some v else prop k r
  end.

Definition frameworkKey (benchmarkName : string) : option string :=
  let benchmarkLower := Js.toLowerCase benchmarkName in
  if Js.includes benchmarkLower "hipaa" || Js.includes benchmarkLower "hipaa_security"
  then Some "HIPAA"
  else if Js.includes benchmarkLower "soc_2" || Js.includes benchmarkLower "soc2"
  then Some "SOC2"
  else if Js.includes benchmarkLower "iso_27001" || Js.includes benchmarkLower "iso27001"
  then Some "ISO27001"
  else if Js.includes benchmarkLower "cis" then Some "CIS"
  else if Js.includes benchmarkLower "nist" then Some "NIST"
  else if Js.includes benchmarkLower "pci_dss" || Js.includes benchmarkLower "pci"
  then Some "PCI-DSS"
  else if Js.includes benchmarkLower "gdpr" then Some "GDPR"
  else if Js.includes benchmarkLower "fedramp" then Some "FedRAMP"
  else None.

Definition providerKey (benchmarkName : string) : option string :=
  if Js.includes benchmarkName "aws_compliance" then Some "aws"
  else if Js.includes benchmarkName "azure_compliance" then Some "azure"
  else if Js.includes benchmarkName "gcp_compliance" then Some "gcp"
  else None.

(** [EXPECTED_CONTROL_RANGES[providerKey]?.[frameworkKey]], guarded by
    both keys being found. *)
Definition expectedRange (benchmarkName : string) : option Range :=
  match frameworkKey benchmarkName, providerKey benchmarkName with
  | Some f, Some p =>
      match prop p EXPECTED_CONTROL_RANGES with
      | Some byFramework => prop f byFramework
      | None => None
      end
  | _, _ => None
  end.

(** A warning is one of the five message templates of the source, with
    the numbers the template interpolates. *)
Inductive Warning :=
| SignificantlyBelow (totalControls : nat) (r : Range)
| SlightlyBelow (totalControls : nat) (minimum : Z)
| ExceedsMaximum (totalControls : nat) (maximum : Z)
| PermissionErrors (permissionErrors : nat)
| HighErrorRate (errorControls totalControls : nat).

(** The thresholds are the products [min * 0.8] and [max * 1.2]; totals
    are array lengths.  The products are taken exactly: for the integer
    bounds of the table the binary64 products are the integers [4 min / 5]
    and [6 max / 5] themselves. *)
Definition ofNat (n : nat) : Q := inject_Z (Z.of_nat n).
Definition Qltb (a b : Q) : bool := negb (Qle_bool b a).

Definition minThreshold (r : Range) : Q := (inject_Z (min r) * (8 # 10))%Q.
Definition maxThreshold (r : Range) : Q := (inject_Z (max r) * (12 # 10))%Q.

(** The count check: the verdict and the warning it pushes, if any. *)
Definition countCheck (totalControls : nat) (r : Range) : bool * list Warning :=
  if Qltb (ofNat totalControls) (minThreshold r)
  then (false, [SignificantlyBelow totalControls r])
  else if Qltb (ofNat totalControls) (inject_Z (min r))
  then (true, [SlightlyBelow totalControls (min r)])
  else if Qltb (maxThreshold r) (ofNat totalControls)
  then (true, [ExceedsMaximum totalControls (max r)])
  else (true, []).

Record Verification := mkVerification {
  control_count_valid : bool;
  expected_range : option Range;
  permission_issues_detected : bool;
  warnings : list Warning   (* [undefined] in the source when empty *)
}.

Definition verify (benchmarkName : string) (s : Summary) : Verification :=
  let range := expectedRange benchmarkName in
  let (controlCountValid, w1) :=
    match range with
    | Some r => countCheck (total s) r
    | None => (true, [])
    end in
  let w2 :=
    if (0 <? permission_errors s)%nat
    then [PermissionErrors (permission_errors s)] else [] in
  let w3 :=
    if Qltb (ofNat (total s) * (2 # 10))%Q (ofNat (errors s))
    then [HighErrorRate (errors s) (total s)] else [] in
  {| control_count_valid := controlCountValid;
     expected_range := range;
     permission_issues_detected := (0 <? permission_errors s)%nat;
     warnings := w1 ++ w2 ++ w3 |}.

Record PowerpipeBenchmarkResult := mkResult {
  benchmark : string;
  controls : list Control;
  summary : Summary;
  verification : Verification
}.


(* ================================================================== *)
(** * Parsed JSON, as the scan reads it                                *)
(* ================================================================== *)

(** A value of [JSON.parse]: numbers are binary64. *)
Unset Elimination Schemes.
Inductive Json :=
| JNull
| JBool (b : bool)
| JNum (x : float)
| JStr (s : string)
| JArr (items : list Json)
| JObj (properties : list (string * Json)).
Set Elimination Schemes.

(** An integer as a binary64 number. *)
Definition toFloat (z : Z) : float := PrimFloat.of_uint63 (Uint63.of_Z z).

(** [v.k] for a value [v] that is neither [null] nor [undefined]; [None]
    is [undefined].  The names read by the scan are own properties of
    an object, or the [length] of an array or of a string: none of them
    is a property of a prototype. *)
Definition member (v : Json) (k : string) : option Json :=
  match v with
  | JObj properties => prop k properties
  | JArr items =>
      if String.eqb k "length"
      then Some (JNum (toFloat (Z.of_nat (List.length items)))) else None
  | JStr s =>
      if String.eqb k "length"
      then Some (JNum (toFloat (Z.of_nat (String.length s)))) else None
  | _ => None
  end.

(** Truthiness. *)
Definition truthyJ (v : option Json) : bool :=
  match v with
  | None => false
  | Some JNull => false
  | Some (JBool b) => b
  | Some (JNum x) => negb (PrimFloat.is_zero x || PrimFloat.is_nan x)
  | Some (JStr s) => negb (String.eqb s "")
  | Some (JArr _) => true
  | Some (JObj _) => true
  end.

(** [null] or [undefined]. *)
Definition nullish (v : option Json) : bool :=
  match v with
  | None => true
  | Some JNull => true
  | Some _ => false
  end.

(** A benchmark name as [getBenchmarkName] returns it: a text, or
    another truthy value reached through a prototype, of which [text]
    is what a template literal shows. *)
Inductive BenchmarkName :=
| Named (s : string)
| Foreign (text : string).

(** What the JavaScript runtime and the database driver decide, and
    this development leaves open:
    - [inheritedMember k]: [o[k] || null] for an object literal [o]
      that has no own property [k] (the property of [Object.prototype],
      when there is one and it is truthy);
    - [inheritedBenchmark p k]: [(o[p])[k] || null] for an object
      literal [o] that has no own property [p] ([None] also when [o[p]]
      is [undefined]);
    - [prepareValue v]: the text the driver sends for a query parameter
      [v] that is neither [null] nor a string;
    - [toText v]: the text of a value [v] that is not a string, in a
      template literal; [None] when the conversion throws (an object
      whose own [toString] is not a function);
    - [greaterThanZero v]: [v > 0] for a string, an array or an
      object; [None] when the conversion throws. *)
Record Runtime := mkRuntime {
  inheritedMember : string -> option BenchmarkName;
  inheritedBenchmark : string -> string -> option BenchmarkName;
  prepareValue : Json -> string;
  toText : Json -> option string;
  greaterThanZero : Json -> option bool
}.

(** [x > 0]; [None] when it throws. *)
Definition gt0J (rt : Runtime) (x : option Json) : option bool :=
  match x with
  | None => Some false
  | Some JNull => Some false
  | Some (JBool b) => Some b
  | Some (JNum n) => Some (PrimFloat.ltb 0 n)
  | Some v => greaterThanZero rt v
  end.

(** A query parameter: [None] is [NULL]. *)
Definition toParam (rt : Runtime) (v : option Json) : option string :=
  match v with
  | None => None
  | Some JNull => None
  | Some (JStr s) => Some s
  | Some v => Some (prepareValue rt v)
  end.

(** [v || null] as a query parameter. *)
Definition orNullParam (rt : Runtime) (v : option Json) : option string :=
  if truthyJ v then toParam rt v else None.

(** [`${v}`]; [None] when it throws. *)
Definition textOf (rt : Runtime) (v : Json) : option string :=
  match v with
  | JStr s => Some s
  | _ => toText rt v
  end.

(** Whether [`${v}`] can be written, [v] being possibly [undefined]. *)
Definition shown (rt : Runtime) (v : option Json) : bool :=
  match v with
  | None => true
  | Some v => match textOf rt v with Some _ => true | None => false end
  end.

(** [v?.k] *)
Definition optMember (v : option Json) (k : string) : option Json :=
  match v with
  | None => None
  | Some JNull => None
  | Some v => member v k
  end.

(* ================================================================== *)
(** * The outcome of [runPowerpipeBenchmark]                           *)
(* ================================================================== *)

(** What the engine invocation yields once its output has been cut out
    and parsed: nothing usable (the command, [JSON.parse] or the
    traversal threw), or the parsed value: [result] is its tree of
    groups and controls, [raw] the value itself, which the function
    returns as it is when no control was found and it has the fields
    of a result. *)
Inductive EngineOutput :=
| Unusable
| Parsed (result : Item) (raw : Json).

(** The ways [runPowerpipeBenchmark] ends: the transformed result with
    its verification; the engine's own object, returned as it is; an
    object made from the engine's [results], without [verification]; an
    exception. *)
Inductive BenchmarkOutcome :=
| Transformed (r : PowerpipeBenchmarkResult)
| Passthrough (raw : Json)
| Reshaped (raw : Json)
| Thrown.

(** [result.benchmark && result.controls && result.summary] *)
Definition resultShaped (raw : Json) : bool :=
  truthyJ (member raw "benchmark") && truthyJ (member raw "controls")
  && truthyJ (member raw "summary").

Definition runPowerpipeBenchmark (benchmarkName : string) (out : EngineOutput)
  : BenchmarkOutcome :=
  match out with
  | Unusable => Thrown
  | Parsed result raw =>
      let cs := allControls result in
      match cs with
      | _ :: _ =>
          Transformed
            {| benchmark := benchmarkName;
               controls := cs;
               summary := summarize cs;
               verification := verify benchmarkName (summarize cs) |}
      | [] =>
          if resultShaped raw then Passthrough raw
          else if truthyJ (member raw "results") then Reshaped raw
          else Thrown
      end
  end.

Definition FRAMEWORK_TO_BENCHMARK : list (string * list (string * string)) :=
  [ ("aws",
      [ ("HIPAA", "aws_compliance.benchmark.hipaa_security_rule_2003");
        ("SOC2", "aws_compliance.benchmark.soc_2");
        ("ISO27001", "aws_compliance.benchmark.iso_27001");
        ("CIS", "aws_compliance.benchmark.cis_v140");
        ("NIST", "aws_compliance.benchmark.nist_800_53_rev_5");
        ("PCI-DSS", "aws_compliance.benchmark.pci_dss_v321");
        ("GDPR", "aws_compliance.benchmark.gdpr");
        ("FedRAMP", "aws_compliance.benchmark.fedramp_moderate_rev_4") ]);
    ("azure",
      [ ("HIPAA", "azure_compliance.benchmark.hipaa");
        ("SOC2", "azure_compliance.benchmark.soc_2");
        ("ISO27001", "azure_compliance.benchmark.iso_27001");
        ("CIS", "azure_compliance.benchmark.cis_v200");
        ("NIST", "azure_compliance.benchmark.nist_800_53_rev_5");
        ("PCI-DSS", "azure_compliance.benchmark.pci_dss_v321") ]);
    ("gcp",
      [ ("HIPAA", "gcp_compliance.benchmark.hipaa");
        ("SOC2", "gcp_compliance.benchmark.soc_2");
        ("ISO27001", "gcp_compliance.benchmark.iso_27001");
        ("CIS", "gcp_compliance.benchmark.cis_v200");
        ("NIST", "gcp_compliance.benchmark.nist_800_53_rev_5") ]) ].


(** [FRAMEWORK_TO_BENCHMARK[provider.toLowerCase()]], then
    [providerMap[framework] || null]: an own property is found in the
    table; any other key is looked up along the prototype chain, which
    is the runtime's. *)
Definition getBenchmarkName (rt : Runtime) (framework provider : string)
  : option BenchmarkName :=
  match prop (Js.toLowerCase provider) FRAMEWORK_TO_BENCHMARK with
  | Some providerMap =>
      match prop framework providerMap with
      | Some name => option_map Named (Js.orNull (Some name))
      | None => inheritedMember rt framework
      end
  | None => inheritedBenchmark rt (Js.toLowerCase provider) framework
  end.

(* ================================================================== *)
(** * The relational store                                             *)
(* ================================================================== *)

(** Primary keys are opaque identifiers that are only compared; the
    database draws them from [next_id].  Times are milliseconds. *)
Definition uuid := nat.
Bind Scope nat_scope with uuid.

Record ClientRow := mkClient {
  client_pk : uuid;
  assigned_frameworks : option (list string)
}.

Record CredentialRow := mkCredential {
  credential_pk : uuid;
  credential_client_id : uuid;
  provider : string;
  encrypted_credentials : string;
  is_active : bool
}.

(** A warning kept with the scan: one of the verification of a
    transformed result, or an element of the [warnings] of a result
    that was returned as the engine gave it. *)
Inductive ScanWarning :=
| FromVerification (w : Warning)
| FromResult (w : Json).

(** The [verification] entry merged into [powerpipe_output]. *)
Record VerificationData := mkVerificationData {
  vd_warnings : list (string * ScanWarning);
  warning_count : nat;
  timestamp : Z
}.

(** A row of [compliance_checks]: one Scan. *)
Record ComplianceCheck := mkCheck {
  check_id : uuid;
  check_client_id : uuid;
  check_frameworks : list string;
  check_status : string;
  total_controls : nat;
  passed_controls : nat;
  failed_controls : nat;
  error_controls : nat;
  skip_controls : nat;
  started_at : Z;
  completed_at : option Z;
  powerpipe_output : option VerificationData;
  check_created_at : Z
}.

(** The value of [scan_resources]: the rows of a normalized control, or
    the [resources] of a control that came as the engine gave it. *)
Inductive Resources :=
| Rows (rows : list ResultRow)
| RawResources (v : Json).

(** A row of [findings]. *)
Record Finding := mkFinding {
  finding_id : uuid;
  client_id : uuid;
  compliance_check_id : uuid;
  f_control_id : string;
  control_title : string;
  control_description : option string;
  framework : string;
  domain : option string;
  category : option string;
  scan_status : string;
  scan_reason : option string;
  scan_resources : option Resources;
  remediation_status : string;
  assigned_owner_id : option uuid;
  notes : option string;
  status_history : list string;
  ai_business_context : option string;
  ai_remediation_guidance : option string;
  created_at : Z;
  updated_at : Z
}.

(** A row of [findings_history]: the columns copied from the finding
    ([original_finding_id], [original_created_at] and
    [original_updated_at] are the snapshot's key and timestamps), the
    archiving scan and the archive time. *)
Record FindingHistory := mkHistory {
  snapshot : Finding;
  archived_by_scan_id : uuid;
  archived_at : Z
}.

(** A row of [control_metadata], unique per (client, control). *)
Record ControlMetadata := mkMetadata {
  md_client_id : uuid;
  md_control_id : string;
  md_remediation_status : option string;
  md_assigned_owner_id : option uuid;
  md_notes : option string;
  md_status_history : option (list string);
  md_ai_business_context : option string;
  md_ai_remediation_guidance : option string
}.

Record Db := mkDb {
  clients : list ClientRow;
  credentials : list CredentialRow;
  compliance_checks : list ComplianceCheck;
  findings : list Finding;
  findings_history : list FindingHistory;
  control_metadata : list ControlMetadata;
  next_id : uuid
}.

Definition with_checks (cs : list ComplianceCheck) (d : Db) : Db :=
  mkDb (clients d) (credentials d) cs (findings d) (findings_history d)
       (control_metadata d) (next_id d).

Definition with_findings (fs : list Finding) (d : Db) : Db :=
  mkDb (clients d) (credentials d) (compliance_checks d) fs
       (findings_history d) (control_metadata d) (next_id d).

Definition with_history (hs : list FindingHistory) (d : Db) : Db :=
  mkDb (clients d) (credentials d) (compliance_checks d) (findings d) hs
       (control_metadata d) (next_id d).

Definition with_next_id (n : uuid) (d : Db) : Db :=
  mkDb (clients d) (credentials d) (compliance_checks d) (findings d)
       (findings_history d) (control_metadata d) n.

(** [SELECT ... FROM compliance_checks WHERE id = $1], [rows[0]]. *)
Definition selectCheck (id : uuid) (d : Db) : option ComplianceCheck :=
  find (fun c => check_id c =? id)%nat (compliance_checks d).

(** [UPDATE compliance_checks SET status = $1, completed_at = NOW()
     WHERE id = $2] *)
Definition setStatus (st : string) (now : Z) (c : ComplianceCheck) : ComplianceCheck :=
  mkCheck (check_id c) (check_client_id c) (check_frameworks c) st
          (total_controls c) (passed_controls c) (failed_controls c)
          (error_controls c) (skip_controls c) (started_at c) (Some now)
          (powerpipe_output c) (check_created_at c).

Definition updateStatus (st : string) (now : Z) (id : uuid) (d : Db) : Db :=
  with_checks
    (map (fun c => if (check_id c =? id)%nat then setStatus st now c else c)
         (compliance_checks d)) d.

(** [WHERE client_id = $1 AND framework = ANY($2::text[])] *)
Definition inScope (client : uuid) (frameworks : list string) (f : Finding) : bool :=
  (client_id f =? client)%nat && existsb (String.eqb (framework f)) frameworks.

(** [INSERT INTO findings_history (...) SELECT ..., $1 FROM findings
     WHERE ...]: the history table has no constraint that a copied row
    could break. *)
Definition archiveFindings (scan client : uuid) (frameworks : list string)
    (now : Z) (d : Db) : Db :=
  with_history
    (findings_history d ++
     map (fun f => mkHistory f scan now)
         (filter (inScope client frameworks) (findings d))) d.

(** [DELETE FROM findings WHERE ...]: no table refers to a finding. *)
Definition deleteFindings (client : uuid) (frameworks : list string) (d : Db) : Db :=
  with_findings
    (filter (fun f => negb (inScope client frameworks f)) (findings d)) d.

(** [SELECT ... FROM control_metadata WHERE client_id = $1 AND
     control_id = $2], [rows[0]]. *)
Definition selectMetadata (client : uuid) (control : string) (d : Db)
  : option ControlMetadata :=
  find (fun m => (md_client_id m =? client)%nat && String.eqb (md_control_id m) control)
       (control_metadata d).

(** ** The columns of [findings] *)

(** The character NUL, which no text or jsonb value can hold. *)
Fixpoint noNul (s : string) : bool :=
  match s with
  | EmptyString => true
  | String c r => negb (Ascii.eqb c Ascii.zero) && noNul r
  end.

Definition noNulOpt (o : option string) : bool :=
  match o with Some s => noNul s | None => true end.

Fixpoint jsonNoNul (v : Json) : bool :=
  match v with
  | JStr s => noNul s
  | JArr items => forallb jsonNoNul items
  | JObj properties => forallb (fun p => noNul (fst p) && jsonNoNul (snd p)) properties
  | _ => true
  end.

Definition resourcesNoNul (r : option Resources) : bool :=
  match r with
  | None => true
  | Some (Rows rows) =>
      forallb (fun row => noNulOpt (row_reason row) && noNulOpt (row_resource row)
                          && noNulOpt (row_status row)) rows
  | Some (RawResources v) => jsonNoNul v
  end.

Fixpoint blank (s : string) : bool :=
  match s with
  | EmptyString => true
  | String c r => Ascii.eqb c " "%char && blank r
  end.

(** A value stored in a [VARCHAR(n)] column: kept when it has at most
    [n] characters, cut to [n] characters when those beyond are all
    spaces, refused otherwise. *)
Definition varchar (n : nat) (s : string) : option string :=
  if (String.length s <=? n)%nat then Some s
  else if blank (substring n (String.length s - n) s)
  then Some (substring 0 n s)
  else None.

Definition varcharOpt (n : nat) (o : option string) : option (option string) :=
  match o with
  | None => Some None
  | Some s => option_map Some (varchar n s)
  end.

(** The row as the table keeps it, when its columns accept the values:
    [control_id VARCHAR(255)], [control_title VARCHAR(500)],
    [framework VARCHAR(50)], [domain] and [category VARCHAR(100)],
    [scan_status] and [remediation_status VARCHAR(20)]; the texts that
    come from the engine's output hold no NUL.  (The owner, notes,
    history and AI content are values of [control_metadata], whose
    columns have the same types and the same reference to
    [client_owners].) *)
Definition stored (f : Finding) : option Finding :=
  match varchar 255 (f_control_id f), varchar 500 (control_title f),
        varchar 50 (framework f), varcharOpt 100 (domain f),
        varcharOpt 100 (category f), varchar 20 (scan_status f),
        varchar 20 (remediation_status f) with
  | Some controlId, Some controlTitle, Some fw, Some dom, Some cat, Some st, Some rem =>
      if noNul (f_control_id f) && noNul (control_title f)
         && noNulOpt (control_description f) && noNulOpt (domain f)
         && noNulOpt (category f) && noNul (scan_status f)
         && noNulOpt (scan_reason f) && resourcesNoNul (scan_resources f)
      then Some (mkFinding (finding_id f) (client_id f) (compliance_check_id f)
                           controlId controlTitle (control_description f) fw dom cat
                           st (scan_reason f) (scan_resources f) rem
                           (assigned_owner_id f) (notes f) (status_history f)
                           (ai_business_context f) (ai_remediation_guidance f)
                           (created_at f) (updated_at f))
      else None
  | _, _, _, _, _, _, _ => None
  end.

(** The references [client_id REFERENCES clients(id)] and
    [compliance_check_id REFERENCES compliance_checks(id)]. *)
Definition referenced (f : Finding) (d : Db) : bool :=
  existsb (fun c => client_pk c =? client_id f)%nat (clients d)
  && existsb (fun c => check_id c =? compliance_check_id f)%nat (compliance_checks d).

(** The unique index on (compliance_check_id, control_id). *)
Definition conflicts (f : Finding) (d : Db) : bool :=
  existsb (fun g => (compliance_check_id g =? compliance_check_id f)%nat
                    && String.eqb (f_control_id g) (f_control_id f))
          (findings d).

(** [INSERT INTO findings (...) VALUES (...) RETURNING id]: refused
    when a column does not accept its value, when the client or the
    scan does not exist, or when the scan already has a row for the
    control. *)
Definition insertFinding (mk : uuid -> Finding) (d : Db) : option (uuid * Db) :=
  match stored (mk (next_id d)) with
  | None => None
  | Some f =>
      if referenced f d && negb (conflicts f d)
      then Some (next_id d,
                 with_next_id (S (next_id d)) (with_findings (findings d ++ [f]) d))
      else None
  end.

(* ================================================================== *)
(** * Metadata merge                                                   *)
(* ================================================================== *)

(** The remediation status given to a fresh finding. *)
Definition remediationStatus (metadata : option ControlMetadata) (st : Status) : string :=
  let default :=
    match st with
    | fail => "open"
    | pass => "resolved"
    | _ => "open"
    end in
  match metadata with
  | Some md =>
      match md_remediation_status md with
      | Some persisted =>
          if Js.truthy (Some persisted)
          then match st with pass => "resolved" | _ => persisted end
          else default
      | None => default
      end
  | None => default
  end.

(** [extractDomainFromControl] *)
Definition extractDomainFromControl (controlId : string) : option string :=
  if Js.includes controlId "access" || Js.includes controlId "312"
  then Some "Access Control"
  else if Js.includes controlId "encrypt" || Js.includes controlId "164.312"
  then Some "Encryption"
  else if Js.includes controlId "audit" || Js.includes controlId "log"
  then Some "Audit & Logging"
  else if Js.includes controlId "backup" || Js.includes controlId "recovery"
  then Some "Backup & Recovery"
  else None.

(** [metadata?.x]: a column of the metadata row, if there is a row. *)
Definition column {A : Type} (metadata : option ControlMetadata)
    (x : ControlMetadata -> option A) : option A :=
  match metadata with Some md => x md | None => None end.

(** The text of a status. *)
Definition statusText (st : Status) : string :=
  match st with
  | pass => "pass"
  | fail => "fail"
  | error => "error"
  | skip => "skip"
  end.

(** The row written for a normalized [control]: the values of the
    [INSERT]. *)
Definition newFinding (client scan : uuid) (fw : string) (control : Control)
    (metadata : option ControlMetadata) (now : Z) (id : uuid) : Finding :=
  {| finding_id := id;
     client_id := client;
     compliance_check_id := scan;
     f_control_id := control_id control;
     control_title := title control;
     control_description := Js.orNull (Some (description control));
     framework := fw;
     domain := extractDomainFromControl (control_id control);
     category := None;
     scan_status := statusText (status control);
     scan_reason := Js.orNull (reason control);
     scan_resources := option_map Rows (resources control);
     remediation_status := remediationStatus metadata (status control);
     assigned_owner_id := column metadata md_assigned_owner_id;
     notes := Js.orNull (column metadata md_notes);
     status_history :=
       match column metadata md_status_history with
       | Some h => h
       | None => []
       end;
     ai_business_context := Js.orNull (column metadata md_ai_business_context);
     ai_remediation_guidance := Js.orNull (column metadata md_ai_remediation_guidance);
     created_at := now;
     updated_at := now |}.

(** ** A control of a result returned as the engine gave it *)

(** [a.includes(keyword)] on an array. *)
Definition arrayIncludes (a : list Json) (keyword : string) : bool :=
  existsb (fun x => match x with JStr s => String.eqb s keyword | _ => false end) a.

(** [control.domain || extractDomainFromControl(control.control_id)]:
    [None] when the call throws ([includes] is a method of texts and
    arrays only). *)
Definition rawDomain (rt : Runtime) (control : Json) : option (option string) :=
  if truthyJ (member control "domain")
  then Some (toParam rt (member control "domain"))
  else
    match member control "control_id" with
    | Some (JStr controlId) => Some (extractDomainFromControl controlId)
    | Some (JArr a) =>
        Some (if arrayIncludes a "access" || arrayIncludes a "312"
              then Some "Access Control"
              else if arrayIncludes a "encrypt" || arrayIncludes a "164.312"
              then Some "Encryption"
              else if arrayIncludes a "audit" || arrayIncludes a "log"
              then Some "Audit & Logging"
              else if arrayIncludes a "backup" || arrayIncludes a "recovery"
              then Some "Backup & Recovery"
              else None)
    | _ => None
    end.

(** [control.status === 'pass'] *)
Definition statusIs (control : Json) (st : string) : bool :=
  match member control "status" with
  | Some (JStr s) => String.eqb s st
  | _ => false
  end.

Definition rawRemediation (metadata : option ControlMetadata) (control : Json) : string :=
  let default :=
    if statusIs control "fail" then "open"
    else if statusIs control "pass" then "resolved" else "open" in
  match metadata with
  | Some md =>
      if Js.truthy (md_remediation_status md)
      then if statusIs control "pass" then "resolved"
           else match md_remediation_status md with Some p => p | None => default end
      else default
  | None => default
  end.

(** The row written for such a control: [None] when reading the control
    throws (it is [null], or its domain cannot be found), or when
    [control_id], [control_title] or [scan_status] would be [NULL]. *)
Definition rawFinding (rt : Runtime) (client scan : uuid) (fw : string)
    (control : Json) (d : Db) (now : Z) : option (uuid -> Finding) :=
  match control with
  | JNull => None
  | _ =>
      match rawDomain rt control with
      | None => None
      | Some dom =>
          let controlId := toParam rt (member control "control_id") in
          let metadata :=
            match controlId with
            | Some text => selectMetadata client text d
            | None => None
            end in
          match controlId, toParam rt (member control "title"),
                toParam rt (member control "status") with
          | Some cid, Some controlTitle, Some st =>
              Some (fun id =>
                {| finding_id := id;
                   client_id := client;
                   compliance_check_id := scan;
                   f_control_id := cid;
                   control_title := controlTitle;
                   control_description := orNullParam rt (member control "description");
                   framework := fw;
                   domain := dom;
                   category := orNullParam rt (member control "category");
                   scan_status := st;
                   scan_reason := orNullParam rt (member control "reason");
                   scan_resources :=
                     if truthyJ (member control "resources")
                     then option_map RawResources (member control "resources")
                     else None;
                   remediation_status := rawRemediation metadata control;
                   assigned_owner_id := column metadata md_assigned_owner_id;
                   notes := Js.orNull (column metadata md_notes);
                   status_history :=
                     match column metadata md_status_history with
                     | Some h => h
                     | None => []
                     end;
                   ai_business_context :=
                     Js.orNull (column metadata md_ai_business_context);
                   ai_remediation_guidance :=
                     Js.orNull (column metadata md_ai_remediation_guidance);
                   created_at := now;
                   updated_at := now |})
          | _, _, _ => None
          end
      end
  end.

(* ================================================================== *)
(** * Scan lifecycle ([api/scans.ts])                                  *)
(* ================================================================== *)

(** Maximum scan duration in milliseconds (30 minutes). *)
Definition MAX_SCAN_DURATION_MS : Z := 30 * 60 * 1000.

(** The running totals and bookkeeping of [executeScan], with the store
    and the number of clock readings taken so far. *)
Record ScanState := mkState {
  db : Db;
  tick : nat;
  allFindings : list uuid;
  totalControls : nat;
  passedControls : nat;
  failedControls : nat;
  errorControls : nat;
  skipControls : nat;
  verificationWarnings : list (string * ScanWarning);
  benchmarksRun : nat;
  benchmarksFailed : nat;
  benchmarkErrors : list string
}.

Definition initState (d : Db) (t : nat) : ScanState :=
  mkState d t [] 0 0 0 0 0 [] 0 0 [].

Definition with_db (d : Db) (t : nat) (s : ScanState) : ScanState :=
  mkState d t (allFindings s) (totalControls s) (passedControls s)
          (failedControls s) (errorControls s) (skipControls s)
          (verificationWarnings s) (benchmarksRun s) (benchmarksFailed s)
          (benchmarkErrors s).

(** The counters local to one benchmark. *)
Record PairCounts := mkCounts {
  benchmarkPassed : nat;
  benchmarkFailed : nat;
  benchmarkError : nat;
  benchmarkSkip : nat;
  benchmarkPermissionErrors : nat
}.

Definition countControl (control : Control) (pc : PairCounts) : PairCounts :=
  let pe := if permission_error control then 1%nat else 0%nat in
  match status control with
  | pass => mkCounts (S (benchmarkPassed pc)) (benchmarkFailed pc) (benchmarkError pc)
                     (benchmarkSkip pc) (benchmarkPermissionErrors pc + pe)
  | fail => mkCounts (benchmarkPassed pc) (S (benchmarkFailed pc)) (benchmarkError pc)
                     (benchmarkSkip pc) (benchmarkPermissionErrors pc + pe)
  | error => mkCounts (benchmarkPassed pc) (benchmarkFailed pc) (S (benchmarkError pc))
                      (benchmarkSkip pc) (benchmarkPermissionErrors pc + pe)
  | skip => mkCounts (benchmarkPassed pc) (benchmarkFailed pc) (benchmarkError pc)
                     (S (benchmarkSkip pc)) (benchmarkPermissionErrors pc + pe)
  end.

(** The same counting on a control that came as the engine gave it: a
    status other than the four texts is counted nowhere. *)
Definition countRaw (control : Json) (pc : PairCounts) : PairCounts :=
  let pe := if truthyJ (member control "permission_error") then 1%nat else 0%nat in
  if statusIs control "pass"
  then mkCounts (S (benchmarkPassed pc)) (benchmarkFailed pc) (benchmarkError pc)
                (benchmarkSkip pc) (benchmarkPermissionErrors pc + pe)
  else if statusIs control "fail"
  then mkCounts (benchmarkPassed pc) (S (benchmarkFailed pc)) (benchmarkError pc)
                (benchmarkSkip pc) (benchmarkPermissionErrors pc + pe)
  else if statusIs control "error"
  then mkCounts (benchmarkPassed pc) (benchmarkFailed pc) (S (benchmarkError pc))
                (benchmarkSkip pc) (benchmarkPermissionErrors pc + pe)
  else if statusIs control "skip"
  then mkCounts (benchmarkPassed pc) (benchmarkFailed pc) (benchmarkError pc)
                (S (benchmarkSkip pc)) (benchmarkPermissionErrors pc + pe)
  else mkCounts (benchmarkPassed pc) (benchmarkFailed pc) (benchmarkError pc)
                (benchmarkSkip pc) (benchmarkPermissionErrors pc + pe).

(** Control flow of a loop body that may [return]. *)
Inductive Flow :=
| Next (s : ScanState)
| Return (s : ScanState).

Section Scan.

(** The environment of a run: the successive readings of the wall
    clock ([Date.now()] and the database's [NOW()], in the order they
    are taken), the JavaScript runtime, the credential store's
    decryption ([None] when it throws), and what the engine yields for
    a benchmark, credentials and provider when invoked after that many
    readings. *)
Variable clock : nat -> Z.
Variable rt : Runtime.
Variable decryptCredentials : string -> option string.
Variable engine : nat -> string -> string -> string -> EngineOutput.

Variables (complianceCheckId client : uuid) (frameworksToScan : list string).

(** The timeout branch, and the outer [catch]: mark the scan failed. *)
Definition failScan (s : ScanState) : ScanState :=
  with_db (updateStatus "failed" (clock (tick s)) complianceCheckId (db s))
          (S (tick s)) s.

(** The loop over [result.controls]: count, merge the metadata, insert.
    [row] gives the values of the [INSERT] for a control, if reading
    them from the control does not throw.  An exception leaves the
    loop; the rows written so far stay. *)
Section Write.

Context {A : Type}.
Variable row : A -> Db -> Z -> option (uuid -> Finding).
Variable count : A -> PairCounts -> PairCounts.

Fixpoint writeEach (cs : list A) (s : ScanState) (pc : PairCounts)
  : ScanState * option PairCounts :=
  match cs with
  | [] => (s, Some pc)
  | control :: rest =>
      match row control (db s) (clock (tick s)) with
      | None => (s, None)
      | Some mk =>
          match insertFinding mk (db s) with
          | Some (id, d') =>
              writeEach rest
                (mkState d' (S (tick s)) (allFindings s ++ [id])
                         (totalControls s) (passedControls s) (failedControls s)
                         (errorControls s) (skipControls s)
                         (verificationWarnings s) (benchmarksRun s)
                         (benchmarksFailed s) (benchmarkErrors s))
                (count control pc)
          | None => (s, None)
          end
      end
  end.

End Write.

(** The loop on the controls of a transformed result. *)
Definition writeControls (fw : string) (cs : list Control) (s : ScanState)
    (pc : PairCounts) : ScanState * option PairCounts :=
  writeEach
    (fun control d now =>
       Some (newFinding client complianceCheckId fw control
                        (selectMetadata client (control_id control) d) now))
    countControl cs s pc.

(** The loop on the controls of a result returned as the engine gave
    it. *)
Definition writeRaw (fw : string) (cs : list Json) (s : ScanState)
    (pc : PairCounts) : ScanState * option PairCounts :=
  writeEach (rawFinding rt client complianceCheckId fw) countRaw cs s pc.

(** The [catch] of one benchmark. *)
Definition benchmarkThrew (benchmarkName : string) (s : ScanState) : ScanState :=
  mkState (db s) (tick s) (allFindings s) (totalControls s) (passedControls s)
          (failedControls s) (errorControls s) (skipControls s)
          (verificationWarnings s) (benchmarksRun s) (S (benchmarksFailed s))
          (benchmarkErrors s ++ [benchmarkName]).

(** [totalControls += result.controls.length] and the four sums. *)
Definition addTotals (n : nat) (pc : PairCounts) (s : ScanState) : ScanState :=
  mkState (db s) (tick s) (allFindings s)
          (totalControls s + n)
          (passedControls s + benchmarkPassed pc)
          (failedControls s + benchmarkFailed pc)
          (errorControls s + benchmarkError pc)
          (skipControls s + benchmarkSkip pc)
          (verificationWarnings s) (benchmarksRun s) (benchmarksFailed s)
          (benchmarkErrors s).

(** [verificationWarnings.push(...)] *)
Definition addWarnings (ws : list (string * ScanWarning)) (s : ScanState) : ScanState :=
  mkState (db s) (tick s) (allFindings s) (totalControls s) (passedControls s)
          (failedControls s) (errorControls s) (skipControls s)
          (verificationWarnings s ++ ws) (benchmarksRun s) (benchmarksFailed s)
          (benchmarkErrors s).

(** The [try] block on a transformed result. *)
Definition processResult (benchmarkName fw : string) (result : PowerpipeBenchmarkResult)
    (s1 : ScanState) : ScanState :=
  match writeControls fw (controls result) s1 (mkCounts 0 0 0 0 0) with
  | (s2, Some pc) =>
      addWarnings (map (fun w => (benchmarkName, FromVerification w))
                       (warnings (verification result)))
                  (addTotals (List.length (controls result)) pc s2)
  | (s2, None) => benchmarkThrew benchmarkName s2
  end.

(** The log lines written for a result before its controls are read,
    on a result returned as the engine gave it: each value shown must
    have a text; a [warnings] with a positive [length] must have
    [forEach]; without [verification] the line on the control count
    throws. *)
Definition logged (raw : Json) : bool :=
  let summary := member raw "summary" in
  let verification := member raw "verification" in
  let warnings := optMember verification "warnings" in
  shown rt (optMember summary "total")
  && shown rt (optMember summary "passed")
  && shown rt (optMember summary "failed")
  && (if truthyJ warnings
      then match gt0J rt (optMember warnings "length") with
           | Some true =>
               match warnings with
               | Some (JArr ws) => forallb (fun w => shown rt (Some w)) ws
               | _ => false
               end
           | Some false => true
           | None => false
           end
      else true)
  && (if truthyJ (optMember verification "permission_issues_detected")
      then shown rt (optMember summary "permission_errors")
      else true)
  && negb (nullish verification)
  && (if truthyJ (optMember verification "control_count_valid")
      then true
      else shown rt (optMember (optMember verification "expected_range") "min")
           && shown rt (optMember (optMember verification "expected_range") "max")).

(** The [try] block on a result returned as the engine gave it: the
    log lines; the loop, for which [controls] must be an array (a text
    is iterated by character, and reading the first character as a
    control throws); the totals; the warnings, which must have [map]. *)
Definition processRaw (benchmarkName fw : string) (raw : Json) (s1 : ScanState)
  : ScanState :=
  if logged raw
  then
    match member raw "controls" with
    | Some (JArr cs) =>
        match writeRaw fw cs s1 (mkCounts 0 0 0 0 0) with
        | (s2, Some pc) =>
            let s3 := addTotals (List.length cs) pc s2 in
            let warnings := optMember (member raw "verification") "warnings" in
            if truthyJ warnings
            then match warnings with
                 | Some (JArr ws) =>
                     if forallb (fun w => shown rt (Some w)) ws
                     then addWarnings
                            (map (fun w => (benchmarkName, FromResult w)) ws) s3
                     else benchmarkThrew benchmarkName s3
                 | _ => benchmarkThrew benchmarkName s3
                 end
            else s3
        | (s2, None) => benchmarkThrew benchmarkName s2
        end
    | _ => benchmarkThrew benchmarkName s1
    end
  else benchmarkThrew benchmarkName s1.

(** One more benchmark run. *)
Definition started (s : ScanState) : ScanState :=
  mkState (db s) (tick s) (allFindings s) (totalControls s) (passedControls s)
          (failedControls s) (errorControls s) (skipControls s)
          (verificationWarnings s) (S (benchmarksRun s)) (benchmarksFailed s)
          (benchmarkErrors s).

(** The [try] block of one benchmark.  A name that is not a text is
    passed to the engine as its text, and [benchmarkName.toLowerCase]
    throws whatever the engine gave.  An object made from the engine's
    [results] has no [verification], and the line on the control count
    throws before any control is read. *)
Definition runBenchmark (benchmarkName : BenchmarkName) (decryptedCreds prov fw : string)
    (s : ScanState) : ScanState :=
  let s1 := started s in
  match benchmarkName with
  | Foreign text => benchmarkThrew text s1
  | Named name =>
      match runPowerpipeBenchmark name (engine (tick s1) name decryptedCreds prov) with
      | Transformed result => processResult name fw result s1
      | Passthrough raw => processRaw name fw raw s1
      | Reshaped _ => benchmarkThrew name s1
      | Thrown => benchmarkThrew name s1
      end
  end.

Section Loops.

Variable scanStartTime : Z.

(** [Date.now() - scanStartTime > MAX_SCAN_DURATION_MS] at the next
    clock reading. *)
Definition timedOut (s : ScanState) : bool :=
  clock (tick s) - scanStartTime >? MAX_SCAN_DURATION_MS.

(** One clock reading taken. *)
Definition read (s : ScanState) : ScanState := with_db (db s) (S (tick s)) s.

(** [for (const framework of frameworksToScan)] *)
Fixpoint eachFramework (decryptedCreds prov : string) (fws : list string)
    (s : ScanState) : Flow :=
  match fws with
  | [] => Next s
  | fw :: rest =>
      if timedOut s then Return (failScan (read s))
      else
        let s := read s in
        match getBenchmarkName rt fw prov with
        | None => eachFramework decryptedCreds prov rest s
        | Some benchmarkName =>
            eachFramework decryptedCreds prov rest
              (runBenchmark benchmarkName decryptedCreds prov fw s)
        end
  end.

(** [for (const credential of credentials)]: [decryptCredentials] is
    called outside the [try] of the benchmarks, so that its exception
    reaches the outer [catch], which marks the scan failed. *)
Fixpoint eachCredential (creds : list CredentialRow) (s : ScanState) : Flow :=
  match creds with
  | [] => Next s
  | credential :: rest =>
      if timedOut s then Return (failScan (read s))
      else
        match decryptCredentials (encrypted_credentials credential) with
        | None => Return (failScan (read s))
        | Some decryptedCreds =>
            match eachFramework decryptedCreds (provider credential)
                                frameworksToScan (read s) with
            | Next s' => eachCredential rest s'
            | Return s' => Return s'
            end
        end
  end.

End Loops.

(** Whether [powerpipe_output] accepts the warnings: a jsonb value
    holds no NUL.  The warnings of a verification are the source's own
    sentences. *)
Definition warningStorable (w : string * ScanWarning) : bool :=
  noNul (fst w)
  && match snd w with
     | FromVerification _ => true
     | FromResult v => match textOf rt v with Some text => noNul text | None => true end
     end.

(** The final [UPDATE] with the summary; when it is refused, the outer
    [catch] marks the scan failed. *)
Definition completeScan (s : ScanState) : ScanState :=
  if forallb warningStorable (verificationWarnings s)
  then
    let verificationData :=
      mkVerificationData (verificationWarnings s)
                         (List.length (verificationWarnings s))
                         (clock (tick s)) in
    let now := clock (S (tick s)) in
    with_db
      (with_checks
         (map (fun c =>
                 if (check_id c =? complianceCheckId)%nat
                 then mkCheck (check_id c) (check_client_id c) (check_frameworks c)
                              "completed" (totalControls s) (passedControls s)
                              (failedControls s) (errorControls s) (skipControls s)
                              (started_at c) (Some now) (Some verificationData)
                              (check_created_at c)
                 else c)
              (compliance_checks (db s)))
         (db s))
      (S (S (tick s))) s
  else failScan (read (read s)).

(** After the loops: all benchmarks failed, or none ran (the scan is
    marked failed, the error thrown, and the [catch] marks it failed
    again), or the summary is stored. *)
Definition finalizeScan (s : ScanState) : ScanState :=
  if (0 <? benchmarksRun s)%nat && (benchmarksFailed s =? benchmarksRun s)%nat
  then failScan (failScan s)
  else if (benchmarksRun s =? 0)%nat
  then failScan (failScan s)
  else completeScan s.

(** The check made before the run starts, against the stored
    [started_at]. *)
Definition timedOutBeforeStart (s : ScanState) : bool :=
  match selectCheck complianceCheckId (db s) with
  | Some row => clock (tick s) - started_at row >? MAX_SCAN_DURATION_MS
  | None => false
  end.

(** Archive, then delete, the findings about to be replaced. *)
Definition archiveStep (s : ScanState) : ScanState :=
  with_db
    (deleteFindings client frameworksToScan
       (archiveFindings complianceCheckId client frameworksToScan
                        (clock (tick s)) (db s)))
    (S (tick s)) s.

(** [scanStartTime] has been read. *)
Definition scanStart (d : Db) (t : nat) : ScanState := initState d (S t).

(** The state in which the loops start: the clock has been read for the
    check before the start when the scan's row was found, and the old
    findings are archived and deleted. *)
Definition beforePairs (d : Db) (t : nat) : ScanState :=
  archiveStep
    match selectCheck complianceCheckId d with
    | Some _ => read (scanStart d t)
    | None => scanStart d t
    end.

(** The loops over the credentials and frameworks of the run. *)
Definition scanPairs (creds : list CredentialRow) (d : Db) (t : nat) : Flow :=
  eachCredential (clock t) creds (beforePairs d t).

Definition executeScan (creds : list CredentialRow) (d : Db) (t : nat) : ScanState :=
  if timedOutBeforeStart (scanStart d t) then failScan (read (scanStart d t))
  else
    match scanPairs creds d t with
    | Return s' => s'
    | Next s' => finalizeScan s'
    end.

End Scan.

(** ** The request handlers *)

(** The body of [POST /api/scans] after schema validation. *)
Record ScanRequest := mkRequest {
  req_client_id : uuid;
  req_frameworks : option (list string)
}.

(** How the handler answers: an error response, or 201 with the new
    scan, after which [executeScan] is started in the background with
    the client's active credentials. *)
Inductive Submission :=
| Rejected (httpStatus : nat) (message : string)
| Accepted (check : ComplianceCheck) (creds : list CredentialRow).

(** Insertion of [x] into a list sorted by [before]: after the elements
    that come before it or tie with it. *)
Fixpoint insertSorted {A : Type} (before : A -> A -> bool) (x : A) (l : list A)
  : list A :=
  match l with
  | [] => [x]
  | y :: r => if before x y then x :: y :: r else y :: insertSorted before x r
  end.

(** [ORDER BY]: rows that tie keep the order of the table (the
    database states no order for them). *)
Definition orderBy {A : Type} (before : A -> A -> bool) (l : list A) : list A :=
  fold_right (insertSorted before) [] l.

Section Handlers.

Variable clock : nat -> Z.

(** The order of two texts under the collation of the database. *)
Variable collate : string -> string -> comparison.

Definition postScan (req : ScanRequest) (d : Db) (t : nat) : Submission * Db * nat :=
  match find (fun c => client_pk c =? req_client_id req)%nat (clients d) with
  | None => (Rejected 404 "Client not found", d, t)
  | Some row =>
      let clientFrameworks := assigned_frameworks row in
      let frameworksToScan :=
        match req_frameworks req with
        | Some fws => Some fws
        | None => clientFrameworks
        end in
      match frameworksToScan with
      | None | Some [] => (Rejected 400 "No frameworks assigned to client", d, t)
      | Some fws =>
          match filter (fun c => (credential_client_id c =? req_client_id req)%nat
                                 && is_active c) (credentials d) with
          | [] => (Rejected 400 "No active credentials found for client", d, t)
          | creds =>
              let check :=
                mkCheck (next_id d) (req_client_id req) fws "in_progress"
                        0 0 0 0 0 (clock t) None None (clock t) in
              (Accepted check creds,
               with_next_id (S (next_id d))
                 (with_checks (compliance_checks d ++ [check]) d),
               S t)
          end
      end
  end.

(** The timeout marking of one selected row, in both [GET] handlers:
    only a row read as [in_progress] is touched. *)
Definition markIfTimedOut (now : Z) (scan : ComplianceCheck) (d : Db) (t : nat)
  : ComplianceCheck * Db * nat :=
  if String.eqb (check_status scan) "in_progress"
     && (now - started_at scan >? MAX_SCAN_DURATION_MS)
  then (setStatus "failed" (clock (S t)) scan,
        updateStatus "failed" (clock t) (check_id scan) d,
        S (S t))
  else (scan, d, t).

Fixpoint markEach (now : Z) (rows : list ComplianceCheck) (d : Db) (t : nat)
  : list ComplianceCheck * Db * nat :=
  match rows with
  | [] => ([], d, t)
  | scan :: rest =>
      let '(scan', d', t') := markIfTimedOut now scan d t in
      let '(rest', d'', t'') := markEach now rest d' t' in
      (scan' :: rest', d'', t'')
  end.

(** [GET /api/scans], with its optional filters: a filter that is
    absent or empty is not applied ([client_filter] is a well-formed
    id when present).  [ORDER BY created_at DESC]. *)
Definition listScans (client_filter : option uuid) (status_filter : option string)
    (d : Db) (t : nat) : list ComplianceCheck * Db * nat :=
  let rows :=
    filter (fun c =>
              match client_filter with
              | Some id => (check_client_id c =? id)%nat
              | None => true
              end
              && if Js.truthy status_filter
                 then match status_filter with
                      | Some st => String.eqb (check_status c) st
                      | None => true
                      end
                 else true)
           (compliance_checks d) in
  markEach (clock t)
           (orderBy (fun a b => check_created_at b <? check_created_at a) rows)
           d (S t).

(** [ORDER BY framework, control_id] *)
Definition byFrameworkAndControl (f g : Finding) : bool :=
  match collate (framework f) (framework g) with
  | Lt => true
  | Gt => false
  | Eq => match collate (f_control_id f) (f_control_id g) with
          | Lt => true
          | _ => false
          end
  end.

(** [GET /api/scans/:id]: the scan (with its findings), or 404. *)
Definition getScan (id : uuid) (d : Db) (t : nat)
  : option (ComplianceCheck * list Finding) * Db * nat :=
  match selectCheck id d with
  | None => (None, d, t)
  | Some scan =>
      let '(scan', d', t') :=
        if String.eqb (check_status scan) "in_progress"
        then markIfTimedOut (clock t) scan d (S t)
        else (scan, d, t) in
      (Some (scan',
             orderBy byFrameworkAndControl
                     (filter (fun f => compliance_check_id f =? id)%nat (findings d'))),
       d', t')
  end.

End Handlers.

(** The status of a scan in the store. *)
Definition statusOf (id : uuid) (d : Db) : option string :=
  option_map check_status (selectCheck id d).

(* ================================================================== *)
(** * Specification vocabulary                                         *)
(* ================================================================== *)

(** The controls of a result in the order [extractControls] meets them:
    an item's own controls, then its groups, depth first. *)
Fixpoint flatten (item : Item) : list RawControl :=
  match item with
  | mkItem controls groups =>
      (match controls with Some cs => cs | None => [] end ++
      match groups with
      | Some gs =>
          (fix each (gs : list Item) : list RawControl :=
             match gs with
             | [] => []
             | g :: gs' => (flatten g ++ each gs')%list
             end) gs
      | None => []
      end)%list
  end.

(** [control.control_id || ''] *)
Definition idOf (c : RawControl) : string := Js.orEmpty (raw_control_id c).

(** The occurrences of control [k] in a traversal, in order. *)
Definition occurrences (k : string) (l : list RawControl) : list RawControl :=
  filter (fun c => String.eqb (idOf c) k) l.

(** The occurrence whose record survives: the last one that carries a
    non-empty [results] array, and the first occurrence when none does. *)
Definition kept (occs : list RawControl) : option RawControl :=
  match filter hasResults occs with
  | [] => hd_error occs
  | p :: ps => Some (last ps p)
  end.

(** The occurrence kept according to the specification's wording: one with
    non-empty results is preferred over one with none, and otherwise the
    first seen is kept, so of several populated occurrences the first. *)
Definition spec_kept (occs : list RawControl) : option RawControl :=
  match filter hasResults occs with
  | [] => hd_error occs
  | p :: _ => Some p
  end.

(** The records emitted for control [k]. *)
Definition recordsFor (k : string) (cs : list Control) : list Control :=
  filter (fun t => String.eqb (control_id t) k) cs.

(** A sub-count of [control.summary], absent counts reading as zero. *)
Definition subCount (x : ControlSummary -> option Z) (c : RawControl) : Z :=
  match raw_summary c with
  | Some s => match x s with Some n => n | None => 0 end
  | None => 0
  end.

(** [text] contains [sub]. *)
Definition contains (text sub : string) : Prop :=
  exists a b, text = a ++ sub ++ b.


(** A well-formed controls map: keys are distinct and each record carries
    its key. *)
Definition wfMap (m : ControlsMap) : Prop :=
  NoDup (map fst m) /\ Forall (fun kv => control_id (snd kv) = fst kv) m.

(** Warnings pushed by the count check. *)
Definition countBased (w : Warning) : bool :=
  match w with
  | SignificantlyBelow _ _ | SlightlyBelow _ _ | ExceedsMaximum _ _ => true
  | _ => false
  end.

(** The range the table holds for a (provider, framework) pair. *)
Definition tableRange (prov fw : string) : option Range :=
  match prop prov EXPECTED_CONTROL_RANGES with
  | Some byFramework => prop fw byFramework
  | None => None
  end.

(** The ranges of the table. *)
Definition allRanges : list Range :=
  flat_map (fun byProvider => map snd (snd byProvider)) EXPECTED_CONTROL_RANGES.

(** The binary64 products [min * 0.8] and [max * 1.2] of a range are the
    integers [4 min / 5] and [6 max / 5] (0x1.999999999999ap-1 and
    0x1.3333333333333p+0 are the binary64 numbers written 0.8 and 1.2). *)
Definition productsExact (r : Range) : bool :=
  PrimFloat.eqb (PrimFloat.mul (toFloat (min r)) 0x1.999999999999ap-1%float)
                (toFloat (min r * 4 / 5))
  && ((min r * 4) mod 5 =? 0)
  && PrimFloat.eqb (PrimFloat.mul (toFloat (max r)) 0x1.3333333333333p+0%float)
                   (toFloat (max r * 6 / 5))
  && ((max r * 6) mod 5 =? 0).

(** Terminal scan statuses. *)
Definition terminal (st : string) : bool :=
  String.eqb st "completed" || String.eqb st "failed".


(** A finding written by the scan [scan] of [client] over [frameworks]. *)
Definition writtenBy (scan client : uuid) (frameworks : list string) (f : Finding) : Prop :=
  client_id f = client /\ compliance_check_id f = scan /\ In (framework f) frameworks.

(** From store [d] to store [d'] the scan only appended findings of its
    own: history and metadata are as they were. *)
Definition grows (scan client : uuid) (frameworks : list string) (d d' : Db) : Prop :=
  findings_history d' = findings_history d
  /\ control_metadata d' = control_metadata d
  /\ exists new,
      findings d' = (findings d ++ new)%list
      /\ Forall (writtenBy scan client frameworks) new.


(** Findings that belong to the scan [scan]. *)
Definition findingsOf (scan : uuid) (fs : list Finding) : list Finding :=
  filter (fun f => compliance_check_id f =? scan)%nat fs.

(** The state of a loop's outcome. *)
Definition stateOf (fl : Flow) : ScanState :=
  match fl with Next s => s | Return s => s end.



(** The framework names fit their column, [framework VARCHAR(50)]: a
    longer name is refused by the column, or cut when its excess is
    blank, and the row then carries a name that is not the one asked
    for. *)
Definition namesFit (frameworks : list string) : Prop :=
  Forall (fun fw => (String.length fw <= 50)%nat) frameworks.

(** The texts of a normalized control fit the columns of [findings]:
    the lengths are within the columns' limits and no text holds NUL. *)
Definition fitsColumns (control : Control) : Prop :=
  (String.length (control_id control) <= 255)%nat
  /\ (String.length (title control) <= 500)%nat
  /\ noNul (control_id control) = true
  /\ noNul (title control) = true
  /\ noNul (description control) = true
  /\ noNulOpt (reason control) = true
  /\ resourcesNoNul (option_map Rows (resources control)) = true.

(** The rows of [control_metadata] obey the table's constraints: one row
    per (client, control), and a remediation status of at most 20
    characters. *)
Definition metadataKept (d : Db) : Prop :=
  NoDup (map (fun m => (md_client_id m, md_control_id m)) (control_metadata d))
  /\ Forall (fun m => forall rs, md_remediation_status m = Some rs ->
                                 (String.length rs <= 20)%nat)
            (control_metadata d).

(** The client and the scan have their rows. *)
Definition rowsExist (scan client : uuid) (d : Db) : Prop :=
  (exists c, In c (clients d) /\ client_pk c = client)
  /\ (exists k, In k (compliance_checks d) /\ check_id k = scan).

(** A row of the scan [scan] of [client] for a framework of the list,
    as the column keeps the framework's name. *)
Definition ownRow (scan client : uuid) (frameworks : list string) (f : Finding) : Prop :=
  client_id f = client /\ compliance_check_id f = scan
  /\ exists fw, In fw frameworks /\ varchar 50 fw = Some (framework f).

(** From store [d] to store [d'] rows of the scan were appended to the
    findings; history and metadata are as they were. *)
Definition extends (scan client : uuid) (frameworks : list string) (d d' : Db) : Prop :=
  findings_history d' = findings_history d
  /\ control_metadata d' = control_metadata d
  /\ exists new,
      findings d' = (findings d ++ new)%list
      /\ Forall (ownRow scan client frameworks) new.

(** The state after a row [f] has been inserted and its key pushed to
    [allFindings]. *)
Definition inserted (f : Finding) (s : ScanState) : ScanState :=
  mkState (with_next_id (S (next_id (db s)))
                        (with_findings (findings (db s) ++ [f]) (db s)))
          (S (tick s)) (allFindings s ++ [next_id (db s)])
          (totalControls s) (passedControls s) (failedControls s)
          (errorControls s) (skipControls s)
          (verificationWarnings s) (benchmarksRun s)
          (benchmarksFailed s) (benchmarkErrors s).

Section Steps.

Variable clock : nat -> Z.
Variable rt : Runtime.
Variables (scan client : uuid) (frameworks : list string).

(** The steps of the loops of a run, once the old findings are
    archived: a clock reading, the insertion of a row of the scan, the
    bookkeeping of a benchmark, and the updates of the scan's row. *)
Inductive step : ScanState -> ScanState -> Prop :=
| step_read s : step s (read s)
| step_insert s f :
    client_id f = client ->
    compliance_check_id f = scan ->
    (exists fw, In fw frameworks /\ varchar 50 fw = Some (framework f)) ->
    referenced f (db s) = true ->
    conflicts f (db s) = false ->
    step s (inserted f s)
| step_totals s n pc : step s (addTotals n pc s)
| step_warnings s ws : step s (addWarnings ws s)
| step_started s : step s (started s)
| step_threw s name : step s (benchmarkThrew name s)
| step_fail s : step s (failScan clock scan s)
| step_complete s : step s (completeScan clock rt scan s).

Inductive runs : ScanState -> ScanState -> Prop :=
| runs_refl s : runs s s
| runs_step s1 s2 s3 : step s1 s2 -> runs s2 s3 -> runs s1 s3.

End Steps.

(* ================================================================== *)
(** * Locating the JSON in the engine's output                         *)
(* ================================================================== *)

Module Extract.

Definition quote : ascii := ascii_of_nat 34.
Definition backslash : ascii := ascii_of_nat 92.

Definition isOpen (c : ascii) : bool :=
  Ascii.eqb c "{" || Ascii.eqb c "[".

(** The output from the first '{' or '[' on, if there is one. *)
Fixpoint fromFirstOpen (stdout : string) : option string :=
  match stdout with
  | EmptyString => None
  | String c r => if isOpen c then Some stdout else fromFirstOpen r
  end.

(** [stdout.substring(jsonStart)], where [jsonStart] falls back to 0. *)
Definition afterPreamble (stdout : string) : string :=
  match fromFirstOpen stdout with
  | Some s => s
  | None => stdout
  end.

(** White space of [trim], among the code units below 256. *)
Definition isWhitespace (c : ascii) : bool :=
  let n := nat_of_ascii c in
  ((9 <=? n) && (n <=? 13) || (n =? 32) || (n =? 160))%nat.

Fixpoint trimStart (s : string) : string :=
  match s with
  | EmptyString => EmptyString
  | String c r => if isWhitespace c then trimStart r else s
  end.

Fixpoint trimEnd (s : string) : string :=
  match s with
  | EmptyString => EmptyString
  | String c r =>
      match trimEnd r with
      | EmptyString => if isWhitespace c then EmptyString else String c EmptyString
      | r' => String c r'
      end
  end.

Definition trim (s : string) : string := trimEnd (trimStart s).

(** The loop that looks for the end of the JSON: from index [i] of
    [jsonOutput] with the counters and flags of the source, the value
    given to [jsonEnd] at the [break], if the loop breaks. *)
Fixpoint scan (rest : string) (i : nat) (braceCount bracketCount : Z)
    (inString escapeNext : bool) : option nat :=
  match rest with
  | EmptyString => None
  | String char r =>
      if escapeNext then scan r (S i) braceCount bracketCount inString false
      else if Ascii.eqb char backslash
      then scan r (S i) braceCount bracketCount inString true
      else if Ascii.eqb char quote
      then scan r (S i) braceCount bracketCount (negb inString) false
      else if inString then scan r (S i) braceCount bracketCount inString false
      else
        let braceCount :=
          if Ascii.eqb char "{" then braceCount + 1 else braceCount in
        let braceCount :=
          if Ascii.eqb char "}" then braceCount - 1 else braceCount in
        let bracketCount :=
          if Ascii.eqb char "[" then bracketCount + 1 else bracketCount in
        let bracketCount :=
          if Ascii.eqb char "]" then bracketCount - 1 else bracketCount in
        if (braceCount =? 0) && (bracketCount =? 0) && (0 <? i)%nat
        then Some (S i)
        else scan r (S i) braceCount bracketCount false false
  end.

Definition jsonEnd (jsonOutput : string) : nat :=
  match scan jsonOutput 0 0 0 false false with
  | Some e => e
  | None => String.length jsonOutput
  end.

(** The text handed to [JSON.parse]. *)
Definition jsonText (stdout : string) : string :=
  let jsonOutput := trim (afterPreamble stdout) in
  substring 0 (jsonEnd jsonOutput) jsonOutput.

(** ** Bracketed text *)

(** A character that is neither a brace, a bracket, a quote nor a
    backslash. *)
Definition plain (c : ascii) : bool :=
  negb (Ascii.eqb c "{" || Ascii.eqb c "}" || Ascii.eqb c "[" || Ascii.eqb c "]"
        || Ascii.eqb c quote || Ascii.eqb c backslash).

(** The inside of a string literal: characters other than quote and
    backslash, and a backslash followed by any character. *)
Inductive StrBody : string -> Prop :=
| sb_nil : StrBody EmptyString
| sb_char c r :
    Ascii.eqb c quote = false -> Ascii.eqb c backslash = false ->
    StrBody r -> StrBody (String c r)
| sb_escape c r : StrBody r -> StrBody (String backslash (String c r)).

(** A sequence of plain characters, string literals and bracketed
    groups whose brackets match. *)
Inductive Elems : string -> Prop :=
| el_nil : Elems EmptyString
| el_plain c r : plain c = true -> Elems r -> Elems (String c r)
| el_string body r :
    StrBody body -> Elems r ->
    Elems (String quote (body ++ String quote r))
| el_object inner r :
    Elems inner -> Elems r -> Elems (String "{" (inner ++ String "}" r))
| el_array inner r :
    Elems inner -> Elems r -> Elems (String "[" (inner ++ String "]" r)).

(** An object or an array. *)
Inductive Document : string -> Prop :=
| doc_object inner : Elems inner -> Document (String "{" (inner ++ String "}" EmptyString))
| doc_array inner : Elems inner -> Document (String "[" (inner ++ String "]" EmptyString)).

(** No '{' and no '[' in the text. *)
Fixpoint noOpen (s : string) : bool :=
  match s with
  | EmptyString => true
  | String c r => negb (isOpen c) && noOpen r
  end.

End Extract.

(* ================================================================== *)
(** * Benchmark inventory and discovery                                *)
(* ================================================================== *)

(** An entry of the inventory endpoint's control list. *)
Record InventoryControl := mkInventory {
  inv_control_id : string;
  inv_title : string;
  inv_description : string
}.

(** The loop body of the inventory's [extractControls]: every control
    with an id is pushed. *)
Definition pushControl (controls : list InventoryControl) (c : RawControl)
  : list InventoryControl :=
  if Js.truthy (raw_control_id c)
  then (controls ++ [mkInventory (Js.orEmpty (raw_control_id c))
                                 (Js.orEmpty (raw_title c))
                                 (Js.orEmpty (raw_description c))])%list
  else controls.

Fixpoint inventoryControls (item : Item) (controls : list InventoryControl)
  : list InventoryControl :=
  match item with
  | mkItem cs groups =>
      let controls1 :=
        match cs with
        | Some l => fold_left pushControl l controls
        | None => controls
        end in
      match groups with
      | Some gs =>
          (fix each (gs : list Item) (controls : list InventoryControl) :=
             match gs with
             | [] => controls
             | g :: gs' => each gs' (inventoryControls g controls)
             end) gs controls1
      | None => controls1
      end
  end.

(** The [controls] of the inventory for a parsed dry-run output. *)
Definition benchmarkInventory (benchmarkData : Item) : list InventoryControl :=
  inventoryControls benchmarkData [].

(** An element of the benchmark list: a name, or an object with [name],
    [benchmark] and [control_count]. *)
Inductive BenchmarkEntry :=
| EntryName (name : string)
| EntryObject (name benchmark_field : option string) (control_count : option nat).

Record Discovered := mkDiscovered {
  d_name : string;
  d_provider : string;
  d_framework : option string;
  d_control_count : option nat
}.

(** The provider filter of [discoverAvailableBenchmarks]. *)
Definition startsWithPrefix (providerPrefix : string) (b : BenchmarkEntry) : bool :=
  match b with
  | EntryName s => String.prefix providerPrefix s
  | EntryObject (Some n) _ _ => String.prefix providerPrefix n
  | EntryObject None _ _ => false
  end.

Definition discoveredFramework (name : string) : option string :=
  let nameLower := Js.toLowerCase name in
  if Js.includes nameLower "hipaa" then Some "HIPAA"
  else if Js.includes nameLower "soc" then Some "SOC2"
  else if Js.includes nameLower "iso" then Some "ISO27001"
  else if Js.includes nameLower "cis" then Some "CIS"
  else if Js.includes nameLower "nist" then Some "NIST"
  else if Js.includes nameLower "pci" then Some "PCI-DSS"
  else if Js.includes nameLower "gdpr" then Some "GDPR"
  else if Js.includes nameLower "fedramp" then Some "FedRAMP"
  else None.

Definition extractedProvider (name : string) : string :=
  if Js.includes name "aws_compliance" then "aws"
  else if Js.includes name "azure_compliance" then "azure"
  else if Js.includes name "gcp_compliance" then "gcp"
  else "unknown".

(** The mapping of one entry; [None] when the entry has no name, where
    the source throws on [name.includes]. *)
Definition describe (b : BenchmarkEntry) : option Discovered :=
  let name :=
    match b with
    | EntryName s => Some s
    | EntryObject n f _ => Js.or n f
    end in
  match name with
  | Some name =>
      Some (mkDiscovered name (extractedProvider name) (discoveredFramework name)
                         match b with
                         | EntryName _ => None
                         | EntryObject _ _ count => count
                         end)
  | None => None
  end.

Fixpoint describeAll (bs : list BenchmarkEntry) : option (list Discovered) :=
  match bs with
  | [] => Some []
  | b :: rest =>
      match describe b with
      | None => None
      | Some d =>
          match describeAll rest with
          | None => None
          | Some ds => Some (d :: ds)
          end
      end
  end.

(** [discoverAvailableBenchmarks] from the parsed list on: the provider
    filter, then the mapping; [None] stands for the error thrown. *)
Definition discoverFrom (provider : option string) (benchmarks : list BenchmarkEntry)
  : option (list Discovered) :=
  let benchmarks :=
    match provider with
    | Some p =>
        if Js.truthy provider
        then filter (startsWithPrefix (Js.toLowerCase p ++ "_compliance.benchmark."))
                    benchmarks
        else benchmarks
    | None => benchmarks
    end in
  describeAll benchmarks.

(* ================================================================== *)
(** * Vocabulary for the store                                         *)
(* ================================================================== *)

(** Identifiers in first-seen order: the last-kept deduplication of the
    reversed list, reversed. *)
Definition firstSeen (ids : list string) : list string :=
  rev (nodup string_dec (rev ids)).

(** The ids met by the traversal, controls without an id left out. *)
Definition idsOf (result : Item) : list string :=
  filter (fun k => negb (String.eqb k "")) (map idOf (flatten result)).

(** The unique index on (compliance_check_id, control_id). *)
Definition uniqueIndex (fs : list Finding) : Prop :=
  NoDup (map (fun f => (compliance_check_id f, f_control_id f)) fs).

(** Keys handed out so far are below [next_id]. *)
Definition keysBelow (d : Db) : Prop :=
  Forall (fun c => (check_id c < next_id d)%nat) (compliance_checks d)
  /\ NoDup (map check_id (compliance_checks d)).

(** The rows a [GET /api/scans] selects: a status filter that is absent
    or empty selects every status. *)
Definition selected (client_filter : option uuid) (status_filter : option string)
    (c : ComplianceCheck) : bool :=
  match client_filter with
  | Some id => (check_client_id c =? id)%nat
  | None => true
  end
  && if Js.truthy status_filter
     then match status_filter with
          | Some st => String.eqb (check_status c) st
          | None => true
          end
     else true.

(** The scan row [row'] is the row [row] but for its status, totals,
    completion time and output. *)
Definition sameScan (row row' : ComplianceCheck) : Prop :=
  check_id row' = check_id row
  /\ check_client_id row' = check_client_id row
  /\ check_frameworks row' = check_frameworks row
  /\ started_at row' = started_at row.

(** From store [d] to store [d'] nothing but findings, history and the
    row of [scan] may differ: clients, credentials and metadata are the
    same, and the scan rows are the same rows in the same order, each
    other than [scan]'s unchanged. *)
Definition othersKept (scan : uuid) (d d' : Db) : Prop :=
  clients d' = clients d
  /\ credentials d' = credentials d
  /\ control_metadata d' = control_metadata d
  /\ Forall2 (fun c c' => check_id c' = check_id c
                          /\ (check_id c <> scan -> c' = c))
             (compliance_checks d) (compliance_checks d').

(** The running totals add up. *)
Definition addsUp (s : ScanState) : Prop :=
  totalControls s
  = (passedControls s + failedControls s + errorControls s + skipControls s)%nat.

(** The counters of one benchmark after its controls. *)
Definition recount (cs : list Control) (pc : PairCounts) : PairCounts :=
  fold_left (fun pc control => countControl control pc) cs pc.

(** The key of a finding under the unique index. *)
Definition indexKey (f : Finding) : uuid * string :=
  (compliance_check_id f, f_control_id f).

(** Whether the scan already has a finding stored under one of the
    control ids: the case in which the unique index refuses an insert. *)
Definition clash (scan : uuid) (ids : list string) (d : Db) : bool :=
  existsb (fun g => (compliance_check_id g =? scan)%nat
                    && existsb (String.eqb (f_control_id g)) ids)
          (findings d).

(** The finding [f] is the row written for [control] by the scan. *)
Definition writtenFor (scan client : uuid) (fw : string) (control : Control)
    (f : Finding) : Prop :=
  compliance_check_id f = scan
  /\ client_id f = client
  /\ framework f = fw
  /\ f_control_id f = control_id control
  /\ control_title f = title control
  /\ scan_status f = statusText (status control)
  /\ scan_reason f = Js.orNull (reason control).

(** No framework of the list is a key of the benchmark table for any
    of the credentials' providers, and the prototypes give nothing for
    them either. *)
Definition unmapped (rt : Runtime) (frameworks : list string)
    (creds : list CredentialRow) : Prop :=
  forall c fw,
    In c creds -> In fw frameworks ->
    match prop (Js.toLowerCase (provider c)) FRAMEWORK_TO_BENCHMARK with
    | Some providerMap =>
        prop fw providerMap = None /\ inheritedMember rt fw = None
    | None => inheritedBenchmark rt (Js.toLowerCase (provider c)) fw = None
    end.

(** What the counters of a run say at every point of the loops: no more
    failed benchmarks than benchmarks run, no more controls counted by
    status than in all, and no more controls counted than the scan has
    findings in the store. *)
Definition counted (scan : uuid) (s : ScanState) : Prop :=
  (benchmarksFailed s <= benchmarksRun s)%nat
  /\ (passedControls s + failedControls s + errorControls s + skipControls s
      <= totalControls s)%nat
  /\ (totalControls s <= List.length (findingsOf scan (findings (db s))))%nat.

(** The engine gives no object that is used as it is: the results that
    are processed are those the normalizer made. *)
Definition noPassthrough (engine : nat -> string -> string -> string -> EngineOutput)
  : Prop :=
  forall n name creds prov raw,
    runPowerpipeBenchmark name (engine n name creds prov) <> Passthrough raw.

(** What the counters say then: the totals add up, and each benchmark
    that did not fail counted at least one control. *)
Definition countedExactly (s : ScanState) : Prop :=
  addsUp s /\ (benchmarksRun s <= benchmarksFailed s + totalControls s)%nat.

(** The finding [f] is the row kept for a control that came as the
    engine gave it: a row of the scan, with the control's status when
    that is one of the four texts. *)
Definition rawStoredFor (scan : uuid) (control : Json) (f : Finding) : Prop :=
  compliance_check_id f = scan
  /\ forall st, statusIs control (statusText st) = true -> scan_status f = statusText st.

(** A row read as in progress more than the budget after its start. *)
Definition overdue (now : Z) (c : ComplianceCheck) : bool :=
  String.eqb (check_status c) "in_progress"
  && (now - started_at c >? MAX_SCAN_DURATION_MS).

(** The store [d'] is the store [d] with the overdue rows among [rows]
    marked failed, at some time, and nothing else changed. *)
Definition marked (now : Z) (rows : list ComplianceCheck) (d d' : Db) : Prop :=
  clients d' = clients d
  /\ credentials d' = credentials d
  /\ findings d' = findings d
  /\ findings_history d' = findings_history d
  /\ control_metadata d' = control_metadata d
  /\ next_id d' = next_id d
  /\ Forall2 (fun c c' =>
                if existsb (fun r => overdue now r && (check_id c =? check_id r)%nat) rows
                then exists tm, c' = setStatus "failed" tm c
                else c' = c)
             (compliance_checks d) (compliance_checks d').

(** The finding [f] is the row kept for [control] of the scan, with the
    control's id as its column holds it. *)
Definition storedFor (scan client : uuid) (control : Control) (f : Finding) : Prop :=
  compliance_check_id f = scan
  /\ client_id f = client
  /\ varchar 255 (control_id control) = Some (f_control_id f)
  /\ scan_status f = statusText (status control)
  /\ scan_reason f = Js.orNull (reason control).

(** The sum of [f] over a list. *)
Definition sumOver {A : Type} (f : A -> nat) (l : list A) : nat :=
  list_sum (map f l).

(** The counters of the state are those of the results [rs], the
    benchmarks that did not fail: one more benchmark run than failed
    for each result, the totals summed over the results' controls, and
    the results' warnings in order. *)
Definition succeededWith (s : ScanState) (rs : list PowerpipeBenchmarkResult) : Prop :=
  benchmarksRun s = (benchmarksFailed s + List.length rs)%nat
  /\ totalControls s = sumOver (fun r => List.length (controls r)) rs
  /\ passedControls s = sumOver (fun r => countStatus pass (controls r)) rs
  /\ failedControls s = sumOver (fun r => countStatus fail (controls r)) rs
  /\ errorControls s = sumOver (fun r => countStatus error (controls r)) rs
  /\ skipControls s = sumOver (fun r => countStatus skip (controls r)) rs
  /\ verificationWarnings s
     = flat_map (fun r => map (fun w => (benchmark r, FromVerification w))
                              (warnings (verification r))) rs.

(** The result [r] is what [runPowerpipeBenchmark] made of an answer of
    the engine for the benchmark of [r]. *)
Definition answered (engine : nat -> string -> string -> string -> EngineOutput)
    (r : PowerpipeBenchmarkResult) : Prop :=
  exists n creds prov,
    runPowerpipeBenchmark (benchmark r) (engine n (benchmark r) creds prov)
    = Transformed r.

(** Every control of the result has its finding of the scan in the
    store. *)
Definition recorded (scan client : uuid) (d : Db) (r : PowerpipeBenchmarkResult) : Prop :=
  forall control,
    In control (controls r) ->
    exists f, In f (findings d) /\ storedFor scan client control f.

(** The engine gives nothing that can be used: every invocation ends in
    an exception, or in an object without [verification]. *)
Definition unusable (engine : nat -> string -> string -> string -> EngineOutput) : Prop :=
  forall n b creds prov,
    match runPowerpipeBenchmark b (engine n b creds prov) with
    | Thrown | Reshaped _ => True
    | Transformed _ | Passthrough _ => False
    end.

(* ================================================================== *)
(** * The verification report of a scan ([api/verification.ts])        *)
(* ================================================================== *)

(** The row of counts selected from the findings of the scan. *)
Record ControlCounts := mkControlCounts {
  cc_total : nat;
  cc_passed : nat;
  cc_failed : nat;
  cc_error : nat;
  cc_skipped : nat
}.

(** [COUNT(CASE WHEN scan_status = ... THEN 1 END)] *)
Definition countFindings (st : Status) (fs : list Finding) : nat :=
  List.length (filter (fun f => String.eqb (scan_status f) (statusText st)) fs).

Definition controlCounts (fs : list Finding) : ControlCounts :=
  {| cc_total := List.length fs;
     cc_passed := countFindings pass fs;
     cc_failed := countFindings fail fs;
     cc_error := countFindings error fs;
     cc_skipped := countFindings skip fs |}.

(** [scan_reason ILIKE '%keyword%'], for a keyword in lower case with
    no wildcard: a NULL reason matches nothing. *)
Definition ilike (reason : option string) (keyword : string) : bool :=
  match reason with
  | Some r => Js.includes (Js.toLowerCase r) keyword
  | None => false
  end.

(** The words of the report's query for permission-related errors. *)
Definition reportKeywords : list string :=
  [ "access denied"; "unauthorized"; "forbidden"; "permission" ].

(** [scan_status = 'error' AND (scan_reason ILIKE ... OR ...)] *)
Definition permissionRelated (f : Finding) : bool :=
  String.eqb (scan_status f) "error" && existsb (ilike (scan_reason f)) reportKeywords.

(** The recommendations, by their templates: the text of the second one
    shows the error rate with one decimal. *)
Inductive Recommendation :=
| ReviewPermissions (permissionErrorCount : nat)
| ErrorRateHigh (errorCount totalControls : nat)
| LowControlCount (totalControls : nat)
| NoControlsFound.

(** [totalControls > 0 ? (errorCount / totalControls) * 100 : 0], in
    binary64; the counts are taken below 2^53, where the conversion of an
    integer is exact. *)
Definition errorRate (errorCount totalControls : nat) : float :=
  if (0 <? totalControls)%nat
  then PrimFloat.mul (PrimFloat.div (toFloat (Z.of_nat errorCount))
                                    (toFloat (Z.of_nat totalControls)))
                     100%float
  else 0%float.

Definition generateRecommendations (scan : ComplianceCheck) (findings : ControlCounts)
    (permissionErrorCount : nat) : list Recommendation :=
  let totalControls := cc_total findings in
  let errorCount := cc_error findings in
  ((if (0 <? permissionErrorCount)%nat
    then [ReviewPermissions permissionErrorCount] else [])
   ++ (if PrimFloat.ltb 20%float (errorRate errorCount totalControls)
       then [ErrorRateHigh errorCount totalControls] else [])
   ++ (if (totalControls <? 100)%nat then [LowControlCount totalControls] else [])
   ++ (if String.eqb (check_status scan) "completed" && (totalControls =? 0)%nat
       then [NoControlsFound] else []))%list.

Record ScanReport := mkScanReport {
  report_scan_id : uuid;
  report_status : string;
  report_frameworks : list string;
  report_control_counts : ControlCounts;
  report_verification : option VerificationData;
  report_permission_count : nat;
  report_permission_examples : list (string * string * option string);
  report_recommendations : list Recommendation
}.

(** [GET /api/verification/scan/:scanId]: the report, or 404.  The
    examples are at most twenty of the matching findings ([LIMIT 20],
    in no stated order; the first twenty of the table here); a scan
    without stored verification data is reported with no warnings
    ([None]). *)
Definition scanReport (scanId : uuid) (d : Db) : option ScanReport :=
  match selectCheck scanId d with
  | None => None
  | Some scan =>
      let own := filter (fun f => compliance_check_id f =? scanId)%nat (findings d) in
      let findings := controlCounts own in
      let permissionErrors := firstn 20 (filter permissionRelated own) in
      Some {| report_scan_id := scanId;
              report_status := check_status scan;
              report_frameworks := check_frameworks scan;
              report_control_counts := findings;
              report_verification := powerpipe_output scan;
              report_permission_count := List.length permissionErrors;
              report_permission_examples :=
                map (fun r => (f_control_id r, control_title r, scan_reason r))
                    permissionErrors;
              report_recommendations :=
                generateRecommendations scan findings (List.length permissionErrors) |}
  end.

(** The running totals are no more than the findings of the scan in the
    store, status by status, and equal to them when the scan had no
    finding before the run and no benchmark has failed. *)
Definition tallied (scan : uuid) (s : ScanState) : Prop :=
  let own := findingsOf scan (findings (db s)) in
  (totalControls s <= List.length own)%nat
  /\ (passedControls s <= countFindings pass own)%nat
  /\ (failedControls s <= countFindings fail own)%nat
  /\ (errorControls s <= countFindings error own)%nat
  /\ (skipControls s <= countFindings skip own)%nat.

Definition exactTally (scan : uuid) (s : ScanState) : Prop :=
  let own := findingsOf scan (findings (db s)) in
  benchmarksFailed s = 0%nat ->
  totalControls s = List.length own
  /\ passedControls s = countFindings pass own
  /\ failedControls s = countFindings fail own
  /\ errorControls s = countFindings error own
  /\ skipControls s = countFindings skip own.

(** The keywords of the normalizer that contain none of the report's
    words. *)
Definition unreportedKeywords : list string :=
  [ "accessdenied"; "invaliduserid.notfound"; "accessdeniedexception";
    "user is not authorized"; "not authorized to perform" ].

(* ================================================================== *)
(** * Concrete inputs                                                  *)
(* ================================================================== *)

Module Ex.

(** One control reported under two groups, each time with results. *)
Definition occ_first : RawControl :=
  mkRawControl (Some "cis_1_5") (Some "Root MFA (section 1)") None
    (Some (mkControlSummary (Some 1) None (Some 3) None None))
    (Some [mkResultRow (Some "root account has no MFA") (Some "arn:aws:iam::1:root")
                       (Some "alarm")])
    None.

Definition occ_second : RawControl :=
  mkRawControl (Some "cis_1_5") (Some "Root MFA (section 4)") None
    (Some (mkControlSummary None None (Some 1) None None))
    (Some [mkResultRow (Some "root account has MFA") (Some "arn:aws:iam::1:root")
                       (Some "ok")])
    None.

Definition denied : RawControl :=
  mkRawControl (Some "cis_2_1") (Some "CloudTrail enabled") None
    (Some (mkControlSummary None (Some 1) (Some 2) None None))
    (Some [mkResultRow (Some "AccessDenied: user is not authorized to perform cloudtrail:DescribeTrails")
                       None (Some "error")])
    None.

(** A result with the one control, failing and passing sub-resources. *)
Definition mixed : Item := mkItem (Some [occ_first]) None.

Definition twice : Item :=
  mkItem None
    (Some [ mkItem (Some [occ_first]) None;
            mkItem (Some [denied]) (Some [mkItem (Some [occ_second]) None]) ]).

End Ex.

Module ExScan.

(** One reading of the clock per second. *)
Definition steady (n : nat) : Z := Z.of_nat n * 1000.

(** The fifth and later readings come more than half an hour in. *)
Definition slow (n : nat) : Z :=
  if (n <? 5)%nat then Z.of_nat n * 1000 else 1900000 + Z.of_nat n.

(** A runtime in which an object literal inherits [constructor], whose
    [name] is the text Object; numbers and the like are shown by a
    fixed text. *)
Definition runtime : Runtime :=
  {| inheritedMember := fun k =>
       if String.eqb k "constructor"
       then Some (Foreign "function Object() { [native code] }") else None;
     inheritedBenchmark := fun p k =>
       if String.eqb p "constructor" && String.eqb k "name"
       then Some (Named "Object") else None;
     prepareValue := fun _ => "value";
     toText := fun _ => Some "value";
     greaterThanZero := fun _ => Some false |}.

Definition decrypt (s : string) : option string := Some s.

(** Decryption that fails on the credentials written "broken". *)
Definition decryptSome (s : string) : option string :=
  if String.eqb s "broken" then None else Some s.

Definition engineUp (n : nat) (b creds prov : string) : EngineOutput :=
  Parsed Ex.twice (JObj []).

Definition engineDown (n : nat) (b creds prov : string) : EngineOutput :=
  Unusable.

Definition oldFinding : Finding :=
  mkFinding 90 1 5 "cis_1_5" "Root MFA" None "CIS" None None "fail"
            (Some "root account has no MFA") None "in_progress" (Some 40%nat)
            (Some "follow up with infra team") ["opened"] None None 0 0.

Definition otherFinding : Finding :=
  mkFinding 91 1 5 "hipaa_1" "Audit logs" None "HIPAA" None None "pass"
            None None "resolved" None None [] None None 0 0.

Definition metadata : ControlMetadata :=
  mkMetadata 1 "cis_1_5" (Some "in_progress") (Some 40%nat)
             (Some "follow up with infra team") (Some ["opened"]) None None.

(** Client 1 with an active AWS credential, scan 7 in progress, and
    the findings of an earlier scan 5. *)
Definition store : Db :=
  mkDb [mkClient 1 (Some ["CIS"])]
       [mkCredential 2 1 "aws" "{}" true]
       [mkCheck 5 1 ["CIS"; "HIPAA"] "completed" 2 1 1 0 0 0 (Some 10) None 0;
        mkCheck 7 1 ["CIS"] "in_progress" 0 0 0 0 0 0 None None 0]
       [oldFinding; otherFinding]
       []
       [metadata]
       100.

Definition creds : list CredentialRow := [mkCredential 2 1 "aws" "{}" true].

Definition failingControl : Control :=
  transformedControl "cis_1_5" Ex.occ_first.

Definition passingControl : Control :=
  transformedControl "cis_1_5" Ex.occ_second.

End ExScan.

Module ExRun.

(** A second scan of client 1 over CIS is submitted: scan 100. *)
Definition submitted : Submission * Db * nat :=
  postScan ExScan.steady (mkRequest 1 (Some ["CIS"])) ExScan.store 0.

Definition store : Db := snd (fst submitted).

(** Scan 7 runs, then scan 100. *)
Definition first : ScanState :=
  executeScan ExScan.steady ExScan.runtime ExScan.decrypt ExScan.engineUp 7 1 ["CIS"]
              ExScan.creds store 1.


(** Scan 7 over two frameworks on the slow clock: the budget is spent
    while the first benchmark runs. *)
Definition slowStart : ScanState :=
  beforePairs ExScan.slow 7 1 ["CIS"; "HIPAA"] ExScan.store 0.

Definition afterCis : ScanState :=
  stateOf (eachFramework ExScan.slow ExScan.runtime ExScan.engineUp 7 1 (ExScan.slow 0)
                         "{}" "aws" ["CIS"] (read slowStart)).

Definition slowRun : ScanState :=
  executeScan ExScan.slow ExScan.runtime ExScan.decrypt ExScan.engineUp 7 1
              ["CIS"; "HIPAA"] ExScan.creds ExScan.store 0.

(** Scan 7 with a second credential that cannot be decrypted. *)
Definition twoCreds : list CredentialRow :=
  [mkCredential 2 1 "aws" "{}" true; mkCredential 3 1 "aws" "broken" true].

Definition brokenRun : ScanState :=
  executeScan ExScan.steady ExScan.runtime ExScan.decryptSome ExScan.engineUp 7 1
              ["CIS"] twoCreds ExScan.store 0.

End ExRun.

Module ExRace.

(** Scan 7 over CIS on the slow clock, at the point where the engine has
    been invoked: both checkpoints passed within the budget. *)
Definition atEngine : ScanState :=
  read (read (beforePairs ExScan.slow 7 1 ["CIS"] ExScan.store 0)).

(** [GET /api/scans] served while the engine runs, past the budget. *)
Definition polled : list ComplianceCheck * Db * nat :=
  listScans ExScan.slow None None (db atEngine) (tick atEngine).

(** The engine's result arrives and its controls are written. *)
Definition resumed : ScanState :=
  runBenchmark ExScan.slow ExScan.runtime ExScan.engineUp 7 1
               (Named "aws_compliance.benchmark.cis_v140") "{}" "aws" "CIS"
               (with_db (snd (fst polled)) (snd polled) atEngine).

Definition finished : ScanState := finalizeScan ExScan.slow ExScan.runtime 7 resumed.

(** The same run with no request served in between. *)
Definition undisturbed : ScanState :=
  executeScan ExScan.slow ExScan.runtime ExScan.decrypt ExScan.engineUp 7 1 ["CIS"]
              ExScan.creds ExScan.store 0.

End ExRace.

Module ExMore.

(** A preamble, a small document and a trailer. *)
Definition document : string := "[{},[1,2]]".

Definition output : string := "A new version is available " ++ document ++ " done ".

Definition cis : string := "aws_compliance.benchmark.cis_v140".

(** What [runPowerpipeBenchmark] makes of [Ex.twice]. *)
Definition transformed : PowerpipeBenchmarkResult :=
  {| benchmark := cis;
     controls := allControls Ex.twice;
     summary := summarize (allControls Ex.twice);
     verification := verify cis (summarize (allControls Ex.twice)) |}.

(** Scan 7 of [ExScan.store] after a first benchmark. *)
Definition afterFirst : ScanState :=
  runBenchmark ExScan.steady ExScan.runtime ExScan.engineUp 7 1 (Named cis) "{}" "aws"
               "CIS" (initState ExScan.store 0).

End ExMore.

(* ================================================================== *)
(** * Text lemmas                                                      *)
(* ================================================================== *)

Module JsFacts.

Lemma append_assoc (a b c : string) : ((a ++ b) ++ c = a ++ (b ++ c))%string.
Proof. induction a as [|x a IH]; simpl; [reflexivity | now rewrite IH]. Qed.

Lemma prefix_app (s b : string) : String.prefix s (s ++ b) = true.
Proof.
  induction s as [|x s IH]; simpl.
  - destruct b; reflexivity.
  - destruct (ascii_dec x x) as [_|N]; [exact IH | now elim N].
Qed.

Lemma includes_prefix (s sub : string) :
  String.prefix sub s = true -> Js.includes s sub = true.
Proof. intros H. destruct s; cbn [Js.includes]; rewrite H; reflexivity. Qed.

Lemma includes_app (a sub b : string) : Js.includes (a ++ sub ++ b) sub = true.
Proof.
  induction a as [|x a IH].
  - change (Js.includes (sub ++ b) sub = true).
    apply includes_prefix, prefix_app.
  - change (Js.includes (String x (a ++ sub ++ b)) sub = true).
    cbn [Js.includes]. rewrite IH. apply orb_true_r.
Qed.

Lemma includes_contains (s sub : string) : contains s sub -> Js.includes s sub = true.
Proof. intros (a & b & ->). apply includes_app. Qed.



Lemma contains_left (s x y : string) : contains s (x ++ y) -> contains s x.
Proof.
  intros (a & b & ->). exists a, (y ++ b)%string. now rewrite append_assoc.
Qed.

Lemma truthy_nonempty (o : option string) :
  Js.truthy o = true <-> exists s, o = Some s /\ s <> "".
Proof.
  destruct o as [[|c r]|]; simpl; split; intros H.
  - discriminate H.
  - destruct H as (s & E & N). inversion E; subst. now elim N.
  - eexists; split; [reflexivity | discriminate].
  - reflexivity.
  - discriminate H.
  - destruct H as (s & E & _). discriminate E.
Qed.

Lemma orNull_keeps (o : option string) : o <> Some "" -> Js.orNull o = o.
Proof.
  destruct o as [[|c r]|]; intros N; [now elim N | reflexivity | reflexivity].
Qed.

End JsFacts.

(* ================================================================== *)
(** * The normalizer                                                   *)
(* ================================================================== *)

Module Normalizer.

(** Induction over the nesting of groups. *)
Lemma Item_nested_ind (P : Item -> Prop) :
  (forall controls groups,
      match groups with Some gs => Forall P gs | None => True end ->
      P (mkItem controls groups)) ->
  forall item, P item.
Proof.
  intros H. fix IH 1. intros [controls groups]. apply H.
  destruct groups as [gs|]; [|exact I].
  induction gs as [|g gs IHgs]; constructor; [apply IH | exact IHgs].
Qed.

(** [extractControls] is a left fold of the loop body over the
    depth-first traversal. *)
Lemma extract_flatten (item : Item) :
  forall m, extractControls item m = fold_left addControl (flatten item) m.
Proof.
  induction item as [controls groups IH] using Item_nested_ind. intros m.
  cbn [extractControls flatten]. rewrite fold_left_app.
  set (m1 := fold_left addControl match controls with Some cs => cs | None => [] end m).
  replace (match controls with Some cs => fold_left addControl cs m | None => m end)
    with m1 by (subst m1; destruct controls; reflexivity).
  clearbody m1. destruct groups as [gs|]; [|reflexivity].
  revert m1. induction IH as [|g gs Hg _ IHgs]; intros m1; [reflexivity|].
  rewrite fold_left_app, <- Hg. apply IHgs.
Qed.

Lemma map_get_set_same k v m : map_get k (map_set k v m) = Some v.
Proof.
  induction m as [|[k' v'] m IH]; simpl.
  - now rewrite String.eqb_refl.
  - destruct (String.eqb k k') eqn:E; simpl.
    + now rewrite String.eqb_refl.
    + now rewrite E.
Qed.

Lemma map_get_set_other k k' v m :
  k <> k' -> map_get k (map_set k' v m) = map_get k m.
Proof.
  intros N. induction m as [|[k2 v2] m IH]; simpl.
  - apply String.eqb_neq in N. now rewrite N.
  - destruct (String.eqb k' k2) eqn:E; simpl.
    + apply String.eqb_eq in E. subst k2.
      apply String.eqb_neq in N. now rewrite N.
    + destruct (String.eqb k k2); [reflexivity | exact IH].
Qed.

Lemma map_get_None_keys k m : map_get k m = None -> ~ In k (map fst m).
Proof.
  induction m as [|[k' v'] m IH]; simpl; [tauto|].
  destruct (String.eqb k k') eqn:E; [discriminate|].
  apply String.eqb_neq in E. intros H [->|Hin]; [now elim E | now apply IH].
Qed.

Lemma map_get_Some_keys k m [v] : map_get k m = Some v -> In k (map fst m).
Proof.
  induction m as [|[k' v'] m IH]; simpl; [discriminate|].
  destruct (String.eqb k k') eqn:E.
  - apply String.eqb_eq in E. intros _. left. now symmetry.
  - intros H. right. now apply IH.
Qed.

Lemma keys_set k v m :
  map fst (map_set k v m) =
  if map_has k m then map fst m else (map fst m ++ [k])%list.
Proof.
  unfold map_has. induction m as [|[k' v'] m IH]; simpl; [reflexivity|].
  destruct (String.eqb k k') eqn:E; simpl.
  - apply String.eqb_eq in E. now subst.
  - rewrite IH. now destruct (map_get k m).
Qed.

Lemma In_set kv k v m :
  In kv (map_set k v m) -> kv = (k, v) \/ In kv m.
Proof.
  induction m as [|[k' v'] m IH]; simpl.
  - intros [<-|[]]. now left.
  - destruct (String.eqb k k'); simpl; intros [<-|H]; auto.
    destruct (IH H); auto.
Qed.

Lemma wfMap_set k v m : control_id v = k -> wfMap m -> wfMap (map_set k v m).
Proof.
  intros Hk [Hnd Hall]. split.
  - rewrite keys_set. unfold map_has. destruct (map_get k m) eqn:G; [exact Hnd|].
    apply NoDup_app; [exact Hnd | repeat constructor; intros [] | ].
    intros x Hx [<-|[]]. now apply (map_get_None_keys k m G).
  - apply Forall_forall. intros kv Hin. apply In_set in Hin.
    destruct Hin as [->|Hin]; [exact Hk|].
    now apply (proj1 (Forall_forall _ _) Hall).
Qed.

Lemma wfMap_addControl m c : wfMap m -> wfMap (addControl m c).
Proof.
  intros H. unfold addControl.
  destruct (String.eqb _ ""); [exact H|].
  destruct (negb _ || _); [|exact H].
  now apply wfMap_set.
Qed.

Lemma wfMap_fold l : forall m, wfMap m -> wfMap (fold_left addControl l m).
Proof.
  induction l as [|c l IH]; intros m H; [exact H|].
  simpl. apply IH. now apply wfMap_addControl.
Qed.

Lemma wfMap_nil : wfMap [].
Proof. split; constructor. Qed.

(** In a well-formed map the records for a key are the one it maps to. *)
Lemma recordsFor_get k m :
  wfMap m ->
  recordsFor k (map_values m) =
  match map_get k m with Some v => [v] | None => [] end.
Proof.
  unfold recordsFor, map_values.
  induction m as [|[k' v'] m IH]; intros [Hnd Hall]; [reflexivity|].
  inversion Hnd as [|? ? Hnotin Hnd']. inversion Hall as [|? ? Hk Hall'].
  simpl in Hk, Hnotin. specialize (IH (conj Hnd' Hall')).
  simpl. rewrite Hk, (String.eqb_sym k' k).
  destruct (String.eqb k k') eqn:E; [|exact IH].
  apply String.eqb_eq in E. f_equal. rewrite IH.
  destruct (map_get k m) as [c|] eqn:G; [|reflexivity].
  exfalso. apply Hnotin. rewrite <- E. exact (map_get_Some_keys k m G).
Qed.

Lemma last_cons [A : Type] (a d : A) (l : list A) : last (a :: l) d = last l a.
Proof.
  revert a d. induction l as [|b l IH]; intros a d; [reflexivity|].
  change (last (a :: b :: l) d) with (last (b :: l) d).
  now rewrite !IH.
Qed.

(** What the fold leaves under key [k]: the record of the last populated
    occurrence met; failing that the record already there; failing that
    the record of the first occurrence. *)
Lemma fold_get k l :
  k <> "" ->
  forall m,
    map_get k (fold_left addControl l m) =
    match filter hasResults (occurrences k l) with
    | p :: ps => Some (transformedControl k (last ps p))
    | [] =>
        match map_get k m with
        | Some v => Some v
        | None => option_map (transformedControl k) (hd_error (occurrences k l))
        end
    end.
Proof.
  intros Hk. induction l as [|c l IH]; intros m.
  - simpl. now destruct (map_get k m).
  - cbn [fold_left]. rewrite IH. unfold occurrences. cbn [filter].
    fold (occurrences k l).
    destruct (String.eqb (idOf c) k) eqn:E.
    + apply String.eqb_eq in E.
      assert (Hadd : addControl m c =
                     if negb (map_has k m) || hasResults c
                     then map_set k (transformedControl k c) m else m).
      { unfold addControl. fold (idOf c). rewrite E.
        apply String.eqb_neq in Hk. now rewrite Hk. }
      rewrite Hadd. cbn [filter].
      destruct (hasResults c) eqn:R.
      * rewrite orb_true_r, map_get_set_same.
        destruct (filter hasResults (occurrences k l)) as [|p ps]; [reflexivity|].
        now rewrite last_cons.
      * rewrite orb_false_r. unfold map_has.
        destruct (filter hasResults (occurrences k l)) as [|p ps]; [|reflexivity].
        destruct (map_get k m) eqn:G; simpl.
        -- now rewrite G.
        -- now rewrite map_get_set_same.
    + assert (Hget : map_get k (addControl m c) = map_get k m).
      { unfold addControl. fold (idOf c).
        destruct (String.eqb (idOf c) ""); [reflexivity|].
        destruct (negb _ || _); [|reflexivity].
        apply map_get_set_other. apply String.eqb_neq in E. congruence. }
      now rewrite Hget.
Qed.

(** The record emitted for a control id. *)
Lemma records_kept result k :
  k <> "" ->
  recordsFor k (allControls result) =
  match kept (occurrences k (flatten result)) with
  | Some c => [transformedControl k c]
  | None => []
  end.
Proof.
  intros Hk. unfold allControls.
  rewrite recordsFor_get, extract_flatten, (fold_get k (flatten result) Hk).
  - unfold kept. simpl.
    destruct (filter hasResults _); [|reflexivity].
    now destruct (hd_error _).
  - rewrite extract_flatten. apply wfMap_fold, wfMap_nil.
Qed.

(** Every emitted record is the transform of an occurrence in the
    result, under that occurrence's id. *)
Lemma fold_origin l :
  forall m kv,
    In kv (fold_left addControl l m) ->
    In kv m \/
    exists c, In c l /\ idOf c = fst kv /\ fst kv <> ""
              /\ snd kv = transformedControl (fst kv) c.
Proof.
  induction l as [|c l IH]; intros m kv Hin; [now left|].
  simpl in Hin. apply IH in Hin. destruct Hin as [Hin|(c' & Hc' & H)].
  - unfold addControl in Hin. fold (idOf c) in Hin.
    destruct (String.eqb (idOf c) "") eqn:E; [now left|].
    destruct (negb _ || _); [|now left].
    apply In_set in Hin. destruct Hin as [->|Hin]; [|now left].
    right. exists c. simpl. apply String.eqb_neq in E. auto.
  - right. exists c'. simpl. auto.
Qed.

Lemma allControls_origin result t :
  In t (allControls result) ->
  exists c, In c (flatten result) /\ idOf c = control_id t
            /\ t = transformedControl (control_id t) c.
Proof.
  unfold allControls, map_values. intros Hin.
  apply in_map_iff in Hin. destruct Hin as ([k v] & <- & Hin).
  rewrite extract_flatten in Hin.
  pose proof (wfMap_fold (flatten result) [] wfMap_nil) as [_ Hall].
  pose proof (proj1 (Forall_forall _ _) Hall _ Hin) as Hid. simpl in Hid.
  apply fold_origin in Hin. destruct Hin as [[]|(c & Hc & Hidc & _ & Hv)].
  simpl in *. exists c. rewrite Hid. subst v. simpl. auto.
Qed.

End Normalizer.

(* ================================================================== *)
(** * Claims on the normalizer                                         *)
(* ================================================================== *)

Lemma kept_last_populated (occs ps : list RawControl) (p : RawControl) :
  filter hasResults occs = (ps ++ [p])%list -> kept occs = Some p.
Proof.
  unfold kept. intros ->. destruct ps as [|q ps]; [reflexivity|].
  simpl. f_equal. apply last_last.
Qed.

Lemma kept_first_unpopulated (occs : list RawControl) :
  filter hasResults occs = [] -> kept occs = hd_error occs.
Proof. unfold kept. now intros ->. Qed.

Lemma kept_is_occurrence (occs : list RawControl) (c : RawControl) :
  kept occs = Some c -> In c occs.
Proof.
  unfold kept. destruct (filter hasResults occs) as [|p ps] eqn:E.
  - destruct occs; simpl; [discriminate | intros [= ->]; now left].
  - intros [= <-].
    assert (H : In (last ps p) (p :: ps)).
    { clear E. revert p. induction ps as [|q ps IH]; intros p; [now left|].
      change (last (q :: ps) p) with (last (q :: ps) p).
      rewrite Normalizer.last_cons. right. apply IH. }
    rewrite <- E in H. now apply filter_In in H.
Qed.

(** Every emitted record is the transform of the kept occurrence of its
    control id. *)
Lemma allControls_kept (result : Item) (t : Control) :
  In t (allControls result) ->
  control_id t <> "" /\
  exists c, kept (occurrences (control_id t) (flatten result)) = Some c
            /\ t = transformedControl (control_id t) c.
Proof.
  intros Hin.
  assert (Hk : control_id t <> "").
  { unfold allControls, map_values in Hin.
    apply in_map_iff in Hin. destruct Hin as ([k v] & <- & Hin).
    rewrite Normalizer.extract_flatten in Hin.
    pose proof (Normalizer.wfMap_fold (flatten result) [] Normalizer.wfMap_nil) as [_ Hall].
    pose proof (proj1 (Forall_forall _ _) Hall _ Hin) as Hid. simpl in Hid.
    apply Normalizer.fold_origin in Hin.
    destruct Hin as [[]|(c & _ & _ & Hne & _)]. simpl in *. now rewrite Hid. }
  split; [exact Hk|].
  assert (Hrec : In t (recordsFor (control_id t) (allControls result))).
  { unfold recordsFor. apply filter_In. split; [exact Hin | apply String.eqb_refl]. }
  rewrite (Normalizer.records_kept result _ Hk) in Hrec.
  destruct (kept _) as [c|]; [|destruct Hrec].
  destruct Hrec as [<-|[]]. exists c. split; reflexivity.
Qed.

(** C1, what the code does: for a control id that occurs in the result,
    however many groups repeat it, the normalizer emits exactly one
    record, the transform of the kept occurrence; the occurrence the code
    keeps is the LAST one carrying a non-empty results array when some
    occurrence carries one, and the first occurrence when none does.  The
    source's comment and the specification both say that a stored record
    is replaced only for better data, which a populated record does not
    get from a later populated one. *)
Theorem C1_one_record_per_control (result : Item) (k : string) (c : RawControl) :
  k <> "" ->
  kept (occurrences k (flatten result)) = Some c ->
  recordsFor k (allControls result) = [transformedControl k c]
  /\ In c (occurrences k (flatten result))
  /\ (forall ps p,
         filter hasResults (occurrences k (flatten result)) = (ps ++ [p])%list ->
         c = p)
  /\ (filter hasResults (occurrences k (flatten result)) = [] ->
      hd_error (occurrences k (flatten result)) = Some c).
Proof.
  intros Hk Hc. repeat split.
  - now rewrite (Normalizer.records_kept result k Hk), Hc.
  - now apply kept_is_occurrence.
  - intros ps p E. apply kept_last_populated in E. congruence.
  - intros E. apply kept_first_unpopulated in E. congruence.
Qed.

Lemma C1_one_record_per_control_witness :
  "cis_1_5" <> ""
  /\ kept (occurrences "cis_1_5" (flatten Ex.twice)) = Some Ex.occ_second
  /\ recordsFor "cis_1_5" (allControls Ex.twice)
     = [transformedControl "cis_1_5" Ex.occ_second].
Proof.
  split; [discriminate|]. split; [reflexivity|].
  apply (C1_one_record_per_control Ex.twice "cis_1_5" Ex.occ_second);
    [discriminate | reflexivity].
Defined.

(** C1, the divergence: with two populated occurrences of one control id,
    the occurrence kept by the specification's wording is the first, and
    the record the code emits is not its transform. *)
Lemma C1_first_populated_not_kept :
  spec_kept (occurrences "cis_1_5" (flatten Ex.twice)) = Some Ex.occ_first
  /\ recordsFor "cis_1_5" (allControls Ex.twice)
     <> [transformedControl "cis_1_5" Ex.occ_first].
Proof. split; [reflexivity | discriminate]. Qed.

(** The priority order of the status derivation, on any summary. *)
Lemma deriveStatus_priority (c : RawControl) :
  let alarm := subCount s_alarm c in
  let err := subCount s_error c in
  let ok := subCount s_ok c in
  (0 < alarm -> deriveStatus (raw_summary c) = fail)
  /\ (alarm <= 0 -> 0 < err -> deriveStatus (raw_summary c) = error)
  /\ (alarm <= 0 -> err <= 0 -> 0 < ok -> deriveStatus (raw_summary c) = pass)
  /\ (alarm <= 0 -> err <= 0 -> ok <= 0 -> deriveStatus (raw_summary c) = skip).
Proof.
  unfold subCount, deriveStatus, Js.gt0.
  destruct (raw_summary c) as [[a e o i s]|]; simpl.
  - destruct a as [a|], e as [e|], o as [o|]; simpl;
      repeat match goal with
             | |- context [0 <? ?x] => destruct (Z.ltb_spec 0 x)
             end; repeat split; intros; try reflexivity; lia.
  - repeat split; intros; try reflexivity; lia.
Qed.

(** C6: the status of every normalized control follows the sub-counts of
    the occurrence it was built from: fail when the alarm count is
    positive, else error when the error count is positive, else pass when
    the ok count is positive, else skip; so a control with passing and
    failing sub-resources is a fail. *)
Theorem C6_status_derivation (result : Item) (t : Control) :
  In t (allControls result) ->
  exists c,
    kept (occurrences (control_id t) (flatten result)) = Some c
    /\ let alarm := subCount s_alarm c in
       let err := subCount s_error c in
       let ok := subCount s_ok c in
       (0 < alarm -> status t = fail)
       /\ (alarm <= 0 -> 0 < err -> status t = error)
       /\ (alarm <= 0 -> err <= 0 -> 0 < ok -> status t = pass)
       /\ (alarm <= 0 -> err <= 0 -> ok <= 0 -> status t = skip)
       /\ (0 < alarm -> 0 < ok -> status t = fail).
Proof.
  intros Hin. destruct (allControls_kept result t Hin) as (_ & c & Hc & Ht).
  exists c. split; [exact Hc|].
  destruct (deriveStatus_priority c) as (H1 & H2 & H3 & H4).
  rewrite Ht. cbn [status transformedControl]. cbv zeta. repeat split; auto.
Qed.

Lemma C6_status_derivation_witness :
  In (transformedControl "cis_1_5" Ex.occ_first) (allControls Ex.mixed)
  /\ 0 < subCount s_alarm Ex.occ_first
  /\ 0 < subCount s_ok Ex.occ_first
  /\ status (transformedControl "cis_1_5" Ex.occ_first) = fail.
Proof.
  assert (Hin : In (transformedControl "cis_1_5" Ex.occ_first) (allControls Ex.mixed))
    by (left; reflexivity).
  assert (Ha : 0 < subCount s_alarm Ex.occ_first) by reflexivity.
  assert (Ho : 0 < subCount s_ok Ex.occ_first) by reflexivity.
  destruct (C6_status_derivation Ex.mixed _ Hin) as (c & Hc & _ & _ & _ & _ & H).
  injection Hc as <-.
  exact (conj Hin (conj Ha (conj Ho (H Ha Ho)))).
Defined.

(** The four summaries of the specification. *)
Example status_alarm1_ok3 :
  deriveStatus (Some (mkControlSummary (Some 1) None (Some 3) None None)) = fail.
Proof. reflexivity. Qed.

Example status_error1_ok2 :
  deriveStatus (Some (mkControlSummary None (Some 1) (Some 2) None None)) = error.
Proof. reflexivity. Qed.

Example status_ok5 :
  deriveStatus (Some (mkControlSummary None None (Some 5) None None)) = pass.
Proof. reflexivity. Qed.

Example status_empty :
  deriveStatus (Some (mkControlSummary None None None None None)) = skip
  /\ deriveStatus None = skip.
Proof. split; reflexivity. Qed.






(* ================================================================== *)
(** * Claims on the coverage verification                              *)
(* ================================================================== *)

Module Verifier.

Lemma Qltb_lt (a b : Q) : Qltb a b = true <-> (a < b)%Q.
Proof.
  unfold Qltb. rewrite negb_true_iff. split.
  - intros H. apply Qnot_le_lt. intros Hle.
    apply Qle_bool_iff in Hle. congruence.
  - intros H. destruct (Qle_bool b a) eqn:E; [|reflexivity].
    apply Qle_bool_iff in E. exfalso. exact (Qlt_not_le _ _ H E).
Qed.

Lemma Qltb_ge (a b : Q) : Qltb a b = false <-> (b <= a)%Q.
Proof.
  unfold Qltb. rewrite negb_false_iff. apply Qle_bool_iff.
Qed.

Lemma prop_In (A : Type) (k : string) (o : list (string * A)) (v : A) :
  prop k o = Some v -> In (k, v) o.
Proof.
  induction o as [|[k' v'] o IH]; simpl; [discriminate|].
  destruct (String.eqb_spec k k') as [->|_].
  - intros [= ->]. now left.
  - intros H. right. now apply IH.
Qed.

(** Every range of the table has a positive minimum below its maximum. *)
Lemma tableRange_bounds (p f : string) (r : Range) :
  tableRange p f = Some r -> 0 < min r <= max r.
Proof.
  unfold tableRange.
  destruct (prop p EXPECTED_CONTROL_RANGES) as [byFramework|] eqn:Hp; [|discriminate].
  intros Hf. apply prop_In in Hp. apply prop_In in Hf.
  simpl in Hp. destruct Hp as [Hp|[Hp|[Hp|[]]]]; inversion Hp; subst; clear Hp;
    simpl in Hf;
    repeat (destruct Hf as [Hf|Hf]; [inversion Hf; simpl; lia|]);
    destruct Hf.
Qed.

Lemma expectedRange_bounds (benchmarkName : string) (r : Range) :
  expectedRange benchmarkName = Some r -> 0 < min r <= max r.
Proof.
  unfold expectedRange.
  destruct (frameworkKey benchmarkName) as [f|]; [|discriminate].
  destruct (providerKey benchmarkName) as [p|]; [|discriminate].
  apply tableRange_bounds.
Qed.

(** For a pair listed in the benchmark table, the lookup gives the
    listed name, and the range looked up from the name is the table's
    range for the pair. *)
Lemma expectedRange_of_pair (rt : Runtime) (fw prov : string)
    (providerMap : list (string * string)) (benchmarkName : string) :
  prop (Js.toLowerCase prov) FRAMEWORK_TO_BENCHMARK = Some providerMap ->
  prop fw providerMap = Some benchmarkName ->
  getBenchmarkName rt fw prov = Some (Named benchmarkName)
  /\ expectedRange benchmarkName = tableRange (Js.toLowerCase prov) fw
  /\ exists r, tableRange (Js.toLowerCase prov) fw = Some r.
Proof.
  intros Hp Hf. unfold getBenchmarkName. rewrite Hp, Hf.
  apply prop_In in Hp. apply prop_In in Hf.
  simpl in Hp. destruct Hp as [Hp|[Hp|[Hp|[]]]]; inversion Hp as [[Hprov Hmap]];
    subst providerMap; clear Hp; simpl in Hf;
    repeat (destruct Hf as [Hf|Hf];
            [inversion Hf; subst; split; [reflexivity|];
             split; [vm_compute; reflexivity | eexists; vm_compute; reflexivity]|]);
    destruct Hf.
Qed.

(** The exact thresholds of the model are the binary64 products of the
    source, for every range of the table. *)
Lemma binary64_thresholds_exact : forallb productsExact allRanges = true.
Proof. vm_compute. reflexivity. Qed.

Lemma countCheck_cases (T : nat) (r : Range) :
  0 < min r <= max r ->
  ((ofNat T < minThreshold r)%Q
   /\ countCheck T r = (false, [SignificantlyBelow T r]))
  \/ ((minThreshold r <= ofNat T)%Q /\ (ofNat T < inject_Z (min r))%Q
      /\ countCheck T r = (true, [SlightlyBelow T (min r)]))
  \/ ((inject_Z (min r) <= ofNat T)%Q /\ (maxThreshold r < ofNat T)%Q
      /\ countCheck T r = (true, [ExceedsMaximum T (max r)]))
  \/ ((inject_Z (min r) <= ofNat T)%Q /\ (ofNat T <= maxThreshold r)%Q
      /\ countCheck T r = (true, [])).
Proof.
  intros _. unfold countCheck.
  destruct (Qltb (ofNat T) (minThreshold r)) eqn:E1.
  - left. apply Qltb_lt in E1. auto.
  - apply Qltb_ge in E1. right.
    destruct (Qltb (ofNat T) (inject_Z (min r))) eqn:E2.
    + left. apply Qltb_lt in E2. auto.
    + apply Qltb_ge in E2. right.
      destruct (Qltb (maxThreshold r) (ofNat T)) eqn:E3.
      * left. apply Qltb_lt in E3. auto.
      * right. apply Qltb_ge in E3. auto.
Qed.

(** With [min <= max], a total above [1.2 max] is not below [min]. *)
Lemma above_max_not_below_min (T : nat) (r : Range) :
  0 < min r <= max r ->
  (maxThreshold r < ofNat T)%Q -> (inject_Z (min r) <= ofNat T)%Q.
Proof.
  unfold maxThreshold. intros [Hpos Hle] H.
  assert (Hq : (inject_Z (min r) <= inject_Z (max r))%Q) by (rewrite <- Zle_Qle; exact Hle).
  assert (H0 : (0 <= inject_Z (max r))%Q).
  { change 0%Q with (inject_Z 0). rewrite <- Zle_Qle. lia. }
  lra.
Qed.

End Verifier.

(** C8: with [T] the total control count and [min, max] the table's
    range for the benchmark's (provider, framework): the verdict is
    invalid, with the strong warning, exactly when [T < 0.8 min]; for
    [0.8 min <= T < min] the mild warning is pushed and the verdict stays
    valid; for [T > 1.2 max] the excess warning is pushed and the verdict
    stays valid; and without a table entry the verdict is valid and no
    count-based warning is pushed.  For a pair listed with the benchmark
    in the benchmark table, whose lookup gives the benchmark, the range
    found from the benchmark's name is the table's range of the pair. *)
Theorem C8_coverage_verdict (benchmarkName : string) (s : Summary) :
  let v := verify benchmarkName s in
  let T := total s in
  (forall rt fw prov providerMap,
      prop (Js.toLowerCase prov) FRAMEWORK_TO_BENCHMARK = Some providerMap ->
      prop fw providerMap = Some benchmarkName ->
      getBenchmarkName rt fw prov = Some (Named benchmarkName)
      /\ expectedRange benchmarkName = tableRange (Js.toLowerCase prov) fw)
  /\ (forall r,
         expectedRange benchmarkName = Some r ->
         (control_count_valid v = false <-> (ofNat T < inject_Z (min r) * (8 # 10))%Q)
         /\ ((ofNat T < inject_Z (min r) * (8 # 10))%Q ->
             In (SignificantlyBelow T r) (warnings v))
         /\ (In (SignificantlyBelow T r) (warnings v) ->
             (ofNat T < inject_Z (min r) * (8 # 10))%Q)
         /\ ((inject_Z (min r) * (8 # 10) <= ofNat T)%Q ->
             (ofNat T < inject_Z (min r))%Q ->
             In (SlightlyBelow T (min r)) (warnings v)
             /\ control_count_valid v = true)
         /\ ((inject_Z (max r) * (12 # 10) < ofNat T)%Q ->
             In (ExceedsMaximum T (max r)) (warnings v)
             /\ control_count_valid v = true))
  /\ (expectedRange benchmarkName = None ->
      control_count_valid v = true
      /\ forall w, In w (warnings v) -> countBased w = false).
Proof.
  cbv zeta. split; [|split].
  - intros rt fw prov providerMap Hp Hf.
    destruct (Verifier.expectedRange_of_pair rt fw prov providerMap benchmarkName Hp Hf)
      as (H1 & H2 & _).
    split; assumption.
  - intros r Hr.
    pose proof (Verifier.expectedRange_bounds benchmarkName r Hr) as Hb.
    pose proof (Verifier.above_max_not_below_min (total s) r Hb) as Habove.
    unfold verify. rewrite Hr.
    fold (minThreshold r). fold (maxThreshold r).
    assert (Hmin : (minThreshold r <= inject_Z (min r))%Q).
    { unfold minThreshold.
      assert (0 <= inject_Z (min r))%Q
        by (change 0%Q with (inject_Z 0); rewrite <- Zle_Qle; lia).
      lra. }
    assert (Hother : forall w,
               In w ((if (0 <? permission_errors s)%nat
                      then [PermissionErrors (permission_errors s)] else []) ++
                     (if Qltb (ofNat (total s) * (2 # 10)) (ofNat (errors s))
                      then [HighErrorRate (errors s) (total s)] else []))%list ->
               countBased w = true -> False).
    { intros w Hw. apply in_app_or in Hw.
      destruct (0 <? permission_errors s)%nat, (Qltb _ (ofNat (errors s)));
        simpl in Hw; intuition; subst; discriminate. }
    destruct (Verifier.countCheck_cases (total s) r Hb)
      as [(H1 & ->)|[(H1 & H2 & ->)|[(H1 & H2 & ->)|(H1 & H2 & ->)]]];
      cbn [control_count_valid warnings].
    + repeat split; intros; try (exact H1); try (now left); try discriminate;
        exfalso; lra.
    + repeat split; intros; try discriminate; try (now left); try (exfalso; lra).
      match goal with H : In _ _ |- _ => destruct H as [H|H]; [discriminate|] end.
      exfalso. eapply Hother; [eassumption | reflexivity].
    + repeat split; intros; try discriminate; try (now left); try (exfalso; lra).
      match goal with H : In _ _ |- _ => destruct H as [H|H]; [discriminate|] end.
      exfalso. eapply Hother; [eassumption | reflexivity].
    + repeat split; intros; try discriminate; try (exfalso; lra).
      simpl in *. exfalso. eapply Hother; [eassumption | reflexivity].
  - intros Hr. unfold verify. rewrite Hr. cbn [control_count_valid warnings].
    split; [reflexivity|]. intros w Hw. simpl in Hw. apply in_app_or in Hw.
    destruct (0 <? permission_errors s)%nat, (Qltb _ (ofNat (errors s)));
      simpl in Hw; intuition; subst; reflexivity.
Qed.

Lemma C8_coverage_verdict_witness :
  expectedRange "aws_compliance.benchmark.nist_800_53_rev_5" = Some (mkRange 200 400)
  /\ (ofNat 130 < inject_Z 200 * (8 # 10))%Q
  /\ control_count_valid
       (verify "aws_compliance.benchmark.nist_800_53_rev_5" (mkSummary 130 100 30 0 0 0))
     = false
  /\ In (SignificantlyBelow 130 (mkRange 200 400))
        (warnings (verify "aws_compliance.benchmark.nist_800_53_rev_5"
                          (mkSummary 130 100 30 0 0 0))).
Proof.
  assert (Hr : expectedRange "aws_compliance.benchmark.nist_800_53_rev_5"
               = Some (mkRange 200 400)) by reflexivity.
  assert (Hlt : (ofNat 130 < inject_Z 200 * (8 # 10))%Q) by reflexivity.
  destruct (C8_coverage_verdict "aws_compliance.benchmark.nist_800_53_rev_5"
                                (mkSummary 130 100 30 0 0 0))
    as (_ & H & _).
  destruct (H _ Hr) as (Hvalid & Hstrong & _).
  split; [exact Hr|]. split; [exact Hlt|].
  split; [apply Hvalid; exact Hlt | apply Hstrong; exact Hlt].
Defined.

(** The thresholds of the specification's example, on the range [200, 400]:
    130 is invalid, 170 valid with the mild warning, 250 has no warning. *)
Example coverage_130_170_250 :
  countCheck 130 (mkRange 200 400) = (false, [SignificantlyBelow 130 (mkRange 200 400)])
  /\ countCheck 170 (mkRange 200 400) = (true, [SlightlyBelow 170 200])
  /\ countCheck 250 (mkRange 200 400) = (true, []).
Proof. repeat split. Qed.

(* ================================================================== *)
(** * Further properties of the normalizer                             *)
(* ================================================================== *)

Module NormalizerMore.

Lemma firstSeen_snoc (l : list string) (k : string) :
  firstSeen (l ++ [k]) = if in_dec string_dec k l then firstSeen l
                         else (firstSeen l ++ [k])%list.
Proof.
  unfold firstSeen. rewrite rev_app_distr. cbn [rev app nodup].
  destruct (in_dec string_dec k (rev l)) as [Hin|Hnot];
    destruct (in_dec string_dec k l) as [Hin'|Hnot']; try reflexivity.
  - elim Hnot'. now apply in_rev.
  - elim Hnot. now apply in_rev in Hin'.
Qed.

Lemma firstSeen_In (l : list string) (k : string) : In k (firstSeen l) <-> In k l.
Proof.
  unfold firstSeen. rewrite <- in_rev, nodup_In. symmetry. apply in_rev.
Qed.

Lemma firstSeen_NoDup (l : list string) : NoDup (firstSeen l).
Proof. unfold firstSeen. apply NoDup_rev, NoDup_nodup. Qed.

Lemma firstSeen_length (l : list string) :
  (List.length (firstSeen l) <= List.length l)%nat.
Proof.
  unfold firstSeen. rewrite length_rev, <- (length_rev l).
  induction (rev l) as [|x r IH]; [reflexivity|].
  cbn [nodup]. destruct (in_dec string_dec x r); simpl; lia.
Qed.

Lemma nodup_same_length (l : list string) :
  List.length (nodup string_dec l) = List.length l -> NoDup l.
Proof.
  induction l as [|x l IH]; [constructor|].
  cbn [nodup]. destruct (in_dec string_dec x l) as [Hin|Hnot]; simpl; intros H.
  - assert (Hle : (List.length (nodup string_dec l) <= List.length l)%nat).
    { clear. induction l as [|y l IH]; [reflexivity|].
      cbn [nodup]. destruct (in_dec string_dec y l); simpl; lia. }
    lia.
  - constructor; [exact Hnot | apply IH; lia].
Qed.

Lemma firstSeen_same_length (l : list string) :
  List.length (firstSeen l) = List.length l <-> NoDup l.
Proof.
  unfold firstSeen. rewrite length_rev, <- (length_rev l). split.
  - intros H. apply nodup_same_length in H. apply NoDup_rev in H.
    now rewrite rev_involutive in H.
  - intros H. apply NoDup_rev in H. now rewrite (nodup_fixed_point string_dec H).
Qed.

Lemma map_has_keys (k : string) (m : ControlsMap) :
  map_has k m = true <-> In k (map fst m).
Proof.
  unfold map_has. destruct (map_get k m) as [v|] eqn:G.
  - split; [intros _; exact (Normalizer.map_get_Some_keys k m G) | reflexivity].
  - split; [discriminate | intros H; now elim (Normalizer.map_get_None_keys k m G)].
Qed.

Lemma keys_addControl (m : ControlsMap) (c : RawControl) :
  map fst (addControl m c)
  = if String.eqb (idOf c) "" then map fst m
    else if in_dec string_dec (idOf c) (map fst m) then map fst m
         else (map fst m ++ [idOf c])%list.
Proof.
  unfold addControl. fold (idOf c).
  destruct (String.eqb (idOf c) ""); [reflexivity|].
  destruct (in_dec string_dec (idOf c) (map fst m)) as [Hin|Hnot].
  - apply map_has_keys in Hin. rewrite Hin. cbn [negb orb].
    destruct (hasResults c); [|reflexivity].
    now rewrite Normalizer.keys_set, Hin.
  - assert (Hhas : map_has (idOf c) m = false).
    { destruct (map_has (idOf c) m) eqn:E; [|reflexivity].
      apply map_has_keys in E. now elim Hnot. }
    rewrite Hhas. cbn [negb orb]. now rewrite Normalizer.keys_set, Hhas.
Qed.

Lemma keys_fold (l : list RawControl) :
  map fst (fold_left addControl l [])
  = firstSeen (filter (fun k => negb (String.eqb k "")) (map idOf l)).
Proof.
  induction l as [|c l IH] using rev_ind; [reflexivity|].
  rewrite fold_left_app, map_app, filter_app. cbn [fold_left map filter].
  rewrite keys_addControl, IH.
  destruct (String.eqb (idOf c) "") eqn:E; cbn [negb].
  - now rewrite app_nil_r.
  - rewrite firstSeen_snoc.
    destruct (in_dec string_dec (idOf c) (firstSeen _)) as [Hin|Hnot];
      destruct (in_dec string_dec (idOf c) (filter _ _)) as [Hin'|Hnot'];
      try reflexivity.
    + elim Hnot'. now apply firstSeen_In.
    + elim Hnot. now apply firstSeen_In.
Qed.

Lemma values_keys (m : ControlsMap) :
  wfMap m -> map control_id (map_values m) = map fst m.
Proof.
  intros [_ Hall]. unfold map_values. rewrite map_map.
  induction Hall as [|kv m Hk _ IH]; [reflexivity|]. simpl. now rewrite Hk, IH.
Qed.

Lemma allControls_ids (result : Item) :
  map control_id (allControls result) = firstSeen (idsOf result).
Proof.
  unfold allControls, idsOf.
  rewrite values_keys, Normalizer.extract_flatten; [apply keys_fold|].
  rewrite Normalizer.extract_flatten.
  apply Normalizer.wfMap_fold, Normalizer.wfMap_nil.
Qed.

Lemma count_partition (cs : list Control) :
  List.length cs
  = (countStatus pass cs + countStatus fail cs + countStatus error cs
     + countStatus skip cs)%nat.
Proof.
  unfold countStatus. induction cs as [|c cs IH]; [reflexivity|].
  cbn [filter List.length]. destruct (status c); cbn [Status_eqb List.length]; lia.
Qed.

Lemma filter_length_le (A : Type) (p : A -> bool) (l : list A) :
  (List.length (filter p l) <= List.length l)%nat.
Proof. induction l as [|x l IH]; simpl; [lia|]. destruct (p x); simpl; lia. Qed.

Lemma verify_permission_issues (benchmarkName : string) (s : Summary) :
  permission_issues_detected (verify benchmarkName s)
  = (0 <? permission_errors s)%nat.
Proof.
  unfold verify. destruct (expectedRange benchmarkName) as [r0|]; [|reflexivity].
  now destruct (countCheck (total s) r0).
Qed.

End NormalizerMore.

(** What a transformed result is made of. *)
Lemma transformed_inv (benchmarkName : string) (out : EngineOutput)
    (r : PowerpipeBenchmarkResult) :
  runPowerpipeBenchmark benchmarkName out = Transformed r ->
  exists result raw,
    out = Parsed result raw
    /\ controls r = allControls result
    /\ controls r <> []
    /\ benchmark r = benchmarkName
    /\ summary r = summarize (controls r)
    /\ verification r = verify benchmarkName (summary r).
Proof.
  unfold runPowerpipeBenchmark. destruct out as [|result raw]; [discriminate|].
  destruct (allControls result) as [|t0 ts] eqn:E.
  - destruct (resultShaped raw); [discriminate|].
    destruct (truthyJ _); discriminate.
  - intros [= <-]. exists result, raw. cbn. rewrite E. repeat split. discriminate.
Qed.

Lemma transformed_ids (benchmarkName : string) (out : EngineOutput)
    (r : PowerpipeBenchmarkResult) :
  runPowerpipeBenchmark benchmarkName out = Transformed r ->
  NoDup (map control_id (controls r)).
Proof.
  intros H. destruct (transformed_inv _ _ _ H) as (result & raw & _ & -> & _).
  rewrite NormalizerMore.allControls_ids. apply NormalizerMore.firstSeen_NoDup.
Qed.
(* ================================================================== *)
(** * The columns of a finding and the metadata lookup                 *)
(* ================================================================== *)

Module StoreFacts.

Lemma varchar_fits (n : nat) (s : string) :
  (String.length s <= n)%nat -> varchar n s = Some s.
Proof.
  intros H. unfold varchar. apply Nat.leb_le in H. now rewrite H.
Qed.

Lemma varcharOpt_fits (n : nat) (o : option string) :
  (forall s, o = Some s -> (String.length s <= n)%nat) -> varcharOpt n o = Some o.
Proof.
  destruct o as [s|]; intros H; [|reflexivity].
  cbn [varcharOpt]. now rewrite varchar_fits by (now apply H).
Qed.

(** What [stored] keeps of a row. *)
Lemma stored_inv (f g : Finding) :
  stored f = Some g ->
  finding_id g = finding_id f
  /\ client_id g = client_id f
  /\ compliance_check_id g = compliance_check_id f
  /\ varchar 255 (f_control_id f) = Some (f_control_id g)
  /\ varchar 500 (control_title f) = Some (control_title g)
  /\ varchar 50 (framework f) = Some (framework g)
  /\ varchar 20 (scan_status f) = Some (scan_status g)
  /\ varchar 20 (remediation_status f) = Some (remediation_status g)
  /\ scan_reason g = scan_reason f
  /\ assigned_owner_id g = assigned_owner_id f
  /\ notes g = notes f
  /\ status_history g = status_history f
  /\ ai_business_context g = ai_business_context f
  /\ ai_remediation_guidance g = ai_remediation_guidance f.
Proof.
  unfold stored.
  destruct (varchar 255 _) as [a|]; [|discriminate].
  destruct (varchar 500 _) as [b|]; [|discriminate].
  destruct (varchar 50 _) as [c|]; [|discriminate].
  destruct (varcharOpt 100 (domain f)) as [d|]; [|discriminate].
  destruct (varcharOpt 100 (category f)) as [e|]; [|discriminate].
  destruct (varchar 20 (scan_status f)) as [h|]; [|discriminate].
  destruct (varchar 20 (remediation_status f)) as [i|]; [|discriminate].
  destruct (_ && _); [|discriminate].
  intros [= <-]. cbn. repeat split.
Qed.

Lemma insertFinding_inv (mk : uuid -> Finding) (d : Db) (id : uuid) (d' : Db) :
  insertFinding mk d = Some (id, d') ->
  exists f,
    stored (mk (next_id d)) = Some f
    /\ referenced f d = true
    /\ conflicts f d = false
    /\ id = next_id d
    /\ d' = with_next_id (S (next_id d)) (with_findings (findings d ++ [f]) d).
Proof.
  unfold insertFinding. destruct (stored _) as [f|] eqn:E; [|discriminate].
  destruct (referenced f d) eqn:R; [|discriminate].
  destruct (conflicts f d) eqn:C; [discriminate|].
  intros [= <- <-]. exists f. repeat split; assumption.
Qed.

Lemma referenced_iff (f : Finding) (d : Db) :
  referenced f d = true
  <-> (exists c, In c (clients d) /\ client_pk c = client_id f)
      /\ (exists k, In k (compliance_checks d) /\ check_id k = compliance_check_id f).
Proof.
  unfold referenced. rewrite andb_true_iff, !existsb_exists.
  split; intros [(c & Hc & Ec) (k & Hk & Ek)]; (split; [exists c | exists k]);
    split; auto; now apply Nat.eqb_eq.
Qed.

Lemma conflicts_false_iff (f : Finding) (d : Db) :
  conflicts f d = false
  <-> forall g, In g (findings d) ->
                compliance_check_id g = compliance_check_id f ->
                f_control_id g <> f_control_id f.
Proof.
  unfold conflicts. split.
  - intros H g Hg E1 E2.
    assert (Ht : existsb (fun g => (compliance_check_id g =? compliance_check_id f)%nat
                                   && String.eqb (f_control_id g) (f_control_id f))
                         (findings d) = true).
    { apply existsb_exists. exists g. split; [exact Hg|].
      rewrite E1, E2, Nat.eqb_refl, String.eqb_refl. reflexivity. }
    congruence.
  - intros H.
    destruct (existsb _ (findings d)) eqn:E; [|reflexivity].
    apply existsb_exists in E. destruct E as (g & Hg & E).
    apply andb_true_iff in E. destruct E as [E1 E2].
    apply Nat.eqb_eq in E1. apply String.eqb_eq in E2.
    now elim (H g Hg E1).
Qed.

(** The metadata row found for a key is a row of the table with that
    key; with one row per key, it is the row. *)
Lemma selectMetadata_In (client : uuid) (control : string) (d : Db) (md : ControlMetadata) :
  selectMetadata client control d = Some md ->
  In md (control_metadata d) /\ md_client_id md = client /\ md_control_id md = control.
Proof.
  unfold selectMetadata. intros H. apply find_some in H. destruct H as [Hin H].
  apply andb_true_iff in H. destruct H as [H1 H2].
  apply Nat.eqb_eq in H1. apply String.eqb_eq in H2. auto.
Qed.

Lemma selectMetadata_unique (d : Db) (md : ControlMetadata) :
  NoDup (map (fun m => (md_client_id m, md_control_id m)) (control_metadata d)) ->
  In md (control_metadata d) ->
  selectMetadata (md_client_id md) (md_control_id md) d = Some md.
Proof.
  unfold selectMetadata. induction (control_metadata d) as [|m l IH]; intros Hnd Hin.
  - destruct Hin.
  - cbn [map] in Hnd. inversion Hnd as [|x xs Hx Hnd']; subst. cbn [find].
    destruct Hin as [->|Hin].
    + now rewrite Nat.eqb_refl, String.eqb_refl.
    + destruct ((md_client_id m =? md_client_id md)%nat
                && String.eqb (md_control_id m) (md_control_id md)) eqn:E.
      * exfalso. apply andb_true_iff in E. destruct E as [E1 E2].
        apply Nat.eqb_eq in E1. apply String.eqb_eq in E2.
        apply Hx. rewrite E1, E2.
        apply (in_map (fun m => (md_client_id m, md_control_id m)) l md Hin).
      * now apply IH.
Qed.

Lemma selectMetadata_none (client : uuid) (control : string) (d : Db) :
  (forall md, In md (control_metadata d) ->
              md_client_id md = client -> md_control_id md <> control) ->
  selectMetadata client control d = None.
Proof.
  intros H. unfold selectMetadata.
  destruct (find _ (control_metadata d)) as [md|] eqn:E; [|reflexivity].
  apply find_some in E. destruct E as [Hin E].
  apply andb_true_iff in E. destruct E as [E1 E2].
  apply Nat.eqb_eq in E1. apply String.eqb_eq in E2. now elim (H md Hin E1).
Qed.

(** The domains given by [extractDomainFromControl] fit their column. *)
Lemma extractDomain_fits (k : string) :
  varcharOpt 100 (extractDomainFromControl k) = Some (extractDomainFromControl k)
  /\ noNulOpt (extractDomainFromControl k) = true.
Proof.
  unfold extractDomainFromControl.
  destruct (_ || _); [now split|].
  destruct (_ || _); [now split|].
  destruct (_ || _); [now split|].
  destruct (_ || _); now split.
Qed.

Lemma statusText_fits (st : Status) :
  varchar 20 (statusText st) = Some (statusText st) /\ noNul (statusText st) = true.
Proof. now destruct st. Qed.

Lemma remediationStatus_persisted (md : ControlMetadata) (rs : string) (st : Status) :
  md_remediation_status md = Some rs -> rs <> "" ->
  remediationStatus (Some md) st = match st with pass => "resolved" | _ => rs end.
Proof.
  intros H N. unfold remediationStatus. rewrite H.
  destruct rs as [|x rs]; [now elim N|]. now destruct st.
Qed.

Lemma remediationStatus_unset (md : ControlMetadata) (st : Status) :
  md_remediation_status md = None \/ md_remediation_status md = Some "" ->
  remediationStatus (Some md) st =
  match st with pass => "resolved" | fail | error | skip => "open" end.
Proof.
  intros [H|H]; unfold remediationStatus; rewrite H; now destruct st.
Qed.

Lemma remediationStatus_default (st : Status) :
  remediationStatus None st =
  match st with pass => "resolved" | fail | error | skip => "open" end.
Proof. now destruct st. Qed.

Lemma remediationStatus_fits (metadata : option ControlMetadata) (st : Status) :
  (forall md rs, metadata = Some md -> md_remediation_status md = Some rs ->
                 (String.length rs <= 20)%nat) ->
  varchar 20 (remediationStatus metadata st) = Some (remediationStatus metadata st).
Proof.
  intros H. unfold remediationStatus.
  destruct metadata as [md|]; [|now destruct st].
  destruct (md_remediation_status md) as [rs|] eqn:E; [|now destruct st].
  destruct (Js.truthy (Some rs)); [|now destruct st].
  destruct st; try reflexivity; apply varchar_fits; now apply (H md rs).
Qed.

Lemma noNul_orNull (o : option string) : noNulOpt o = true -> noNulOpt (Js.orNull o) = true.
Proof. unfold Js.orNull. now destruct (Js.truthy o). Qed.

(** The row of a control whose texts fit the columns is stored as it
    is. *)
Lemma stored_newFinding (client scan : uuid) (fw : string) (control : Control)
    (metadata : option ControlMetadata) (now : Z) (id : uuid) :
  fitsColumns control ->
  (String.length fw <= 50)%nat ->
  (forall md rs, metadata = Some md -> md_remediation_status md = Some rs ->
                 (String.length rs <= 20)%nat) ->
  stored (newFinding client scan fw control metadata now id)
  = Some (newFinding client scan fw control metadata now id).
Proof.
  intros (H1 & H2 & H3 & H4 & H5 & H6 & H7) Hfw Hmd.
  unfold stored.
  cbn [newFinding f_control_id control_title framework domain category scan_status
       remediation_status control_description scan_reason scan_resources finding_id
       client_id compliance_check_id assigned_owner_id notes status_history
       ai_business_context ai_remediation_guidance created_at updated_at].
  rewrite (varchar_fits 255 _ H1), (varchar_fits 500 _ H2), (varchar_fits 50 _ Hfw).
  rewrite (proj1 (extractDomain_fits (control_id control))).
  cbn [varcharOpt].
  rewrite (proj1 (statusText_fits (status control))).
  rewrite (remediationStatus_fits metadata (status control) Hmd).
  rewrite H3, H4, (proj2 (extractDomain_fits (control_id control))).
  rewrite (proj2 (statusText_fits (status control))).
  rewrite (noNul_orNull (Some (description control)) H5).
  rewrite (noNul_orNull (reason control) H6), H7.
  reflexivity.
Qed.

Lemma rowsExist_referenced (scan client : uuid) (d : Db) (f : Finding) :
  rowsExist scan client d ->
  client_id f = client -> compliance_check_id f = scan ->
  referenced f d = true.
Proof.
  intros [Hc Hk] E1 E2. apply referenced_iff. now rewrite E1, E2.
Qed.

End StoreFacts.

(* ================================================================== *)
(** * Claims on the metadata merge                                     *)
(* ================================================================== *)

(** C2: the finding written for a freshly normalized control, at any
    point of the loop over a result's controls.  The client and the scan
    have their rows, the control's texts and the framework's name fit
    the columns, the metadata table obeys its constraints, and the scan
    has no finding yet under the control's id: then the loop inserts one
    finding for the control and goes on, with the metadata untouched.
    For the metadata row of the table whose client and control id are
    the finding's, the finding has the row's owner, notes, status history
    and AI content (an empty text is stored as none, an absent history
    as the empty one); its remediation status is 'resolved' when the
    scan status is pass and otherwise the row's status, when the row has
    one; when the row's status is absent or empty, and when the table
    has no row for the client and the control id, it is 'resolved' for
    pass and 'open' for fail, error and skip. *)
Theorem C2_metadata_merge (clock : nat -> Z) (scan client : uuid) (fw : string)
    (control : Control) (rest : list Control) (s : ScanState) (pc : PairCounts) :
  rowsExist scan client (db s) ->
  fitsColumns control ->
  (String.length fw <= 50)%nat ->
  metadataKept (db s) ->
  (forall g, In g (findings (db s)) ->
             compliance_check_id g = scan -> f_control_id g <> control_id control) ->
  exists f s1,
    writeControls clock scan client fw (control :: rest) s pc
    = writeControls clock scan client fw rest s1 (countControl control pc)
    /\ findings (db s1) = (findings (db s) ++ [f])%list
    /\ control_metadata (db s1) = control_metadata (db s)
    /\ f_control_id f = control_id control
    /\ client_id f = client
    /\ compliance_check_id f = scan
    /\ framework f = fw
    /\ scan_status f = statusText (status control)
    /\ (forall md,
           In md (control_metadata (db s)) ->
           md_client_id md = client ->
           md_control_id md = control_id control ->
           assigned_owner_id f = md_assigned_owner_id md
           /\ notes f = Js.orNull (md_notes md)
           /\ (md_notes md <> Some "" -> notes f = md_notes md)
           /\ (forall h, md_status_history md = Some h -> status_history f = h)
           /\ (md_status_history md = None -> status_history f = [])
           /\ ai_business_context f = Js.orNull (md_ai_business_context md)
           /\ (md_ai_business_context md <> Some "" ->
               ai_business_context f = md_ai_business_context md)
           /\ ai_remediation_guidance f = Js.orNull (md_ai_remediation_guidance md)
           /\ (md_ai_remediation_guidance md <> Some "" ->
               ai_remediation_guidance f = md_ai_remediation_guidance md)
           /\ (forall rs,
                  md_remediation_status md = Some rs -> rs <> "" ->
                  remediation_status f =
                  match status control with pass => "resolved" | _ => rs end)
           /\ (md_remediation_status md = None \/ md_remediation_status md = Some "" ->
               remediation_status f =
               match status control with
               | pass => "resolved"
               | fail | error | skip => "open"
               end))
    /\ ((forall md, In md (control_metadata (db s)) ->
                    md_client_id md = client ->
                    md_control_id md <> control_id control) ->
        remediation_status f =
        match status control with
        | pass => "resolved"
        | fail | error | skip => "open"
        end
        /\ assigned_owner_id f = None
        /\ notes f = None
        /\ status_history f = []
        /\ ai_business_context f = None
        /\ ai_remediation_guidance f = None).
Proof.
  intros Hrows Hfit Hfw [Hnd Hlen] Hfree.
  set (f := newFinding client scan fw control
              (selectMetadata client (control_id control) (db s))
              (clock (tick s)) (next_id (db s))).
  assert (Hstored : stored f = Some f).
  { apply StoreFacts.stored_newFinding; auto.
    intros md rs Hmd Hrs. apply StoreFacts.selectMetadata_In in Hmd.
    destruct Hmd as (Hin & _ & _).
    exact (proj1 (Forall_forall _ _) Hlen md Hin rs Hrs). }
  assert (Href : referenced f (db s) = true)
    by (now apply (StoreFacts.rowsExist_referenced scan client)).
  assert (Hcon : conflicts f (db s) = false)
    by (apply StoreFacts.conflicts_false_iff; intros g Hg E; now apply Hfree).
  unfold writeControls. cbn [writeEach]. unfold insertFinding.
  fold f. rewrite Hstored, Href, Hcon. cbn [andb negb].
  exists f. eexists. split; [reflexivity|].
  cbn [db findings control_metadata with_next_id with_findings].
  do 7 (split; [reflexivity|]). split.
  - intros md Hin Hc Hk.
    assert (Hmd : selectMetadata client (control_id control) (db s) = Some md)
      by (rewrite <- Hc, <- Hk; now apply StoreFacts.selectMetadata_unique).
    subst f. rewrite Hmd.
    cbn [newFinding assigned_owner_id notes status_history ai_business_context
         ai_remediation_guidance remediation_status column].
    split; [reflexivity|]. split; [reflexivity|].
    split; [intros Hn; now apply JsFacts.orNull_keeps|].
    split; [intros h Hh; now rewrite Hh|].
    split; [intros Hh; now rewrite Hh|].
    split; [reflexivity|].
    split; [intros Hn; now apply JsFacts.orNull_keeps|].
    split; [reflexivity|].
    split; [intros Hn; now apply JsFacts.orNull_keeps|].
    split.
    + intros rs Hrs Hne. now apply StoreFacts.remediationStatus_persisted.
    + apply StoreFacts.remediationStatus_unset.
  - intros Hnone.
    assert (Hmd : selectMetadata client (control_id control) (db s) = None)
      by (now apply StoreFacts.selectMetadata_none).
    subst f. rewrite Hmd.
    cbn [newFinding assigned_owner_id notes status_history ai_business_context
         ai_remediation_guidance remediation_status column].
    split; [apply StoreFacts.remediationStatus_default|]. repeat split.
Qed.

(** Metadata survival: persisted notes and an in_progress status come
    back on a failing control. *)
Lemma C2_metadata_merge_witness :
  exists f,
    findings (db (fst (writeControls ExScan.steady 7 1 "CIS" [ExScan.failingControl]
                                     (initState ExScan.store 3) (mkCounts 0 0 0 0 0))))
    = (findings ExScan.store ++ [f])%list
    /\ notes f = Some "follow up with infra team"
    /\ remediation_status f = "in_progress".
Proof.
  assert (H1 : rowsExist 7 1 (db (initState ExScan.store 3))).
  { split; eexists.
    - split; [left; reflexivity | reflexivity].
    - split; [right; left; reflexivity | reflexivity]. }
  assert (H2 : fitsColumns ExScan.failingControl).
  { repeat split; try reflexivity; vm_compute; lia. }
  assert (H3 : (String.length "CIS" <= 50)%nat) by (vm_compute; lia).
  assert (H4 : metadataKept (db (initState ExScan.store 3))).
  { split.
    - repeat constructor. simpl. tauto.
    - constructor; [|constructor]. intros rs [= <-]. vm_compute. lia. }
  assert (H5 : forall g, In g (findings (db (initState ExScan.store 3))) ->
                         compliance_check_id g = 7%nat ->
                         f_control_id g <> control_id ExScan.failingControl).
  { intros g [<-|[<-|[]]]; discriminate. }
  destruct (C2_metadata_merge ExScan.steady 7 1 "CIS" ExScan.failingControl []
              (initState ExScan.store 3) (mkCounts 0 0 0 0 0) H1 H2 H3 H4 H5)
    as (f & s1 & Hrun & Hf & _ & _ & _ & _ & _ & _ & Hmd & _).
  exists f. rewrite Hrun. split; [exact Hf|].
  destruct (Hmd ExScan.metadata (or_introl eq_refl) eq_refl eq_refl)
    as (_ & _ & Hn & _ & _ & _ & _ & _ & _ & Hr & _).
  split; [apply Hn; discriminate | apply (Hr "in_progress" eq_refl); discriminate].
Defined.

(** The same control passing is resolved, whatever was persisted. *)
Example metadata_survival_pass :
  status ExScan.passingControl = pass
  /\ remediationStatus (Some ExScan.metadata) (status ExScan.passingControl) = "resolved"
  /\ remediationStatus (Some ExScan.metadata) (status ExScan.failingControl)
     = "in_progress".
Proof. repeat split. Qed.
(* ================================================================== *)
(** * The scan run: what each step leaves in the store                 *)
(* ================================================================== *)

Section ScanFacts.

Variable clock : nat -> Z.
Variable rt : Runtime.
Variable decryptCredentials : string -> option string.
Variable engine : nat -> string -> string -> string -> EngineOutput.
Variables (scan client : uuid) (frameworks : list string).

Local Abbreviation step := (step clock rt scan client frameworks).
Local Abbreviation runs := (runs clock rt scan client frameworks).

Lemma runs_one (a b : ScanState) : step a b -> runs a b.
Proof. intros H. eapply runs_step; [exact H | apply runs_refl]. Qed.

Lemma runs_trans (a b c : ScanState) : runs a b -> runs b c -> runs a c.
Proof.
  induction 1 as [s|s1 s2 s3 H12 _ IH]; intros H; [exact H|].
  eapply runs_step; [exact H12 | now apply IH].
Qed.

(** A relation that holds of every step holds of every run. *)
Lemma runs_rel (R : ScanState -> ScanState -> Prop) :
  (forall s, R s s) ->
  (forall a b c, R a b -> R b c -> R a c) ->
  (forall a b, step a b -> R a b) ->
  forall a b, runs a b -> R a b.
Proof.
  intros Hrefl Htrans Hstep a b H.
  induction H as [s|s1 s2 s3 H12 _ IH]; [apply Hrefl|].
  eapply Htrans; [apply Hstep; exact H12 | exact IH].
Qed.

(** ** The loop over the controls *)

Section Rows.

Context {A : Type}.
Variable row : A -> Db -> Z -> option (uuid -> Finding).
Variable count : A -> PairCounts -> PairCounts.
Variable fw : string.

Hypothesis row_own :
  forall control d now mk id,
    row control d now = Some mk ->
    client_id (mk id) = client /\ compliance_check_id (mk id) = scan
    /\ framework (mk id) = fw.

Hypothesis fw_listed : In fw frameworks.

Lemma writeEach_cons (control : A) (rest : list A) (s : ScanState) (pc : PairCounts) :
  (exists mk f,
      row control (db s) (clock (tick s)) = Some mk
      /\ stored (mk (next_id (db s))) = Some f
      /\ referenced f (db s) = true
      /\ conflicts f (db s) = false
      /\ writeEach clock row count (control :: rest) s pc
         = writeEach clock row count rest (inserted f s) (count control pc))
  \/ writeEach clock row count (control :: rest) s pc = (s, None).
Proof.
  cbn [writeEach].
  destruct (row control (db s) (clock (tick s))) as [mk|] eqn:Er; [|now right].
  destruct (insertFinding mk (db s)) as [[id d']|] eqn:Ei; [|now right].
  apply StoreFacts.insertFinding_inv in Ei.
  destruct Ei as (f & Hst & Href & Hcon & -> & ->).
  left. exists mk, f. repeat split; assumption.
Qed.

Lemma writeEach_runs (cs : list A) :
  forall s pc, runs s (fst (writeEach clock row count cs s pc)).
Proof.
  induction cs as [|control cs IH]; intros s pc; [apply runs_refl|].
  destruct (writeEach_cons control cs s pc)
    as [(mk & f & Er & Hst & Href & Hcon & ->)| ->]; [|apply runs_refl].
  eapply runs_step; [|apply IH].
  destruct (row_own control _ _ mk (next_id (db s)) Er) as (E1 & E2 & E3).
  destruct (StoreFacts.stored_inv _ _ Hst) as (_ & F1 & F2 & _ & _ & F3 & _).
  apply step_insert; try assumption; try congruence.
  exists fw. split; [exact fw_listed | now rewrite <- E3].
Qed.

(** The rows written are those of the first controls, in order; when
    the loop ends without an exception, of all the controls, and the
    counters are those of all the controls. *)
Lemma writeEach_written (R : A -> Finding -> Prop) :
  (forall control d now mk id f,
      row control d now = Some mk -> stored (mk id) = Some f -> R control f) ->
  forall cs s pc,
    exists new,
      findings (db (fst (writeEach clock row count cs s pc)))
      = (findings (db s) ++ new)%list
      /\ Forall2 R (firstn (List.length new) cs) new
      /\ match snd (writeEach clock row count cs s pc) with
         | Some pc' =>
             List.length new = List.length cs
             /\ pc' = fold_left (fun pc control => count control pc) cs pc
         | None => (List.length new < List.length cs)%nat
         end.
Proof.
  intros HR. induction cs as [|control cs IH]; intros s pc.
  - exists []. cbn. rewrite app_nil_r. repeat split. constructor.
  - destruct (writeEach_cons control cs s pc)
      as [(mk & f & Er & Hst & Href & Hcon & ->)| ->].
    + destruct (IH (inserted f s) (count control pc)) as (new & Hf & Hall & Hend).
      exists (f :: new). split; [|split].
      * rewrite Hf. cbn [inserted db findings with_next_id with_findings].
        now rewrite <- app_assoc.
      * cbn [List.length firstn]. constructor; [|exact Hall].
        exact (HR _ _ _ _ _ _ Er Hst).
      * destruct (snd (writeEach clock row count cs (inserted f s) (count control pc)))
          as [pc'|]; cbn [List.length fold_left].
        -- destruct Hend as [-> ->]. now split.
        -- lia.
    + exists []. cbn. rewrite app_nil_r. repeat split; [constructor | lia].
Qed.

Lemma writeEach_counters (cs : list A) :
  forall s pc,
    let s' := fst (writeEach clock row count cs s pc) in
    totalControls s' = totalControls s
    /\ passedControls s' = passedControls s
    /\ failedControls s' = failedControls s
    /\ errorControls s' = errorControls s
    /\ skipControls s' = skipControls s
    /\ verificationWarnings s' = verificationWarnings s
    /\ benchmarksRun s' = benchmarksRun s
    /\ benchmarksFailed s' = benchmarksFailed s
    /\ benchmarkErrors s' = benchmarkErrors s.
Proof.
  induction cs as [|control cs IH]; intros s pc; [cbn; now repeat split|].
  destruct (writeEach_cons control cs s pc)
    as [(mk & f & _ & _ & _ & _ & ->)| ->]; [|cbn; now repeat split].
  exact (IH (inserted f s) (count control pc)).
Qed.

End Rows.

Lemma newFinding_own (fw : string) (control : Control) (d : Db) (now : Z)
    (mk : uuid -> Finding) (id : uuid) :
  Some (newFinding client scan fw control
                   (selectMetadata client (control_id control) d) now) = Some mk ->
  client_id (mk id) = client /\ compliance_check_id (mk id) = scan
  /\ framework (mk id) = fw.
Proof. intros [= <-]. repeat split. Qed.

Lemma rawFinding_own (fw : string) (control : Json) (d : Db) (now : Z)
    (mk : uuid -> Finding) (id : uuid) :
  rawFinding rt client scan fw control d now = Some mk ->
  client_id (mk id) = client /\ compliance_check_id (mk id) = scan
  /\ framework (mk id) = fw.
Proof.
  unfold rawFinding.
  destruct control; try discriminate;
    (destruct (rawDomain rt _) as [dom|]; [|discriminate]);
    (destruct (toParam rt (member _ "control_id")) as [cid|]; [|discriminate]);
    (destruct (toParam rt (member _ "title")) as [ttl|]; [|discriminate]);
    (destruct (toParam rt (member _ "status")) as [st|]; [|discriminate]);
    intros [= <-]; repeat split.
Qed.

Lemma writeControls_runs (fw : string) (cs : list Control) (s : ScanState)
    (pc : PairCounts) :
  In fw frameworks ->
  runs s (fst (writeControls clock scan client fw cs s pc)).
Proof.
  intros Hfw. unfold writeControls. apply (writeEach_runs _ _ fw); [|exact Hfw].
  intros control d now mk id. apply newFinding_own.
Qed.

Lemma writeRaw_runs (fw : string) (cs : list Json) (s : ScanState) (pc : PairCounts) :
  In fw frameworks ->
  runs s (fst (writeRaw clock rt scan client fw cs s pc)).
Proof.
  intros Hfw. unfold writeRaw. apply (writeEach_runs _ _ fw); [|exact Hfw].
  intros control d now mk id. apply rawFinding_own.
Qed.

Lemma processResult_runs (b fw : string) (r : PowerpipeBenchmarkResult) (s : ScanState) :
  In fw frameworks ->
  runs s (processResult clock scan client b fw r s).
Proof.
  intros Hfw. unfold processResult.
  pose proof (writeControls_runs fw (controls r) s (mkCounts 0 0 0 0 0) Hfw) as H.
  destruct (writeControls _ _ _ _ _ _ _) as [s2 [pc|]]; cbn [fst] in H.
  - eapply runs_trans; [exact H|].
    eapply runs_step; [apply step_totals|]. apply runs_one, step_warnings.
  - eapply runs_trans; [exact H|]. apply runs_one, step_threw.
Qed.

Lemma processRaw_runs (b fw : string) (raw : Json) (s : ScanState) :
  In fw frameworks ->
  runs s (processRaw clock rt scan client b fw raw s).
Proof.
  intros Hfw. unfold processRaw.
  destruct (logged rt raw); [|apply runs_one, step_threw].
  destruct (member raw "controls") as [[| | | |cs|]|]; try (apply runs_one, step_threw).
  pose proof (writeRaw_runs fw cs s (mkCounts 0 0 0 0 0) Hfw) as H.
  destruct (writeRaw _ _ _ _ _ _ _ _) as [s2 [pc|]]; cbn [fst] in H.
  - eapply runs_trans; [exact H|].
    eapply runs_step; [apply step_totals|].
    destruct (truthyJ _); [|apply runs_refl].
    destruct (optMember _ _) as [[| | | |ws|]|]; try (apply runs_one, step_threw).
    destruct (forallb _ ws); apply runs_one; [apply step_warnings | apply step_threw].
  - eapply runs_trans; [exact H|]. apply runs_one, step_threw.
Qed.

Lemma runBenchmark_runs (b : BenchmarkName) (creds prov fw : string) (s : ScanState) :
  In fw frameworks ->
  runs s (runBenchmark clock rt engine scan client b creds prov fw s).
Proof.
  intros Hfw. unfold runBenchmark.
  eapply runs_step; [apply step_started|].
  destruct b as [name|text]; [|apply runs_one, step_threw].
  destruct (runPowerpipeBenchmark _ _) as [r|raw|raw|].
  - now apply processResult_runs.
  - now apply processRaw_runs.
  - apply runs_one, step_threw.
  - apply runs_one, step_threw.
Qed.

Lemma failScan_read_runs (s : ScanState) : runs s (failScan clock scan (read s)).
Proof. eapply runs_step; [apply step_read | apply runs_one, step_fail]. Qed.

(** The loops: a run of steps, which on [return] ends at a checkpoint
    where the budget is exceeded, or at a credential that cannot be
    decrypted, with the scan marked failed. *)
Lemma eachFramework_flow (start : Z) (creds prov : string) (fws : list string) :
  incl fws frameworks ->
  forall s,
    match eachFramework clock rt engine scan client start creds prov fws s with
    | Next s' => runs s s'
    | Return r =>
        exists s1,
          runs s s1 /\ timedOut clock start s1 = true
          /\ r = failScan clock scan (read s1)
    end.
Proof.
  induction fws as [|fw fws IH]; intros Hincl s; [apply runs_refl|].
  assert (Hfw : In fw frameworks) by (apply Hincl; now left).
  assert (Hrest : incl fws frameworks) by (intros x Hx; apply Hincl; now right).
  cbn [eachFramework].
  destruct (timedOut clock start s) eqn:HT.
  - exists s. split; [apply runs_refl | now split].
  - assert (Hpre : runs s
                     match getBenchmarkName rt fw prov with
                     | Some b => runBenchmark clock rt engine scan client b creds prov fw
                                              (read s)
                     | None => read s
                     end).
    { eapply runs_step; [apply step_read|].
      destruct (getBenchmarkName rt fw prov) as [b|];
        [now apply runBenchmark_runs | apply runs_refl]. }
    destruct (getBenchmarkName rt fw prov) as [b|].
    + specialize (IH Hrest (runBenchmark clock rt engine scan client b creds prov fw
                                         (read s))).
      destruct (eachFramework _ _ _ _ _ _ _ _ fws _) as [s'|r].
      * eapply runs_trans; eassumption.
      * destruct IH as (s1 & H1 & H2 & H3). exists s1.
        split; [eapply runs_trans; eassumption | now split].
    + specialize (IH Hrest (read s)).
      destruct (eachFramework _ _ _ _ _ _ _ _ fws _) as [s'|r].
      * eapply runs_trans; eassumption.
      * destruct IH as (s1 & H1 & H2 & H3). exists s1.
        split; [eapply runs_trans; eassumption | now split].
Qed.

Lemma eachCredential_flow (start : Z) (creds : list CredentialRow) :
  forall s,
    match eachCredential clock rt decryptCredentials engine scan client frameworks
                         start creds s with
    | Next s' => runs s s'
    | Return r =>
        exists s1,
          runs s s1
          /\ (timedOut clock start s1 = true
               \/ exists c, In c creds
                            /\ decryptCredentials (encrypted_credentials c) = None)
          /\ r = failScan clock scan (read s1)
    end.
Proof.
  induction creds as [|c creds IH]; intros s; [apply runs_refl|].
  cbn [eachCredential].
  destruct (timedOut clock start s) eqn:HT.
  { exists s. split; [apply runs_refl|]. split; [now left | reflexivity]. }
  destruct (decryptCredentials (encrypted_credentials c)) as [dc|] eqn:Hdc.
  2:{ exists s. split; [apply runs_refl|]. split; [|reflexivity].
      right. exists c. split; [now left | exact Hdc]. }
  pose proof (eachFramework_flow start dc (provider c) frameworks (incl_refl _) (read s))
    as H.
  destruct (eachFramework _ _ _ _ _ _ _ _ _ _) as [s'|r].
  - specialize (IH s').
    assert (Hs' : runs s s') by (eapply runs_step; [apply step_read | exact H]).
    destruct (eachCredential _ _ _ _ _ _ _ _ creds s') as [s''|r].
    + eapply runs_trans; eassumption.
    + destruct IH as (s1 & H1 & H2 & H3). exists s1.
      split; [eapply runs_trans; eassumption|]. split; [|exact H3].
      destruct H2 as [H2|(c' & Hin & Hc')]; [now left|].
      right. exists c'. split; [now right | exact Hc'].
  - destruct H as (s1 & H1 & H2 & H3). exists s1.
    split; [eapply runs_step; [apply step_read | exact H1]|]. split; [now left | exact H3].
Qed.

Lemma eachCredential_runs (start : Z) (creds : list CredentialRow) (s : ScanState) :
  runs s (stateOf (eachCredential clock rt decryptCredentials engine scan client
                                  frameworks start creds s)).
Proof.
  pose proof (eachCredential_flow start creds s) as H.
  destruct (eachCredential _ _ _ _ _ _ _ _ _ _) as [s'|r]; cbn [stateOf]; [exact H|].
  destruct H as (s1 & H1 & _ & ->).
  eapply runs_trans; [exact H1 | apply failScan_read_runs].
Qed.

Lemma finalizeScan_runs (s : ScanState) : runs s (finalizeScan clock rt scan s).
Proof.
  unfold finalizeScan.
  destruct (_ && _); [|destruct (_ =? _)%nat].
  - eapply runs_step; [apply step_fail | apply runs_one, step_fail].
  - eapply runs_step; [apply step_fail | apply runs_one, step_fail].
  - apply runs_one, step_complete.
Qed.

(** A run that begins is a run of steps from the state in which the old
    findings are archived. *)
Lemma executeScan_runs (creds : list CredentialRow) (d : Db) (t : nat) :
  timedOutBeforeStart clock scan (scanStart d t) = false ->
  runs (beforePairs clock scan client frameworks d t)
       (executeScan clock rt decryptCredentials engine scan client frameworks creds d t).
Proof.
  intros Hstart. unfold executeScan. rewrite Hstart. unfold scanPairs.
  pose proof (eachCredential_runs (clock t) creds
                (beforePairs clock scan client frameworks d t)) as H.
  destruct (eachCredential _ _ _ _ _ _ _ _ _ _) as [s'|s']; cbn [stateOf] in H.
  - eapply runs_trans; [exact H | apply finalizeScan_runs].
  - exact H.
Qed.

End ScanFacts.
(* ================================================================== *)
(** * What a run keeps                                                 *)
(* ================================================================== *)

Section RunInvariants.

Variable clock : nat -> Z.
Variable rt : Runtime.
Variable decryptCredentials : string -> option string.
Variable engine : nat -> string -> string -> string -> EngineOutput.
Variables (scan client : uuid) (frameworks : list string).

Local Abbreviation step := (step clock rt scan client frameworks).
Local Abbreviation runs := (runs clock rt scan client frameworks).

(** ** The scan's row *)

Lemma selectCheck_updateStatus (st : string) (now : Z) (d : Db) :
  selectCheck scan (updateStatus st now scan d)
  = option_map (setStatus st now) (selectCheck scan d).
Proof.
  unfold selectCheck, updateStatus. cbn [compliance_checks with_checks].
  induction (compliance_checks d) as [|c cs IH]; [reflexivity|].
  cbn [map find]. destruct (check_id c =? scan)%nat eqn:E.
  - cbn [setStatus check_id]. now rewrite E.
  - now rewrite E.
Qed.

Lemma failScan_status (s : ScanState) (row : ComplianceCheck) :
  selectCheck scan (db s) = Some row ->
  selectCheck scan (db (failScan clock scan s))
  = Some (setStatus "failed" (clock (tick s)) row).
Proof.
  intros H. unfold failScan. cbn [db with_db].
  now rewrite selectCheck_updateStatus, H.
Qed.

Lemma failScan_failed (s : ScanState) (row : ComplianceCheck) :
  selectCheck scan (db s) = Some row ->
  statusOf scan (db (failScan clock scan s)) = Some "failed".
Proof.
  intros H. unfold statusOf. now rewrite (failScan_status s row H).
Qed.

(** The final update, when the warnings can be stored. *)
Lemma completeScan_stored (s : ScanState) (row : ComplianceCheck) :
  forallb (warningStorable rt) (verificationWarnings s) = true ->
  selectCheck scan (db s) = Some row ->
  exists row',
    selectCheck scan (db (completeScan clock rt scan s)) = Some row'
    /\ sameScan row row'
    /\ completed_at row' <> None
    /\ check_status row' = "completed"
    /\ total_controls row' = totalControls s
    /\ passed_controls row' = passedControls s
    /\ failed_controls row' = failedControls s
    /\ error_controls row' = errorControls s
    /\ skip_controls row' = skipControls s
    /\ option_map vd_warnings (powerpipe_output row') = Some (verificationWarnings s)
    /\ option_map warning_count (powerpipe_output row')
       = Some (List.length (verificationWarnings s)).
Proof.
  intros Hw. unfold selectCheck, completeScan. rewrite Hw.
  cbn [db with_db compliance_checks with_checks].
  induction (compliance_checks (db s)) as [|c cs IH]; [discriminate|].
  cbn [map find]. destruct (check_id c =? scan)%nat eqn:E.
  - intros [= <-]. cbn [check_id]. rewrite E. eexists. split; [reflexivity|].
    repeat split. discriminate.
  - rewrite E. exact IH.
Qed.

Lemma completeScan_refused (s : ScanState) :
  forallb (warningStorable rt) (verificationWarnings s) = false ->
  completeScan clock rt scan s = failScan clock scan (read (read s)).
Proof. intros Hw. unfold completeScan. now rewrite Hw. Qed.

Lemma sameScan_refl (row : ComplianceCheck) : sameScan row row.
Proof. repeat split. Qed.

Lemma sameScan_trans (a b c : ComplianceCheck) :
  sameScan a b -> sameScan b c -> sameScan a c.
Proof.
  intros (H1 & H2 & H3 & H4) (K1 & K2 & K3 & K4). repeat split; congruence.
Qed.

(** The scan keeps its row, its client, its frameworks and its start
    time through every step. *)
Lemma step_row (a b : ScanState) (row : ComplianceCheck) :
  step a b ->
  selectCheck scan (db a) = Some row ->
  exists row', selectCheck scan (db b) = Some row' /\ sameScan row row'.
Proof.
  intros H Hrow.
  destruct H as [s|s f _ _ _ _ _|s n pc|s ws|s|s name|s|s];
    try (exists row; split; [exact Hrow | apply sameScan_refl]).
  - exists (setStatus "failed" (clock (tick s)) row).
    split; [now apply failScan_status | repeat split].
  - destruct (forallb (warningStorable rt) (verificationWarnings s)) eqn:Hw.
    + destruct (completeScan_stored s row Hw Hrow) as (row' & H1 & H2 & _).
      now exists row'.
    + rewrite (completeScan_refused s Hw).
      exists (setStatus "failed" (clock (tick (read (read s)))) row).
      split; [now apply failScan_status | repeat split].
Qed.

Lemma runs_row (a b : ScanState) (row : ComplianceCheck) :
  runs a b ->
  selectCheck scan (db a) = Some row ->
  exists row', selectCheck scan (db b) = Some row' /\ sameScan row row'.
Proof.
  intros H. revert row.
  induction H as [s|s1 s2 s3 H12 _ IH]; intros row Hrow.
  - exists row. split; [exact Hrow | apply sameScan_refl].
  - destruct (step_row s1 s2 row H12 Hrow) as (r2 & Hr2 & Hs2).
    destruct (IH r2 Hr2) as (r3 & Hr3 & Hs3).
    exists r3. split; [exact Hr3 | eapply sameScan_trans; eassumption].
Qed.

(** ** The other rows *)

Lemma othersKept_refl (d : Db) : othersKept scan d d.
Proof.
  repeat split. induction (compliance_checks d); constructor; auto.
Qed.

Lemma othersKept_same (d d' : Db) :
  clients d' = clients d -> credentials d' = credentials d ->
  control_metadata d' = control_metadata d ->
  compliance_checks d' = compliance_checks d ->
  othersKept scan d d'.
Proof.
  intros Hc Hk Hm Hrows. repeat split; auto. rewrite Hrows. clear.
  induction (compliance_checks d); constructor; auto.
Qed.

Lemma othersKept_trans [d1 d2 d3 : Db] :
  othersKept scan d1 d2 -> othersKept scan d2 d3 -> othersKept scan d1 d3.
Proof.
  intros (Hc1 & Hk1 & Hm1 & H1) (Hc2 & Hk2 & Hm2 & H2).
  split; [congruence|]. split; [congruence|]. split; [congruence|].
  revert H2. generalize (compliance_checks d3).
  induction H1 as [|a b l1 l2 [Hid Hsame] _ IH]; intros l3 H2;
    inversion H2 as [|b' c' l2' l3' [Hid' Hsame'] Hrest]; subst; constructor.
  - split; [congruence|]. intros Hne. rewrite Hsame', (Hsame Hne); congruence.
  - now apply IH.
Qed.

Lemma othersKept_checks (d d' : Db)
    (f : ComplianceCheck -> ComplianceCheck) :
  (forall c, check_id (f c) = check_id c) ->
  clients d' = clients d -> credentials d' = credentials d ->
  control_metadata d' = control_metadata d ->
  compliance_checks d'
  = map (fun c => if (check_id c =? scan)%nat then f c else c) (compliance_checks d) ->
  othersKept scan d d'.
Proof.
  intros Hf Hc Hk Hm Hrows. repeat split; auto. rewrite Hrows. clear Hrows.
  induction (compliance_checks d) as [|c cs IH]; [constructor|].
  constructor; [|exact IH].
  destruct (Nat.eqb_spec (check_id c) scan) as [E|E]; split; auto.
  intros Hne. now elim Hne.
Qed.

Lemma failScan_others (s : ScanState) :
  othersKept scan (db s) (db (failScan clock scan s)).
Proof.
  apply (othersKept_checks (db s) _ (setStatus "failed" (clock (tick s))));
    reflexivity.
Qed.

Lemma completeScan_others (s : ScanState) :
  othersKept scan (db s) (db (completeScan clock rt scan s)).
Proof.
  unfold completeScan.
  destruct (forallb (warningStorable rt) (verificationWarnings s)).
  - cbn [db with_db].
    eapply (othersKept_checks (db s) _
              (fun c => mkCheck (check_id c) (check_client_id c) (check_frameworks c)
                                "completed" (totalControls s) (passedControls s)
                                (failedControls s) (errorControls s) (skipControls s)
                                (started_at c) (Some (clock (S (tick s))))
                                (Some (mkVerificationData
                                         (verificationWarnings s)
                                         (List.length (verificationWarnings s))
                                         (clock (tick s))))
                                (check_created_at c)));
      reflexivity.
  - apply (failScan_others (read (read s))).
Qed.

Lemma step_others (a b : ScanState) : step a b -> othersKept scan (db a) (db b).
Proof.
  intros H.
  destruct H as [s|s f _ _ _ _ _|s n pc|s ws|s|s name|s|s];
    try (apply othersKept_same; reflexivity).
  - apply failScan_others.
  - apply completeScan_others.
Qed.

Lemma runs_others (a b : ScanState) : runs a b -> othersKept scan (db a) (db b).
Proof.
  apply (runs_rel clock rt scan client frameworks
                  (fun a b => othersKept scan (db a) (db b))).
  - intros s. apply othersKept_refl.
  - intros x y z. apply othersKept_trans.
  - apply step_others.
Qed.

Lemma beforePairs_others (d : Db) (t : nat) :
  othersKept scan d (db (beforePairs clock scan client frameworks d t)).
Proof.
  unfold beforePairs. destruct (selectCheck scan d);
    apply othersKept_same; reflexivity.
Qed.

Lemma beforePairs_checks (d : Db) (t : nat) :
  compliance_checks (db (beforePairs clock scan client frameworks d t))
  = compliance_checks d.
Proof.
  unfold beforePairs. now destruct (selectCheck scan d).
Qed.

Lemma executeScan_others (creds : list CredentialRow) (d : Db) (t : nat) :
  othersKept scan d
    (db (executeScan clock rt decryptCredentials engine scan client frameworks
                     creds d t)).
Proof.
  destruct (timedOutBeforeStart clock scan (scanStart d t)) eqn:HT.
  - unfold executeScan. rewrite HT. apply (failScan_others (read (scanStart d t))).
  - eapply othersKept_trans; [apply beforePairs_others|].
    apply runs_others. now apply executeScan_runs.
Qed.

Lemma othersKept_select [d d' : Db] (id : uuid) :
  othersKept scan d d' -> id <> scan -> selectCheck id d' = selectCheck id d.
Proof.
  intros (_ & _ & _ & H) Hne. unfold selectCheck.
  induction H as [|c c' l l' [Hid Hsame] _ IH]; [reflexivity|].
  cbn [find]. rewrite Hid.
  destruct (Nat.eqb_spec (check_id c) id) as [E|E]; [|exact IH].
  rewrite Hsame; [reflexivity | congruence].
Qed.

Lemma othersKept_ids [d d' : Db] :
  othersKept scan d d' ->
  map check_id (compliance_checks d') = map check_id (compliance_checks d).
Proof.
  intros (_ & _ & _ & H).
  induction H as [|c c' l l' [Hid _] _ IH]; [reflexivity|].
  cbn [map]. now rewrite Hid, IH.
Qed.

Lemma othersKept_rowsExist [d d' : Db] :
  othersKept scan d d' -> rowsExist scan client d -> rowsExist scan client d'.
Proof.
  intros H [Hc (k & Hk & Ek)]. pose proof H as (Hcl & _ & _ & Hrows).
  split; [now rewrite Hcl|].
  clear - Hrows Hk Ek. induction Hrows as [|a b l l' [Hid _] _ IH]; [destruct Hk|].
  destruct Hk as [->|Hk].
  - exists b. split; [now left | congruence].
  - destruct (IH Hk) as (k' & Hk' & Ek'). exists k'. split; [now right | exact Ek'].
Qed.

(** ** The findings *)

Lemma extends_refl (d : Db) : extends scan client frameworks d d.
Proof.
  repeat split. exists []. split; [now rewrite app_nil_r | constructor].
Qed.

Lemma extends_trans (d1 d2 d3 : Db) :
  extends scan client frameworks d1 d2 -> extends scan client frameworks d2 d3 ->
  extends scan client frameworks d1 d3.
Proof.
  intros (Hh1 & Hm1 & n1 & Hf1 & Hn1) (Hh2 & Hm2 & n2 & Hf2 & Hn2).
  split; [congruence|]. split; [congruence|].
  exists (n1 ++ n2)%list. split.
  - now rewrite Hf2, Hf1, app_assoc.
  - apply Forall_app. now split.
Qed.

Lemma extends_same (d d' : Db) :
  findings_history d' = findings_history d ->
  control_metadata d' = control_metadata d ->
  findings d' = findings d ->
  extends scan client frameworks d d'.
Proof.
  intros H1 H2 H3. repeat split; auto. exists [].
  split; [now rewrite app_nil_r | constructor].
Qed.

Lemma failScan_extends (s : ScanState) :
  extends scan client frameworks (db s) (db (failScan clock scan s)).
Proof. apply extends_same; reflexivity. Qed.

Lemma step_extends (a b : ScanState) :
  step a b -> extends scan client frameworks (db a) (db b).
Proof.
  intros H.
  destruct H as [s|s f H1 H2 H3 _ _|s n pc|s ws|s|s name|s|s];
    try (apply extends_same; reflexivity).
  - repeat split. exists [f]. split; [reflexivity|].
    constructor; [|constructor]. repeat split; assumption.
  - unfold completeScan. destruct (forallb _ _); apply extends_same; reflexivity.
Qed.

Lemma runs_extends (a b : ScanState) :
  runs a b -> extends scan client frameworks (db a) (db b).
Proof.
  apply (runs_rel clock rt scan client frameworks
                  (fun a b => extends scan client frameworks (db a) (db b))).
  - intros s. apply extends_refl.
  - intros x y z. apply extends_trans.
  - apply step_extends.
Qed.

(** With framework names that fit their column, the rows of the scan
    carry a framework of the list. *)
Lemma ownRow_writtenBy (f : Finding) :
  namesFit frameworks ->
  ownRow scan client frameworks f -> writtenBy scan client frameworks f.
Proof.
  intros Hfit (H1 & H2 & fw & Hin & Hfw).
  split; [exact H1|]. split; [exact H2|].
  rewrite StoreFacts.varchar_fits in Hfw
    by exact (proj1 (Forall_forall _ _) Hfit fw Hin).
  injection Hfw as <-. exact Hin.
Qed.

Lemma extends_grows (d d' : Db) :
  namesFit frameworks ->
  extends scan client frameworks d d' -> grows scan client frameworks d d'.
Proof.
  intros Hfit (Hh & Hm & new & Hf & Hnew).
  split; [exact Hh|]. split; [exact Hm|]. exists new. split; [exact Hf|].
  eapply Forall_impl; [|exact Hnew]. intros f. now apply ownRow_writtenBy.
Qed.

(** ** The last step of a run *)

(** A run ends in marking the scan failed, or in the final update after
    loops that ended without [return] and with a benchmark that did not
    fail. *)
Lemma executeScan_last (creds : list CredentialRow) (d : Db) (t : nat) :
  let run := executeScan clock rt decryptCredentials engine scan client frameworks
                         creds d t in
  exists x,
    (compliance_checks (db x) = compliance_checks d
     \/ (timedOutBeforeStart clock scan (scanStart d t) = false
         /\ runs (beforePairs clock scan client frameworks d t) x))
    /\ (run = failScan clock scan x
        \/ (run = completeScan clock rt scan x
            /\ timedOutBeforeStart clock scan (scanStart d t) = false
            /\ scanPairs clock rt decryptCredentials engine scan client frameworks
                         creds d t = Next x
            /\ benchmarksFailed x <> benchmarksRun x
            /\ benchmarksRun x <> 0%nat)).
Proof.
  cbv zeta. unfold executeScan.
  destruct (timedOutBeforeStart clock scan (scanStart d t)) eqn:HT.
  - exists (read (scanStart d t)). split; [now left | now left].
  - unfold scanPairs.
    pose proof (eachCredential_flow clock rt decryptCredentials engine scan client
                  frameworks (clock t) creds
                  (beforePairs clock scan client frameworks d t)) as H.
    destruct (eachCredential _ _ _ _ _ _ _ _ _ _) as [s1|r].
    + unfold finalizeScan.
      destruct (Nat.ltb_spec 0 (benchmarksRun s1)) as [E1|E1],
               (Nat.eqb_spec (benchmarksFailed s1) (benchmarksRun s1)) as [E2|E2],
               (Nat.eqb_spec (benchmarksRun s1) 0) as [E3|E3]; cbn [andb];
        try (exists (failScan clock scan s1);
             split; [right; split; [reflexivity|];
                     eapply runs_trans; [exact H | apply runs_one, step_fail]
                    | now left]);
        try lia.
      exists s1. split; [right; now split|]. right. repeat split; auto.
    + destruct H as (s1 & H1 & _ & ->). exists (read s1).
      split; [|now left]. right. split; [reflexivity|].
      eapply runs_trans; [exact H1 | apply runs_one, step_read].
Qed.

(** The scan's row at the end of a run: the row it was, failed or
    completed; completed only after loops that ended without [return],
    with the totals and warnings of their last state. *)
Lemma executeScan_row (creds : list CredentialRow) (d : Db) (t : nat)
    (row : ComplianceCheck) :
  selectCheck scan d = Some row ->
  exists row',
    selectCheck scan
      (db (executeScan clock rt decryptCredentials engine scan client frameworks
                       creds d t))
    = Some row'
    /\ sameScan row row'
    /\ completed_at row' <> None
    /\ (check_status row' = "failed"
        \/ (check_status row' = "completed"
            /\ timedOutBeforeStart clock scan (scanStart d t) = false
            /\ exists s1,
                scanPairs clock rt decryptCredentials engine scan client frameworks
                          creds d t = Next s1
                /\ benchmarksFailed s1 <> benchmarksRun s1
                /\ benchmarksRun s1 <> 0%nat
                /\ total_controls row' = totalControls s1
                /\ passed_controls row' = passedControls s1
                /\ failed_controls row' = failedControls s1
                /\ error_controls row' = errorControls s1
                /\ skip_controls row' = skipControls s1
                /\ option_map vd_warnings (powerpipe_output row')
                   = Some (verificationWarnings s1))).
Proof.
  intros Hrow.
  destruct (executeScan_last creds d t) as (x & Hx & Hend). cbv zeta in Hend.
  assert (Hxrow : exists rx, selectCheck scan (db x) = Some rx /\ sameScan row rx).
  { destruct Hx as [Hx|[_ Hx]].
    - exists row. split; [|apply sameScan_refl]. unfold selectCheck in *. now rewrite Hx.
    - apply (runs_row _ _ row Hx). unfold selectCheck in *.
      now rewrite beforePairs_checks. }
  destruct Hxrow as (rx & Hrx & Hsame).
  assert (Hfail : forall y ry,
             selectCheck scan (db y) = Some ry -> sameScan row ry ->
             exists row',
               selectCheck scan (db (failScan clock scan y)) = Some row'
               /\ sameScan row row' /\ completed_at row' <> None
               /\ check_status row' = "failed").
  { intros y ry Hy Hs. exists (setStatus "failed" (clock (tick y)) ry).
    split; [now apply failScan_status|]. split; [|split; [discriminate | reflexivity]].
    eapply sameScan_trans; [exact Hs | repeat split]. }
  destruct Hend as [->|(-> & HT & Hpairs & Hne & Hrun)].
  - destruct (Hfail x rx Hrx Hsame) as (row' & H1 & H2 & H3 & H4).
    exists row'. auto.
  - destruct (forallb (warningStorable rt) (verificationWarnings x)) eqn:Hw.
    + destruct (completeScan_stored x rx Hw Hrx)
        as (row' & H1 & H2 & H3 & H4 & H5 & H6 & H7 & H8 & H9 & H10 & _).
      exists row'. split; [exact H1|].
      split; [eapply sameScan_trans; eassumption|]. split; [exact H3|].
      right. split; [exact H4|]. split; [exact HT|]. exists x. repeat split; auto.
    + rewrite (completeScan_refused x Hw).
      destruct (Hfail (read (read x)) rx Hrx Hsame) as (row' & H1 & H2 & H3 & H4).
      exists row'. auto.
Qed.

End RunInvariants.
(* ================================================================== *)
(** * A benchmark whose controls are all written                       *)
(* ================================================================== *)

Section WriteFacts.

Variable clock : nat -> Z.
Variables (scan client : uuid) (fw : string).

Lemma writeControls_one (control : Control) (rest : list Control) (s : ScanState)
    (pc : PairCounts) :
  rowsExist scan client (db s) ->
  fitsColumns control ->
  (String.length fw <= 50)%nat ->
  metadataKept (db s) ->
  (forall g, In g (findings (db s)) ->
             compliance_check_id g = scan -> f_control_id g <> control_id control) ->
  writeControls clock scan client fw (control :: rest) s pc
  = writeControls clock scan client fw rest
      (inserted (newFinding client scan fw control
                            (selectMetadata client (control_id control) (db s))
                            (clock (tick s)) (next_id (db s))) s)
      (countControl control pc).
Proof.
  intros Hrows Hfit Hfw [Hnd Hlen] Hfree.
  set (f := newFinding client scan fw control
              (selectMetadata client (control_id control) (db s))
              (clock (tick s)) (next_id (db s))).
  assert (Hstored : stored f = Some f).
  { apply StoreFacts.stored_newFinding; auto.
    intros md rs Hmd Hrs. apply StoreFacts.selectMetadata_In in Hmd.
    destruct Hmd as (Hin & _ & _).
    exact (proj1 (Forall_forall _ _) Hlen md Hin rs Hrs). }
  assert (Href : referenced f (db s) = true)
    by (now apply (StoreFacts.rowsExist_referenced scan client)).
  assert (Hcon : conflicts f (db s) = false)
    by (apply StoreFacts.conflicts_false_iff; intros g Hg E; now apply Hfree).
  unfold writeControls. cbn [writeEach]. unfold insertFinding.
  fold f. rewrite Hstored, Href, Hcon. reflexivity.
Qed.

Lemma newFinding_writtenFor (control : Control) (metadata : option ControlMetadata)
    (now : Z) (id : uuid) :
  writtenFor scan client fw control (newFinding client scan fw control metadata now id).
Proof. repeat split. Qed.

(** With rows for the client and the scan, texts that fit the columns,
    distinct control ids and no finding of the scan yet under any of
    them, the loop writes one finding per control. *)
Lemma writeControls_all (cs : list Control) :
  forall s pc,
    rowsExist scan client (db s) ->
    (String.length fw <= 50)%nat ->
    Forall fitsColumns cs ->
    NoDup (map control_id cs) ->
    metadataKept (db s) ->
    (forall g, In g (findings (db s)) ->
               compliance_check_id g = scan -> ~ In (f_control_id g) (map control_id cs)) ->
    exists s' new,
      writeControls clock scan client fw cs s pc = (s', Some (recount cs pc))
      /\ findings (db s') = (findings (db s) ++ new)%list
      /\ Forall2 (writtenFor scan client fw) cs new.
Proof.
  induction cs as [|control cs IH]; intros s pc Hrows Hfw Hfit Hnd Hmd Hfree.
  - exists s, []. cbn. rewrite app_nil_r. repeat split. constructor.
  - inversion Hfit as [|x xs Hfit1 Hfits]; subst.
    cbn [map] in Hnd. inversion Hnd as [|x xs Hnew Hnd']; subst.
    rewrite writeControls_one; auto.
    2:{ intros g Hg Hs E. apply (Hfree g Hg Hs). left. now rewrite E. }
    set (f := newFinding client scan fw control
                (selectMetadata client (control_id control) (db s))
                (clock (tick s)) (next_id (db s))).
    destruct (IH (inserted f s) (countControl control pc)) as (s' & new & Hrun & Hf & Hall);
      auto.
    { intros g Hg Hs. cbn [inserted db findings with_next_id with_findings] in Hg.
      apply in_app_or in Hg. destruct Hg as [Hg|[<-|[]]].
      - intros Hin. apply (Hfree g Hg Hs). now right.
      - exact Hnew. }
    exists s', (f :: new). split; [exact Hrun|]. split.
    + rewrite Hf. cbn [inserted db findings with_next_id with_findings].
      now rewrite <- app_assoc.
    + constructor; [apply newFinding_writtenFor | exact Hall].
Qed.

(** The findings of a result processed in full. *)
Lemma processResult_all (b : string) (r : PowerpipeBenchmarkResult) (s : ScanState) :
  rowsExist scan client (db s) ->
  (String.length fw <= 50)%nat ->
  Forall fitsColumns (controls r) ->
  NoDup (map control_id (controls r)) ->
  metadataKept (db s) ->
  (forall g, In g (findings (db s)) ->
             compliance_check_id g = scan ->
             ~ In (f_control_id g) (map control_id (controls r))) ->
  exists s2 new,
    writeControls clock scan client fw (controls r) s (mkCounts 0 0 0 0 0)
    = (s2, Some (recount (controls r) (mkCounts 0 0 0 0 0)))
    /\ processResult clock scan client b fw r s
       = addWarnings (map (fun w => (b, FromVerification w)) (warnings (verification r)))
                     (addTotals (List.length (controls r))
                                (recount (controls r) (mkCounts 0 0 0 0 0)) s2)
    /\ findings (db s2) = (findings (db s) ++ new)%list
    /\ Forall2 (writtenFor scan client fw) (controls r) new.
Proof.
  intros Hrows Hfw Hfit Hnd Hmd Hfree.
  destruct (writeControls_all (controls r) s (mkCounts 0 0 0 0 0)
                              Hrows Hfw Hfit Hnd Hmd Hfree)
    as (s2 & new & Hrun & Hf & Hall).
  exists s2, new. split; [exact Hrun|]. split; [|now split].
  unfold processResult. now rewrite Hrun.
Qed.

End WriteFacts.

(** No reading of the clock beyond the budget: no checkpoint stops the
    run. *)
Lemma timedOut_false (clock : nat -> Z) (start : Z) (s : ScanState) :
  clock (tick s) - start <= 1800000 -> timedOut clock start s = false.
Proof.
  intros H. unfold timedOut, MAX_SCAN_DURATION_MS.
  rewrite Z.gtb_ltb. apply Z.ltb_ge. lia.
Qed.

Lemma timedOut_true (clock : nat -> Z) (start : Z) (s : ScanState) :
  clock (tick s) - start > 1800000 -> timedOut clock start s = true.
Proof.
  intros H. unfold timedOut, MAX_SCAN_DURATION_MS.
  rewrite Z.gtb_ltb. apply Z.ltb_lt. lia.
Qed.

Lemma selectCheck_In (scan : uuid) (d : Db) (row : ComplianceCheck) :
  selectCheck scan d = Some row -> In row (compliance_checks d) /\ check_id row = scan.
Proof.
  unfold selectCheck. intros H. apply find_some in H.
  destruct H as [Hin H]. apply Nat.eqb_eq in H. now split.
Qed.

Lemma selectCheck_unique (d : Db) (row : ComplianceCheck) :
  NoDup (map check_id (compliance_checks d)) ->
  In row (compliance_checks d) ->
  selectCheck (check_id row) d = Some row.
Proof.
  unfold selectCheck. induction (compliance_checks d) as [|c l IH]; intros Hnd Hin.
  - destruct Hin.
  - cbn [map] in Hnd. inversion Hnd as [|x xs Hx Hnd']; subst. cbn [find].
    destruct Hin as [->|Hin]; [now rewrite Nat.eqb_refl|].
    destruct (Nat.eqb_spec (check_id c) (check_id row)) as [E|E].
    + exfalso. apply Hx. rewrite E. now apply in_map.
    + now apply IH.
Qed.

Lemma selectCheck_exists (scan : uuid) (d : Db) :
  (exists k, In k (compliance_checks d) /\ check_id k = scan) ->
  exists row, selectCheck scan d = Some row.
Proof.
  intros (k & Hk & Ek). unfold selectCheck.
  destruct (find _ (compliance_checks d)) as [row|] eqn:E; [now exists row|].
  exfalso. apply (find_none _ _ E) in Hk. apply Nat.eqb_neq in Hk. contradiction.
Qed.

Lemma beforeStart_false (clock : nat -> Z) (scan : uuid) (d : Db) (t : nat) :
  (forall row, In row (compliance_checks d) -> check_id row = scan ->
               clock (S t) - started_at row <= 1800000) ->
  timedOutBeforeStart clock scan (scanStart d t) = false.
Proof.
  intros H. unfold timedOutBeforeStart, scanStart. cbn [db initState tick].
  destruct (selectCheck scan d) as [row|] eqn:E; [|reflexivity].
  apply selectCheck_In in E. destruct E as [Hin Hid].
  unfold MAX_SCAN_DURATION_MS. rewrite Z.gtb_ltb. apply Z.ltb_ge.
  specialize (H row Hin Hid). lia.
Qed.

Lemma beforeStart_true (clock : nat -> Z) (d : Db) (t : nat) (row : ComplianceCheck) :
  NoDup (map check_id (compliance_checks d)) ->
  In row (compliance_checks d) ->
  clock (S t) - started_at row > 1800000 ->
  timedOutBeforeStart clock (check_id row) (scanStart d t) = true.
Proof.
  intros Hnd Hin H. unfold timedOutBeforeStart, scanStart. cbn [db initState tick].
  rewrite (selectCheck_unique d row Hnd Hin).
  unfold MAX_SCAN_DURATION_MS. rewrite Z.gtb_ltb. apply Z.ltb_lt. lia.
Qed.

(* ================================================================== *)
(** * Claims on the archive step                                       *)
(* ================================================================== *)

Section ArchiveFacts.

Variable clock : nat -> Z.
Variable rt : Runtime.
Variable decryptCredentials : string -> option string.
Variable engine : nat -> string -> string -> string -> EngineOutput.
Variables (client : uuid) (frameworks : list string).

Lemma inScope_iff (fws : list string) (f : Finding) :
  inScope client fws f = true <-> client_id f = client /\ In (framework f) fws.
Proof.
  unfold inScope. rewrite andb_true_iff, Nat.eqb_eq, existsb_exists. split.
  - intros [Hc (x & Hx & E)]. apply String.eqb_eq in E. now subst.
  - intros [Hc Hin]. split; [exact Hc|]. exists (framework f).
    split; [exact Hin | apply String.eqb_refl].
Qed.

Lemma writtenBy_inScope (scan : uuid) (f : Finding) :
  writtenBy scan client frameworks f -> inScope client frameworks f = true.
Proof. intros (Hc & _ & Hf). now apply inScope_iff. Qed.


Lemma filter_none [A : Type] (p : A -> bool) [l : list A] :
  Forall (fun x => p x = false) l -> filter p l = [].
Proof.
  induction 1 as [|x l Hx _ IH]; [reflexivity|]. simpl. now rewrite Hx.
Qed.

Lemma filter_filter [A : Type] (p q : A -> bool) (l : list A) :
  filter p (filter q l) = filter (fun x => q x && p x) l.
Proof.
  induction l as [|x l IH]; [reflexivity|]. simpl.
  destruct (q x); simpl; [destruct (p x)|]; now rewrite IH.
Qed.


Lemma filter_empty [A : Type] (p : A -> bool) (l : list A) :
  (forall x, In x l -> p x = false) -> filter p l = [].
Proof.
  intros H. induction l as [|x l IH]; [reflexivity|]. simpl.
  rewrite (H x (or_introl eq_refl)). apply IH. intros y Hy. apply H. now right.
Qed.


(** The store in which the loops start. *)
Lemma beforePairs_store (scan : uuid) (d : Db) (t : nat) :
  exists now,
    findings (db (beforePairs clock scan client frameworks d t))
    = filter (fun f => negb (inScope client frameworks f)) (findings d)
    /\ findings_history (db (beforePairs clock scan client frameworks d t))
       = (findings_history d
          ++ map (fun f => mkHistory f scan now)
                 (filter (inScope client frameworks) (findings d)))%list
    /\ control_metadata (db (beforePairs clock scan client frameworks d t))
       = control_metadata d
    /\ clients (db (beforePairs clock scan client frameworks d t)) = clients d
    /\ compliance_checks (db (beforePairs clock scan client frameworks d t))
       = compliance_checks d.
Proof.
  unfold beforePairs. destruct (selectCheck scan d); eexists; repeat split.
Qed.

Lemma executeScan_after_archive (scan : uuid) (creds : list CredentialRow)
    (d : Db) (t : nat) :
  timedOutBeforeStart clock scan (scanStart d t) = false ->
  extends scan client frameworks
          (db (beforePairs clock scan client frameworks d t))
          (db (executeScan clock rt decryptCredentials engine scan client frameworks
                           creds d t)).
Proof.
  intros Hstart. apply (runs_extends clock rt). now apply executeScan_runs.
Qed.

(** Any run, begun or not: findings kept are old ones, findings added are
    the scan's own, and history rows added are snapshots of old findings
    in the scan's scope, archived by the scan. *)
Lemma executeScan_any (scan : uuid) (creds : list CredentialRow) (d : Db) (t : nat) :
  exists keep new hs,
    findings
      (db (executeScan clock rt decryptCredentials engine scan client frameworks
                       creds d t))
    = (keep ++ new)%list
    /\ (keep = findings d
        \/ keep = filter (fun f => negb (inScope client frameworks f)) (findings d))
    /\ Forall (ownRow scan client frameworks) new
    /\ findings_history
         (db (executeScan clock rt decryptCredentials engine scan client frameworks
                          creds d t))
       = (findings_history d ++ hs)%list
    /\ Forall (fun h => In (snapshot h) (findings d)
                        /\ inScope client frameworks (snapshot h) = true
                        /\ archived_by_scan_id h = scan) hs.
Proof.
  destruct (timedOutBeforeStart clock scan (scanStart d t)) eqn:Hstart.
  - unfold executeScan. rewrite Hstart.
    exists (findings d), [], []. cbn. rewrite !app_nil_r.
    repeat split; auto.
  - destruct (executeScan_after_archive scan creds d t Hstart) as (Hh & _ & new & Hf & Hnew).
    destruct (beforePairs_store scan d t) as (now & Hf0 & Hh0 & _).
    eexists _, new, _. split; [rewrite Hf, Hf0; reflexivity|].
    split; [now right|]. split; [exact Hnew|].
    split; [rewrite Hh, Hh0; reflexivity|].
    apply Forall_forall. intros h Hin. apply in_map_iff in Hin.
    destruct Hin as (f & <- & Hin). apply filter_In in Hin. cbn. tauto.
Qed.


Lemma finalizeScan_findings (scan : uuid) (s : ScanState) :
  findings (db (finalizeScan clock rt scan s)) = findings (db s).
Proof.
  unfold finalizeScan, completeScan.
  destruct (_ && _); [reflexivity|]. destruct (_ =? _)%nat; [reflexivity|].
  now destruct (forallb _ _).
Qed.


End ArchiveFacts.
Section ArchiveClaim.

Variable clock : nat -> Z.
Variable rt : Runtime.
Variable decryptCredentials : string -> option string.
Variable engine : nat -> string -> string -> string -> EngineOutput.
Variable client : uuid.


Lemma findingsOf_filter (scan : uuid) (p : Finding -> bool) (fs : list Finding) :
  findingsOf scan (filter p fs) = filter p (findingsOf scan fs).
Proof.
  unfold findingsOf. rewrite !filter_filter. apply filter_ext. intros f.
  apply andb_comm.
Qed.



End ArchiveClaim.
(** [evaluated t]: the equation of [t] with its value. *)
Tactic Notation "evaluated" constr(t) "as" ident(E) :=
  let v := eval vm_compute in t in
  assert (E : t = v) by (vm_compute; reflexivity).

(* ================================================================== *)
(** * Claims on the timeout and on the final status                    *)
(* ================================================================== *)

Section RunFacts.

Variable clock : nat -> Z.
Variable rt : Runtime.
Variable decryptCredentials : string -> option string.
Variable engine : nat -> string -> string -> string -> EngineOutput.
Variables (scan client : uuid) (frameworks : list string).

Lemma eachFramework_app (start : Z) (creds prov : string) (fs1 fs2 : list string) :
  forall s,
    eachFramework clock rt engine scan client start creds prov (fs1 ++ fs2) s
    = match eachFramework clock rt engine scan client start creds prov fs1 s with
      | Next s1 => eachFramework clock rt engine scan client start creds prov fs2 s1
      | Return r => Return r
      end.
Proof.
  induction fs1 as [|fw fs1 IH]; intros s; [reflexivity|].
  cbn [app eachFramework].
  destruct (timedOut clock start s); [reflexivity|].
  destruct (getBenchmarkName rt fw prov); apply IH.
Qed.

Lemma eachCredential_app (start : Z) (cs1 cs2 : list CredentialRow) :
  forall s,
    eachCredential clock rt decryptCredentials engine scan client frameworks start
                   (cs1 ++ cs2) s
    = match eachCredential clock rt decryptCredentials engine scan client frameworks
                           start cs1 s with
      | Next s1 =>
          eachCredential clock rt decryptCredentials engine scan client frameworks
                         start cs2 s1
      | Return r => Return r
      end.
Proof.
  induction cs1 as [|c cs1 IH]; intros s; [reflexivity|].
  cbn [app eachCredential].
  destruct (timedOut clock start s); [reflexivity|].
  destruct (decryptCredentials (encrypted_credentials c)); [|reflexivity].
  destruct (eachFramework _ _ _ _ _ _ _ _ _ _); [apply IH | reflexivity].
Qed.

(** A property kept by every clock reading, by marking the scan failed
    and by every benchmark is kept by the loops. *)
Lemma eachFramework_inv (P : ScanState -> Prop) (start : Z) (creds prov : string) :
  (forall s, P s -> P (read s)) ->
  (forall s, P s -> P (failScan clock scan s)) ->
  (forall b fw s, P s -> P (runBenchmark clock rt engine scan client b creds prov fw s)) ->
  forall fws s,
    P s -> P (stateOf (eachFramework clock rt engine scan client start creds prov fws s)).
Proof.
  intros Hread Hfail Hrun. induction fws as [|fw fws IH]; intros s Hs; [exact Hs|].
  cbn [eachFramework]. destruct (timedOut clock start s); [now apply Hfail, Hread|].
  destruct (getBenchmarkName rt fw prov); apply IH; auto.
Qed.

Lemma eachCredential_inv (P : ScanState -> Prop) (start : Z) :
  (forall s, P s -> P (read s)) ->
  (forall s, P s -> P (failScan clock scan s)) ->
  (forall b creds prov fw s,
      P s -> P (runBenchmark clock rt engine scan client b creds prov fw s)) ->
  forall creds s,
    P s ->
    P (stateOf (eachCredential clock rt decryptCredentials engine scan client frameworks
                               start creds s)).
Proof.
  intros Hread Hfail Hrun. induction creds as [|c creds IH]; intros s Hs; [exact Hs|].
  cbn [eachCredential]. destruct (timedOut clock start s); [now apply Hfail, Hread|].
  destruct (decryptCredentials (encrypted_credentials c)) as [dc|];
    [|now apply Hfail, Hread].
  pose proof (eachFramework_inv P start dc (provider c) Hread Hfail
                (fun b fw s => Hrun b _ _ fw s) frameworks (read s) (Hread s Hs)) as H.
  destruct (eachFramework _ _ _ _ _ _ _ _ _ _); cbn [stateOf] in *; auto.
Qed.

(** ** The counters of benchmarks *)

Lemma processResult_counters (b fw : string) (r : PowerpipeBenchmarkResult)
    (s : ScanState) :
  let s' := processResult clock scan client b fw r s in
  benchmarksRun s' = benchmarksRun s
  /\ (benchmarksFailed s' = S (benchmarksFailed s)
      \/ benchmarksFailed s' = benchmarksFailed s).
Proof.
  cbv zeta. unfold processResult, writeControls.
  match goal with
  | |- context [writeEach ?c ?row ?cnt ?l ?s0 ?p] =>
      destruct (writeEach_counters c row cnt l s0 p) as (_ & _ & _ & _ & _ & _ & H1 & H2 & _);
      destruct (writeEach c row cnt l s0 p) as [s2 [pc|]]
  end; cbn in *; rewrite H1, H2; auto.
Qed.

Lemma processRaw_counters (b fw : string) (raw : Json) (s : ScanState) :
  let s' := processRaw clock rt scan client b fw raw s in
  benchmarksRun s' = benchmarksRun s
  /\ (benchmarksFailed s' = S (benchmarksFailed s)
      \/ benchmarksFailed s' = benchmarksFailed s).
Proof.
  cbv zeta. unfold processRaw.
  destruct (logged rt raw); [|cbn; auto].
  destruct (member raw "controls") as [[| | | |cs|]|]; try (cbn; now auto).
  unfold writeRaw.
  match goal with
  | |- context [writeEach ?c ?row ?cnt ?l ?s0 ?p] =>
      destruct (writeEach_counters c row cnt l s0 p) as (_ & _ & _ & _ & _ & _ & H1 & H2 & _);
      destruct (writeEach c row cnt l s0 p) as [s2 [pc|]]
  end; cbn [fst] in H1, H2; [|cbn; rewrite H1, H2; auto].
  destruct (truthyJ _); [|cbn; rewrite H1, H2; auto].
  destruct (optMember _ _) as [[| | | |ws|]|]; try (cbn; rewrite H1, H2; now auto).
  destruct (forallb _ ws); cbn; rewrite H1, H2; auto.
Qed.

(** One attempt: one more benchmark run, and at most one more failure;
    one more failure when the name is not a text or the engine's answer
    cannot be used. *)
Lemma runBenchmark_counters (b : BenchmarkName) (creds prov fw : string) (s : ScanState) :
  let s' := runBenchmark clock rt engine scan client b creds prov fw s in
  benchmarksRun s' = S (benchmarksRun s)
  /\ (benchmarksFailed s' = S (benchmarksFailed s)
      \/ (benchmarksFailed s' = benchmarksFailed s
          /\ exists name,
              b = Named name
              /\ match runPowerpipeBenchmark name (engine (tick s) name creds prov) with
                 | Transformed _ | Passthrough _ => True
                 | Reshaped _ | Thrown => False
                 end)).
Proof.
  cbv zeta. unfold runBenchmark.
  destruct b as [name|text]; [|cbn; auto].
  cbn [started tick].
  destruct (runPowerpipeBenchmark _ _) as [r|raw|raw|] eqn:Hr; try (cbn; now auto).
  - destruct (processResult_counters name fw r (started s)) as [H1 [H2|H2]];
      cbv zeta in H1, H2; rewrite H1, H2; cbn [started benchmarksRun benchmarksFailed];
      [now auto|]. split; [reflexivity|]. right. split; [reflexivity|].
    exists name. now rewrite Hr.
  - destruct (processRaw_counters name fw raw (started s)) as [H1 [H2|H2]];
      cbv zeta in H1, H2; rewrite H1, H2; cbn [started benchmarksRun benchmarksFailed];
      [now auto|]. split; [reflexivity|]. right. split; [reflexivity|].
    exists name. now rewrite Hr.
Qed.

Lemma failed_le_run (creds : list CredentialRow) (start : Z) (s : ScanState) :
  (benchmarksFailed s <= benchmarksRun s)%nat ->
  let s' := stateOf (eachCredential clock rt decryptCredentials engine scan client
                                    frameworks start creds s) in
  (benchmarksFailed s' <= benchmarksRun s')%nat.
Proof.
  intros Hs. cbv zeta.
  apply (eachCredential_inv
           (fun s => (benchmarksFailed s <= benchmarksRun s)%nat)); auto.
  intros b c p fw s0 H0.
  destruct (runBenchmark_counters b c p fw s0) as [H1 [H2|[H2 _]]];
    cbv zeta in H1, H2; lia.
Qed.

Lemma all_failed (creds : list CredentialRow) (start : Z) (s : ScanState) :
  unusable engine ->
  benchmarksFailed s = benchmarksRun s ->
  let s' := stateOf (eachCredential clock rt decryptCredentials engine scan client
                                    frameworks start creds s) in
  benchmarksFailed s' = benchmarksRun s'.
Proof.
  intros Hdown Hs. cbv zeta.
  apply (eachCredential_inv
           (fun s => benchmarksFailed s = benchmarksRun s)); auto.
  intros b c p fw s0 H0.
  destruct (runBenchmark_counters b c p fw s0) as [H1 [H2|[_ (name & _ & Hr)]]];
    cbv zeta in H1; [cbv zeta in H2; congruence|].
  exfalso. specialize (Hdown (tick s0) name c p).
  destruct (runPowerpipeBenchmark _ _); contradiction.
Qed.

(** ** The results that were written in full *)

Lemma recount_counts (cs : list Control) :
  forall pc,
    benchmarkPassed (recount cs pc) = (benchmarkPassed pc + countStatus pass cs)%nat
    /\ benchmarkFailed (recount cs pc) = (benchmarkFailed pc + countStatus fail cs)%nat
    /\ benchmarkError (recount cs pc) = (benchmarkError pc + countStatus error cs)%nat
    /\ benchmarkSkip (recount cs pc) = (benchmarkSkip pc + countStatus skip cs)%nat.
Proof.
  unfold recount, countStatus.
  induction cs as [|c cs IH]; intros pc; cbn [fold_left filter List.length];
    [repeat split; lia|].
  destruct (IH (countControl c pc)) as (H1 & H2 & H3 & H4).
  rewrite H1, H2, H3, H4. unfold countControl.
  destruct (status c);
    cbn [Status_eqb List.length benchmarkPassed benchmarkFailed benchmarkError
         benchmarkSkip];
    repeat split; lia.
Qed.

Lemma Forall2_In_left [A B : Type] (R : A -> B -> Prop) (l : list A) (l' : list B)
    (x : A) :
  Forall2 R l l' -> In x l -> exists y, In y l' /\ R x y.
Proof.
  induction 1 as [|a b l0 l0' Hab _ IH]; intros Hin; [destruct Hin|].
  destruct Hin as [->|Hin].
  - exists b. split; [now left | exact Hab].
  - destruct (IH Hin) as (y & Hy & Hxy). exists y. split; [now right | exact Hxy].
Qed.

Lemma sumOver_snoc [A : Type] (f : A -> nat) (l : list A) (x : A) :
  sumOver f (l ++ [x]) = (sumOver f l + f x)%nat.
Proof.
  unfold sumOver. rewrite map_app, list_sum_app. cbn. lia.
Qed.

Lemma newFinding_storedFor (fw : string) (control : Control) (d : Db) (now : Z)
    (mk : uuid -> Finding) (id : uuid) (f : Finding) :
  Some (newFinding client scan fw control
                   (selectMetadata client (control_id control) d) now) = Some mk ->
  stored (mk id) = Some f ->
  storedFor scan client control f.
Proof.
  intros [= <-] Hst.
  destruct (StoreFacts.stored_inv _ _ Hst)
    as (_ & H1 & H2 & H3 & _ & _ & H4 & _ & H5 & _).
  cbn [newFinding client_id compliance_check_id f_control_id scan_status scan_reason]
    in H1, H2, H3, H4, H5.
  rewrite (proj1 (StoreFacts.statusText_fits (status control))) in H4.
  injection H4 as H4. repeat split; auto.
Qed.

Lemma recorded_more (d d' : Db) (new : list Finding) (r : PowerpipeBenchmarkResult) :
  findings d' = (findings d ++ new)%list ->
  recorded scan client d r -> recorded scan client d' r.
Proof.
  intros Hf H control Hin. destruct (H control Hin) as (f & Hf1 & Hf2).
  exists f. split; [|exact Hf2]. rewrite Hf. apply in_or_app. now left.
Qed.

Lemma recorded_same (d d' : Db) (r : PowerpipeBenchmarkResult) :
  findings d' = findings d ->
  recorded scan client d r -> recorded scan client d' r.
Proof.
  intros Hf. apply (recorded_more d d' []). now rewrite app_nil_r.
Qed.

(** With an engine that gives no object to be used as it is, the
    counters of the loops are those of the results written in full. *)
Lemma succeeded_runBenchmark (b : BenchmarkName) (creds prov fw : string) (s : ScanState)
    (rs : list PowerpipeBenchmarkResult) :
  (forall n name c p raw,
      runPowerpipeBenchmark name (engine n name c p) <> Passthrough raw) ->
  succeededWith s rs /\ Forall (answered engine) rs
  /\ Forall (recorded scan client (db s)) rs ->
  exists rs',
    succeededWith (runBenchmark clock rt engine scan client b creds prov fw s) rs'
    /\ Forall (answered engine) rs'
    /\ Forall (recorded scan client
                        (db (runBenchmark clock rt engine scan client b creds prov fw s)))
              rs'.
Proof.
  intros Hno (Hs & Hans & Hrec).
  assert (Hthrew : forall name,
             exists rs',
               succeededWith (benchmarkThrew name (started s)) rs'
               /\ Forall (answered engine) rs'
               /\ Forall (recorded scan client (db (benchmarkThrew name (started s)))) rs').
  { intros name. exists rs. split; [|split; [exact Hans | exact Hrec]].
    destruct Hs as (H0 & H1). split; [|exact H1].
    cbn [benchmarkThrew started benchmarksRun benchmarksFailed]. lia. }
  unfold runBenchmark. destruct b as [name|text]; [|apply Hthrew].
  cbn [started tick].
  destruct (runPowerpipeBenchmark name (engine (tick s) name creds prov))
    as [r|raw|raw|] eqn:Hr; try apply Hthrew.
  2:{ now elim (Hno _ _ _ _ _ Hr). }
  unfold processResult, writeControls.
  match goal with
  | |- context [writeEach ?c ?row ?cnt ?l ?s0 ?p] =>
      pose proof (writeEach_counters c row cnt l s0 p) as Hc;
      pose proof (writeEach_written c row cnt (storedFor scan client)
                    (fun control d now mk id f => newFinding_storedFor fw control d now mk id f)
                    l s0 p) as Hw;
      destruct (writeEach c row cnt l s0 p) as [s2 [pc|]]
  end; cbv zeta in Hc; cbn [fst snd] in Hc, Hw;
    destruct Hc as (C1 & C2 & C3 & C4 & C5 & C6 & C7 & C8 & _);
    destruct Hw as (new & Hf & Hall & Hend).
  - destruct Hend as [Hlen ->]. fold (recount (controls r) (mkCounts 0 0 0 0 0)).
    destruct (recount_counts (controls r) (mkCounts 0 0 0 0 0)) as (R1 & R2 & R3 & R4).
    destruct (transformed_inv _ _ _ Hr) as (_ & _ & _ & _ & _ & Hb & _).
    destruct Hs as (S0 & S1 & S2 & S3 & S4 & S5 & S6).
    exists (rs ++ [r])%list. split; [|split].
    + unfold succeededWith.
      cbn [addWarnings addTotals benchmarksRun benchmarksFailed totalControls
           passedControls failedControls errorControls skipControls
           verificationWarnings].
      rewrite C1, C2, C3, C4, C5, C6, C7, C8, R1, R2, R3, R4, !sumOver_snoc.
      cbn [started benchmarksRun benchmarksFailed totalControls passedControls
           failedControls errorControls skipControls verificationWarnings
           benchmarkPassed benchmarkFailed benchmarkError benchmarkSkip].
      rewrite length_app, flat_map_app, S1, S2, S3, S4, S5, S6.
      cbn [List.length flat_map]. rewrite app_nil_r, Hb.
      repeat split; lia.
    + apply Forall_app. split; [exact Hans|]. constructor; [|constructor].
      exists (tick s), creds, prov. now rewrite Hb.
    + cbn [addWarnings addTotals db]. apply Forall_app. split.
      * eapply Forall_impl; [|exact Hrec]. intros r0.
        apply (recorded_more _ _ new). exact Hf.
      * constructor; [|constructor]. intros control Hin.
        rewrite Hlen, firstn_all in Hall.
        destruct (Forall2_In_left _ _ _ _ Hall Hin) as (f & Hfin & Hfor).
        exists f. split; [|exact Hfor]. rewrite Hf. apply in_or_app. now right.
  - exists rs. split; [|split; [exact Hans|]].
    + destruct Hs as (S0 & S1 & S2 & S3 & S4 & S5 & S6).
      unfold succeededWith.
      cbn [benchmarkThrew benchmarksRun benchmarksFailed totalControls
           passedControls failedControls errorControls skipControls
           verificationWarnings].
      rewrite C1, C2, C3, C4, C5, C6, C7, C8.
      cbn [started benchmarksRun benchmarksFailed totalControls passedControls
           failedControls errorControls skipControls verificationWarnings].
      repeat split; auto. lia.
    + cbn [benchmarkThrew db]. eapply Forall_impl; [|exact Hrec]. intros r0.
      apply (recorded_more _ _ new). exact Hf.
Qed.

Lemma succeeded_loops (creds : list CredentialRow) (start : Z) (s : ScanState) :
  (forall n name c p raw,
      runPowerpipeBenchmark name (engine n name c p) <> Passthrough raw) ->
  benchmarksRun s = 0%nat -> benchmarksFailed s = 0%nat ->
  totalControls s = 0%nat -> passedControls s = 0%nat -> failedControls s = 0%nat ->
  errorControls s = 0%nat -> skipControls s = 0%nat -> verificationWarnings s = [] ->
  let s' := stateOf (eachCredential clock rt decryptCredentials engine scan client
                                    frameworks start creds s) in
  exists rs,
    succeededWith s' rs /\ Forall (answered engine) rs
    /\ Forall (recorded scan client (db s')) rs.
Proof.
  intros Hno H1 H2 H3 H4 H5 H6 H7 H8. cbv zeta.
  apply (eachCredential_inv
           (fun s => exists rs,
                succeededWith s rs /\ Forall (answered engine) rs
                /\ Forall (recorded scan client (db s)) rs)).
  - intros s0 (rs & Hs & Ha & Hr). exists rs. auto.
  - intros s0 (rs & Hs & Ha & Hr). exists rs. auto.
  - intros b c p fw s0 (rs & H). exact (succeeded_runBenchmark b c p fw s0 rs Hno H).
  - exists []. split; [|split; constructor].
    unfold succeededWith. rewrite H1, H2, H3, H4, H5, H6, H7, H8. repeat split.
Qed.

(** ** Loops that are not stopped *)

Lemma loops_not_stopped (creds : list CredentialRow) (start : Z) (s : ScanState) :
  let pairs := eachCredential clock rt decryptCredentials engine scan client frameworks
                              start creds s in
  (forall n, (n < tick (stateOf pairs))%nat -> clock n - start <= 1800000) ->
  (forall c, In c creds -> decryptCredentials (encrypted_credentials c) <> None) ->
  pairs = Next (stateOf pairs).
Proof.
  cbv zeta. intros Hclock Hdec.
  pose proof (eachCredential_flow clock rt decryptCredentials engine scan client
                frameworks start creds s) as H.
  destruct (eachCredential _ _ _ _ _ _ _ _ _ _) as [s'|r]; [reflexivity|].
  exfalso. destruct H as (s1 & _ & [HT|(c & Hin & Hc)] & ->).
  - cbn [stateOf failScan read tick with_db] in Hclock.
    specialize (Hclock (tick s1) ltac:(lia)).
    rewrite (timedOut_false clock start s1 Hclock) in HT. discriminate HT.
  - now elim (Hdec c Hin).
Qed.

End RunFacts.
Section RunClaims.

Variable clock : nat -> Z.
Variable rt : Runtime.
Variable decryptCredentials : string -> option string.
Variable engine : nat -> string -> string -> string -> EngineOutput.
Variables (scan client : uuid) (frameworks : list string).

(** What marking the scan failed at a checkpoint leaves: the findings,
    the counters, and the status failed. *)
Lemma stopped_at (s : ScanState) (row : ComplianceCheck) :
  selectCheck scan (db s) = Some row ->
  let r := failScan clock scan (read s) in
  statusOf scan (db r) = Some "failed"
  /\ benchmarksRun r = benchmarksRun s
  /\ findings (db r) = findings (db s).
Proof.
  intros Hrow. cbv zeta. split; [|now split].
  exact (failScan_failed clock scan (read s) row Hrow).
Qed.

(** C4: the elapsed time is checked before the run begins (against the
    start time stored with the scan), before each credential and before
    each framework of a credential (against the time at which the run
    started).  At whichever of these checkpoints the elapsed time is
    more than 1,800,000 ms, the run ends there: its final state is the
    state of the checkpoint with the scan marked failed, so no further
    benchmark is run, and the findings in the store are those written
    up to the checkpoint.  At a checkpoint where the elapsed time is at
    most 1,800,000 ms the run goes on: it enters the loops, and the loop
    over the frameworks goes on with the pair.  A run that has begun
    only adds findings of its scan to the archived store. *)
Theorem C4_timeout_checkpoints (creds : list CredentialRow) (d : Db) (t : nat)
    (row : ComplianceCheck) :
  NoDup (map check_id (compliance_checks d)) ->
  In row (compliance_checks d) ->
  check_id row = scan ->
  let run := executeScan clock rt decryptCredentials engine scan client frameworks
                         creds d t in
  let start := beforePairs clock scan client frameworks d t in
  (clock (S t) - started_at row > 1800000 ->
   run = failScan clock scan (read (scanStart d t))
   /\ statusOf scan (db run) = Some "failed"
   /\ benchmarksRun run = 0%nat
   /\ findings (db run) = findings d
   /\ findings_history (db run) = findings_history d)
  /\ (clock (S t) - started_at row <= 1800000 ->
      run = match scanPairs clock rt decryptCredentials engine scan client frameworks
                            creds d t with
            | Return s' => s'
            | Next s' => finalizeScan clock rt scan s'
            end
      /\ extends scan client frameworks (db start) (db run)
      /\ forall cs1 c cs2 s1,
          creds = (cs1 ++ c :: cs2)%list ->
          eachCredential clock rt decryptCredentials engine scan client frameworks
                         (clock t) cs1 start = Next s1 ->
          (clock (tick s1) - clock t > 1800000 ->
           run = failScan clock scan (read s1)
           /\ statusOf scan (db run) = Some "failed"
           /\ benchmarksRun run = benchmarksRun s1
           /\ findings (db run) = findings (db s1))
          /\ (clock (tick s1) - clock t <= 1800000 ->
              forall dc,
                decryptCredentials (encrypted_credentials c) = Some dc ->
                forall fs1 fw fs2 s2,
                  frameworks = (fs1 ++ fw :: fs2)%list ->
                  eachFramework clock rt engine scan client (clock t) dc (provider c)
                                fs1 (read s1) = Next s2 ->
                  (clock (tick s2) - clock t > 1800000 ->
                   run = failScan clock scan (read s2)
                   /\ statusOf scan (db run) = Some "failed"
                   /\ benchmarksRun run = benchmarksRun s2
                   /\ findings (db run) = findings (db s2))
                  /\ (clock (tick s2) - clock t <= 1800000 ->
                      eachFramework clock rt engine scan client (clock t) dc
                                    (provider c) (fw :: fs2) s2
                      = eachFramework clock rt engine scan client (clock t) dc
                                      (provider c) fs2
                          match getBenchmarkName rt fw (provider c) with
                          | Some b =>
                              runBenchmark clock rt engine scan client b dc
                                           (provider c) fw (read s2)
                          | None => read s2
                          end))).
Proof.
  intros Hnd Hin Hid. cbv zeta.
  assert (Hrow : selectCheck scan d = Some row)
    by (rewrite <- Hid; now apply selectCheck_unique).
  split.
  - intros Hlate.
    assert (HT : timedOutBeforeStart clock scan (scanStart d t) = true)
      by (rewrite <- Hid; now apply beforeStart_true).
    unfold executeScan. rewrite HT. split; [reflexivity|].
    split; [|now repeat split].
    exact (failScan_failed clock scan (read (scanStart d t)) row Hrow).
  - intros Hintime.
    assert (HT : timedOutBeforeStart clock scan (scanStart d t) = false).
    { apply beforeStart_false. intros row' Hin' Hid'.
      assert (E : selectCheck scan d = Some row')
        by (rewrite <- Hid'; now apply selectCheck_unique).
      rewrite Hrow in E. injection E as <-. exact Hintime. }
    split; [unfold executeScan; now rewrite HT|].
    split; [apply (runs_extends clock rt); now apply executeScan_runs|].
    intros cs1 c cs2 s1 -> Hpre.
    set (start := beforePairs clock scan client frameworks d t) in *.
    assert (Hstart : selectCheck scan (db start) = Some row).
    { unfold selectCheck in *. subst start. now rewrite beforePairs_checks. }
    assert (Hs1 : runs clock rt scan client frameworks start s1).
    { pose proof (eachCredential_flow clock rt decryptCredentials engine scan client
                    frameworks (clock t) cs1 start) as H.
      now rewrite Hpre in H. }
    destruct (runs_row clock rt scan client frameworks _ _ row Hs1 Hstart)
      as (row1 & Hrow1 & _).
    assert (Hrun : executeScan clock rt decryptCredentials engine scan client frameworks
                               (cs1 ++ c :: cs2) d t
                   = match eachCredential clock rt decryptCredentials engine scan client
                                          frameworks (clock t) (c :: cs2) s1 with
                     | Return s' => s'
                     | Next s' => finalizeScan clock rt scan s'
                     end).
    { unfold executeScan, scanPairs. fold start.
      now rewrite HT, eachCredential_app, Hpre. }
    rewrite Hrun. cbn [eachCredential]. split.
    + intros Hlate. rewrite (timedOut_true clock (clock t) s1 Hlate).
      split; [reflexivity|]. exact (stopped_at s1 row1 Hrow1).
    + intros Hok dc Hdc fs1 fw fs2 s2 Hfw Hfs.
      rewrite (timedOut_false clock (clock t) s1 Hok), Hdc.
      assert (Hs2 : runs clock rt scan client frameworks (read s1) s2).
      { pose proof (eachFramework_flow clock rt engine scan client frameworks (clock t)
                      dc (provider c) fs1) as H.
        specialize (H ltac:(rewrite Hfw; intros x Hx; apply in_or_app; now left)
                      (read s1)).
        now rewrite Hfs in H. }
      destruct (runs_row clock rt scan client frameworks _ _ row1 Hs2 Hrow1)
        as (row2 & Hrow2 & _).
      split.
      * intros Hlate.
        assert (E : eachFramework clock rt engine scan client (clock t) dc (provider c)
                                  frameworks (read s1)
                    = Return (failScan clock scan (read s2))).
        { rewrite Hfw, eachFramework_app, Hfs. cbn [eachFramework].
          now rewrite (timedOut_true clock (clock t) s2 Hlate). }
        rewrite E. split; [reflexivity|]. exact (stopped_at s2 row2 Hrow2).
      * intros Hok2. cbn [eachFramework].
        rewrite (timedOut_false clock (clock t) s2 Hok2).
        now destruct (getBenchmarkName rt fw (provider c)).
Qed.

(** C5 (as amended): for a run whose scan has its row.  If every
    attempted pair failed (the loops end with as many failures as
    benchmarks run, at least one), the scan ends failed; so it does when
    the engine never gives a result that can be used.  If the run begins
    within the budget, no reading of the clock during the loops is beyond
    it, every credential is decrypted, the loops end with fewer failures
    than benchmarks run and the warnings can be stored, the scan ends
    completed with the totals and the warnings accumulated by the loops.
    When the engine gives no object that is used as it is, the benchmarks
    that did not fail are results of the engine, each with one finding
    of the scan in the store for each of its controls; the totals are
    the numbers of their controls, in all and by status, and the warnings
    are those of their verification. *)
Theorem C5_final_status (creds : list CredentialRow) (d : Db) (t : nat)
    (row : ComplianceCheck) :
  NoDup (map check_id (compliance_checks d)) ->
  In row (compliance_checks d) ->
  check_id row = scan ->
  let run := executeScan clock rt decryptCredentials engine scan client frameworks
                         creds d t in
  let pairs := scanPairs clock rt decryptCredentials engine scan client frameworks
                         creds d t in
  (benchmarksFailed (stateOf pairs) <= benchmarksRun (stateOf pairs))%nat
  /\ ((0 < benchmarksRun (stateOf pairs))%nat ->
      benchmarksFailed (stateOf pairs) = benchmarksRun (stateOf pairs) ->
      statusOf scan (db run) = Some "failed")
  /\ (unusable engine ->
      benchmarksFailed (stateOf pairs) = benchmarksRun (stateOf pairs)
      /\ statusOf scan (db run) = Some "failed")
  /\ (clock (S t) - started_at row <= 1800000 ->
      (forall n, (n < tick (stateOf pairs))%nat -> clock n - clock t <= 1800000) ->
      (forall c, In c creds -> decryptCredentials (encrypted_credentials c) <> None) ->
      (benchmarksFailed (stateOf pairs) < benchmarksRun (stateOf pairs))%nat ->
      forallb (warningStorable rt) (verificationWarnings (stateOf pairs)) = true ->
      exists row',
        selectCheck scan (db run) = Some row'
        /\ check_status row' = "completed"
        /\ total_controls row' = totalControls (stateOf pairs)
        /\ passed_controls row' = passedControls (stateOf pairs)
        /\ failed_controls row' = failedControls (stateOf pairs)
        /\ error_controls row' = errorControls (stateOf pairs)
        /\ skip_controls row' = skipControls (stateOf pairs)
        /\ option_map vd_warnings (powerpipe_output row')
           = Some (verificationWarnings (stateOf pairs))
        /\ option_map warning_count (powerpipe_output row')
           = Some (List.length (verificationWarnings (stateOf pairs))))
  /\ ((forall n name c p raw,
          runPowerpipeBenchmark name (engine n name c p) <> Passthrough raw) ->
      exists rs,
        succeededWith (stateOf pairs) rs
        /\ Forall (answered engine) rs
        /\ Forall (recorded scan client (db (stateOf pairs))) rs).
Proof.
  intros Hnd Hin Hid. cbv zeta.
  assert (Hrow : selectCheck scan d = Some row)
    by (rewrite <- Hid; now apply selectCheck_unique).
  set (start := beforePairs clock scan client frameworks d t).
  assert (Hstart : selectCheck scan (db start) = Some row).
  { unfold selectCheck in *. subst start. now rewrite beforePairs_checks. }
  assert (H0 : benchmarksFailed start = 0%nat /\ benchmarksRun start = 0%nat
               /\ totalControls start = 0%nat /\ passedControls start = 0%nat
               /\ failedControls start = 0%nat /\ errorControls start = 0%nat
               /\ skipControls start = 0%nat /\ verificationWarnings start = []).
  { subst start. unfold beforePairs. destruct (selectCheck scan d); now repeat split. }
  destruct H0 as (Z1 & Z2 & Z3 & Z4 & Z5 & Z6 & Z7 & Z8).
  (* the status at the end, when the loops end with all benchmarks failed *)
  assert (Hend : benchmarksFailed
                   (stateOf (scanPairs clock rt decryptCredentials engine scan client
                                       frameworks creds d t))
                 = benchmarksRun
                     (stateOf (scanPairs clock rt decryptCredentials engine scan client
                                         frameworks creds d t)) ->
                 statusOf scan
                   (db (executeScan clock rt decryptCredentials engine scan client
                                    frameworks creds d t)) = Some "failed").
  { intros Hall.
    destruct (executeScan_row clock rt decryptCredentials engine scan client frameworks
                              creds d t row Hrow)
      as (row' & Hsel & _ & _ & [Hst|(_ & _ & s1 & Hpairs & Hne & _)]).
    - unfold statusOf. now rewrite Hsel, <- Hst.
    - rewrite Hpairs in Hall. cbn [stateOf] in Hall. contradiction. }
  split; [|split; [|split; [|split]]].
  - unfold scanPairs. fold start. apply failed_le_run. lia.
  - intros _ Hall. now apply Hend.
  - intros Hdown.
    assert (Hall : benchmarksFailed
                     (stateOf (scanPairs clock rt decryptCredentials engine scan client
                                         frameworks creds d t))
                   = benchmarksRun
                       (stateOf (scanPairs clock rt decryptCredentials engine scan client
                                           frameworks creds d t))).
    { unfold scanPairs. fold start. apply all_failed; [exact Hdown | congruence]. }
    split; [exact Hall | now apply Hend].
  - intros Hintime Hclock Hdec Hlt Hw.
    assert (HT : timedOutBeforeStart clock scan (scanStart d t) = false).
    { apply beforeStart_false. intros row' Hin' Hid'.
      assert (E : selectCheck scan d = Some row')
        by (rewrite <- Hid'; now apply selectCheck_unique).
      rewrite Hrow in E. injection E as <-. exact Hintime. }
    unfold scanPairs in *. fold start in Hclock, Hlt, Hw |- *.
    pose proof (loops_not_stopped clock rt decryptCredentials engine scan client
                  frameworks creds (clock t) start Hclock Hdec) as Hnext.
    pose proof (eachCredential_flow clock rt decryptCredentials engine scan client
                  frameworks (clock t) creds start) as Hflow.
    unfold executeScan, scanPairs. fold start. rewrite HT.
    set (s1 := stateOf (eachCredential clock rt decryptCredentials engine scan client
                                       frameworks (clock t) creds start)) in *.
    rewrite Hnext in Hflow |- *.
    destruct (runs_row clock rt scan client frameworks _ _ row Hflow Hstart)
      as (row1 & Hrow1 & _).
    unfold finalizeScan.
    replace ((0 <? benchmarksRun s1)%nat && (benchmarksFailed s1 =? benchmarksRun s1)%nat)
      with false
      by (symmetry; apply andb_false_iff; right; apply Nat.eqb_neq; lia).
    replace (benchmarksRun s1 =? 0)%nat with false
      by (symmetry; apply Nat.eqb_neq; lia).
    destruct (completeScan_stored clock rt scan s1 row1 Hw Hrow1)
      as (row' & H1 & _ & _ & H4 & H5 & H6 & H7 & H8 & H9 & H10 & H11).
    exists row'. repeat split; assumption.
  - intros Hno. unfold scanPairs. fold start.
    now apply succeeded_loops.
Qed.

End RunClaims.
Lemma C4_timeout_checkpoints_witness :
  ExRun.slowRun = failScan ExScan.slow 7 (read ExRun.afterCis)
  /\ statusOf 7 (db ExRun.slowRun) = Some "failed"
  /\ benchmarksRun ExRun.slowRun = 1%nat
  /\ List.length (findingsOf 7 (findings (db ExRun.slowRun))) = 2%nat.
Proof.
  pose proof (C4_timeout_checkpoints ExScan.slow ExScan.runtime ExScan.decrypt
                ExScan.engineUp 7 1 ["CIS"; "HIPAA"] ExScan.creds ExScan.store 0
                (mkCheck 7 1 ["CIS"] "in_progress" 0 0 0 0 0 0 None None 0)) as H.
  cbv zeta in H.
  assert (Hnd : NoDup (map check_id (compliance_checks ExScan.store))).
  { repeat constructor; simpl; intuition discriminate. }
  assert (Hin : In (mkCheck 7 1 ["CIS"] "in_progress" 0 0 0 0 0 0 None None 0)
                   (compliance_checks ExScan.store)) by (right; left; reflexivity).
  destruct (H Hnd Hin eq_refl) as (_ & Hbegun).
  assert (H0 : ExScan.slow 1 - 0 <= 1800000) by (vm_compute; discriminate).
  destruct (Hbegun H0) as (_ & _ & Hcred).
  destruct (Hcred [] (mkCredential 2 1 "aws" "{}" true) [] ExRun.slowStart
                  eq_refl eq_refl) as (_ & Hpair).
  assert (H1 : ExScan.slow (tick ExRun.slowStart) - ExScan.slow 0 <= 1800000)
    by (vm_compute; discriminate).
  assert (H2 : eachFramework ExScan.slow ExScan.runtime ExScan.engineUp 7 1
                             (ExScan.slow 0) "{}"
                             (provider (mkCredential 2 1 "aws" "{}" true)) ["CIS"]
                             (read ExRun.slowStart)
               = Next ExRun.afterCis) by (vm_compute; reflexivity).
  assert (H3 : ExScan.slow (tick ExRun.afterCis) - ExScan.slow 0 > 1800000)
    by (vm_compute; reflexivity).
  destruct (Hpair H1 "{}" eq_refl ["CIS"] "HIPAA" [] ExRun.afterCis eq_refl H2)
    as (Hlate & _).
  destruct (Hlate H3) as (Hrun & Hst & _).
  split; [exact Hrun|]. split; [exact Hst|]. split; vm_compute; reflexivity.
Defined.

Lemma C5_final_status_witness :
  exists row',
    selectCheck 7
      (db (executeScan ExScan.steady ExScan.runtime ExScan.decrypt ExScan.engineUp 7 1
                       ["CIS"] ExScan.creds ExScan.store 0)) = Some row'
    /\ check_status row' = "completed"
    /\ total_controls row' = 2%nat
    /\ passed_controls row' = 1%nat.
Proof.
  pose proof (C5_final_status ExScan.steady ExScan.runtime ExScan.decrypt
                ExScan.engineUp 7 1 ["CIS"] ExScan.creds ExScan.store 0
                (mkCheck 7 1 ["CIS"] "in_progress" 0 0 0 0 0 0 None None 0)) as H.
  cbv zeta in H.
  assert (Hnd : NoDup (map check_id (compliance_checks ExScan.store))).
  { repeat constructor; simpl; intuition discriminate. }
  assert (Hin : In (mkCheck 7 1 ["CIS"] "in_progress" 0 0 0 0 0 0 None None 0)
                   (compliance_checks ExScan.store)) by (right; left; reflexivity).
  destruct (H Hnd Hin eq_refl) as (_ & _ & _ & Hdone & _).
  set (s1 := stateOf (scanPairs ExScan.steady ExScan.runtime ExScan.decrypt
                                ExScan.engineUp 7 1 ["CIS"] ExScan.creds
                                ExScan.store 0)) in *.
  evaluated (tick s1) as Etick.
  evaluated (totalControls s1) as Etotal.
  evaluated (passedControls s1) as Epassed.
  assert (H0 : ExScan.steady 1 - 0 <= 1800000) by (vm_compute; discriminate).
  assert (H1 : forall n, (n < tick s1)%nat -> ExScan.steady n - ExScan.steady 0 <= 1800000).
  { intros n Hn. rewrite Etick in Hn. unfold ExScan.steady. lia. }
  assert (H2 : forall c, In c ExScan.creds ->
                         ExScan.decrypt (encrypted_credentials c) <> None)
    by (intros c _; discriminate).
  assert (H3 : (benchmarksFailed s1 < benchmarksRun s1)%nat) by (vm_compute; lia).
  assert (H4 : forallb (warningStorable ExScan.runtime) (verificationWarnings s1) = true)
    by (vm_compute; reflexivity).
  destruct (Hdone H0 H1 H2 H3 H4) as (row' & Hsel & Hst & Htot & Hpass & _).
  exists row'. split; [exact Hsel|]. split; [exact Hst|].
  rewrite Htot, Hpass, Etotal, Epassed. split; reflexivity.
Defined.

(** C5 as stated fails: scan 7 over CIS with two credentials, the second
    of which cannot be decrypted.  The one attempted pair succeeds (the
    engine's answer is transformed and its two controls are written), no
    reading of the clock is beyond the budget, and the scan ends failed:
    the exception of the decryption reaches the outer handler. *)
Lemma C5_failed_after_a_success :
  let pairs := scanPairs ExScan.steady ExScan.runtime ExScan.decryptSome
                         ExScan.engineUp 7 1 ["CIS"] ExRun.twoCreds ExScan.store 0 in
  benchmarksRun (stateOf pairs) = 1%nat
  /\ benchmarksFailed (stateOf pairs) = 0%nat
  /\ totalControls (stateOf pairs) = 2%nat
  /\ List.length (findingsOf 7 (findings (db ExRun.brokenRun))) = 2%nat
  /\ (forall n, (n <= tick ExRun.brokenRun)%nat ->
                ExScan.steady n - ExScan.steady 0 <= 1800000)
  /\ ExScan.steady 1 - 0 <= 1800000
  /\ statusOf 7 (db ExRun.brokenRun) = Some "failed".
Proof.
  cbv zeta.
  evaluated (tick ExRun.brokenRun) as Etick.
  split; [vm_compute; reflexivity|]. split; [vm_compute; reflexivity|].
  split; [vm_compute; reflexivity|]. split; [vm_compute; reflexivity|].
  split; [|split; [vm_compute; discriminate | vm_compute; reflexivity]].
  intros n Hn. rewrite Etick in Hn. unfold ExScan.steady. lia.
Qed.

(** With the engine down, the one attempted pair fails and the scan ends
    failed. *)
Example all_pairs_fail :
  statusOf 7 (db (executeScan ExScan.steady ExScan.runtime ExScan.decrypt
                              ExScan.engineDown 7 1 ["CIS"] ExScan.creds
                              ExScan.store 0))
  = Some "failed".
Proof. vm_compute. reflexivity. Qed.

(* ================================================================== *)
(** * Claims on submission and on the lifecycle                        *)
(* ================================================================== *)



(** The timeout marking of the [GET] handlers leaves a row read in a
    terminal status as it is. *)
Lemma markIfTimedOut_terminal (clock : nat -> Z) (now : Z) (scan : ComplianceCheck)
    (d : Db) (t : nat) :
  terminal (check_status scan) = true ->
  markIfTimedOut clock now scan d t = (scan, d, t).
Proof.
  unfold terminal, markIfTimedOut. intros H.
  destruct (String.eqb_spec (check_status scan) "in_progress") as [E|_]; [|reflexivity].
  rewrite E in H. discriminate H.
Qed.

(** The final update of [executeScan] does not look at the status it
    replaces. *)
Lemma completeScan_overwrites (clock : nat -> Z) (rt : Runtime) (scan : uuid)
    (s : ScanState) (row : ComplianceCheck) :
  forallb (warningStorable rt) (verificationWarnings s) = true ->
  selectCheck scan (db s) = Some row ->
  statusOf scan (db (completeScan clock rt scan s)) = Some "completed".
Proof.
  intros Hw H.
  destruct (completeScan_stored clock rt scan s row Hw H) as (row' & Hsel & _ & _ & Hst & _).
  unfold statusOf. now rewrite Hsel, <- Hst.
Qed.

(** C10 on the code: scan 7 is in progress when the engine is invoked;
    the list endpoint, served while the engine runs past the budget, marks
    it failed; when the engine's result arrives the run goes on and its
    final update turns the failed scan into a completed one.  With no
    request in between, the same steps are the whole of [executeScan]. *)
Theorem C10_failed_scan_turns_completed :
  statusOf 7 (db ExRace.atEngine) = Some "in_progress"
  /\ statusOf 7 (snd (fst ExRace.polled)) = Some "failed"
  /\ terminal "failed" = true
  /\ statusOf 7 (db ExRace.resumed) = Some "failed"
  /\ statusOf 7 (db ExRace.finished) = Some "completed"
  /\ ExRace.undisturbed
     = finalizeScan ExScan.slow ExScan.runtime 7
         (runBenchmark ExScan.slow ExScan.runtime ExScan.engineUp 7 1
                       (Named "aws_compliance.benchmark.cis_v140") "{}"
                       "aws" "CIS" ExRace.atEngine).
Proof. repeat split; vm_compute; reflexivity. Qed.

(** X1: the normalized controls are listed in the order in which their
    ids are first met by the depth-first traversal; no id appears twice,
    and a control without an id contributes no record. *)
Theorem X1_ids_in_first_seen_order (result : Item) :
  map control_id (allControls result) = firstSeen (idsOf result)
  /\ NoDup (map control_id (allControls result))
  /\ (forall k, In k (map control_id (allControls result)) <->
                k <> "" /\ exists c, In c (flatten result) /\ idOf c = k).
Proof.
  rewrite NormalizerMore.allControls_ids. split; [reflexivity|].
  split; [apply NormalizerMore.firstSeen_NoDup|].
  intros k. rewrite NormalizerMore.firstSeen_In. unfold idsOf.
  rewrite filter_In, in_map_iff, negb_true_iff, String.eqb_neq. split.
  - intros [(c & Hc & Hin) Hk]. split; [exact Hk | now exists c].
  - intros [Hk (c & Hin & Hc)]. split; [now exists c | exact Hk].
Qed.

(** X2: a result that [runPowerpipeBenchmark] transforms carries at
    least one control, with distinct non-empty ids; its summary counts
    every control in exactly one of passed, failed, error and skip, and
    permission issues are reported exactly when some control has the
    permission flag. *)
Theorem X2_transformed_result_summary (benchmarkName : string) (out : EngineOutput)
    (r : PowerpipeBenchmarkResult) :
  runPowerpipeBenchmark benchmarkName out = Transformed r ->
  controls r <> []
  /\ benchmark r = benchmarkName
  /\ NoDup (map control_id (controls r))
  /\ Forall (fun t => control_id t <> "") (controls r)
  /\ total (summary r) = List.length (controls r)
  /\ total (summary r)
     = (passed (summary r) + failed (summary r) + errors (summary r)
        + skipped (summary r))%nat
  /\ (permission_errors (summary r) <= total (summary r))%nat
  /\ (permission_issues_detected (verification r) = true <->
      exists t, In t (controls r) /\ permission_error t = true).
Proof.
  unfold runPowerpipeBenchmark. destruct out as [|result raw]; [discriminate|].
  destruct (allControls result) as [|t0 ts] eqn:E.
  { destruct (resultShaped raw); [discriminate|]. destruct (truthyJ _); discriminate. }
  intros [= <-]. cbn [controls benchmark summary verification].
  rewrite <- E.
  split; [rewrite E; discriminate|]. split; [reflexivity|].
  split; [rewrite NormalizerMore.allControls_ids; apply NormalizerMore.firstSeen_NoDup|].
  split.
  { apply Forall_forall. intros t Hin. now apply allControls_kept in Hin. }
  split; [reflexivity|].
  split; [apply NormalizerMore.count_partition|].
  split; [apply NormalizerMore.filter_length_le|].
  rewrite NormalizerMore.verify_permission_issues.
  cbn [summarize permission_errors].
  unfold countPermissionErrors. rewrite Nat.ltb_lt. split.
  - intros Hpos. destruct (filter permission_error (allControls result)) as [|t ts'] eqn:F;
      [simpl in Hpos; lia|].
    exists t. apply filter_In. rewrite F. now left.
  - intros (t & Hin & Hp).
    assert (Hf : In t (filter permission_error (allControls result)))
      by (apply filter_In; now split).
    destruct (filter permission_error (allControls result)); [destruct Hf | simpl; lia].
Qed.

Lemma X2_transformed_result_summary_witness :
  exists r,
    runPowerpipeBenchmark "aws_compliance.benchmark.cis_v140" (Parsed Ex.twice (JObj []))
    = Transformed r
    /\ total (summary r) = 2%nat
    /\ permission_issues_detected (verification r) = true.
Proof.
  eexists. split; [reflexivity|].
  destruct (X2_transformed_result_summary
              "aws_compliance.benchmark.cis_v140" (Parsed Ex.twice (JObj [])) _ eq_refl)
    as (_ & _ & _ & _ & Htotal & _ & _ & Hperm).
  split; [exact Htotal|].
  apply Hperm. exists (transformedControl "cis_2_1" Ex.denied).
  split; [right; left; reflexivity | reflexivity].
Defined.

(* ================================================================== *)
(** * Benchmark names, inventory and discovery                         *)
(* ================================================================== *)

Module Names.

Lemma prefix_split (p s : string) :
  String.prefix p s = true -> exists r, s = (p ++ r)%string.
Proof.
  revert s. induction p as [|a p IH]; intros s H.
  - now exists s.
  - destruct s as [|b s]; [discriminate|]. simpl in H.
    destruct (ascii_dec a b) as [->|]; [|discriminate].
    destruct (IH s H) as (r & ->). now exists r.
Qed.

Lemma includes_sound (s sub : string) : Js.includes s sub = true -> contains s sub.
Proof.
  induction s as [|c s IH]; cbn [Js.includes]; intros H.
  - rewrite orb_false_r in H. destruct (prefix_split _ _ H) as (r & Hr).
    exists ""%string, r. exact Hr.
  - apply orb_true_iff in H. destruct H as [H|H].
    + destruct (prefix_split _ _ H) as (r & Hr). exists ""%string, r. exact Hr.
    + destruct (IH H) as (a & b & ->). now exists (String c a), b.
Qed.

Lemma includes_iff (s sub : string) : Js.includes s sub = true <-> contains s sub.
Proof. split; [apply includes_sound | apply JsFacts.includes_contains]. Qed.

(** A text that includes [x ++ y] includes [x] and includes [y]. *)
Lemma includes_part_l (s x y : string) :
  Js.includes s (x ++ y) = true -> Js.includes s x = true.
Proof.
  intros H. apply includes_iff. apply includes_iff in H.
  exact (JsFacts.contains_left _ _ _ H).
Qed.

Lemma includes_part_r (s x y : string) :
  Js.includes s (x ++ y) = true -> Js.includes s y = true.
Proof.
  intros H. apply includes_iff. apply includes_iff in H.
  destruct H as (a & b & ->). exists (a ++ x)%string, b.
  now rewrite !JsFacts.append_assoc.
Qed.



Lemma orNull_Some (o : option string) (s : string) : Js.orNull o = Some s -> o = Some s.
Proof.
  destruct o as [[|x b]|]; unfold Js.orNull; simpl; intros H;
    [discriminate H | exact H | discriminate H].
Qed.

Lemma inventory_flatten (item : Item) :
  forall acc, inventoryControls item acc = fold_left pushControl (flatten item) acc.
Proof.
  induction item as [cs groups IH] using Normalizer.Item_nested_ind. intros acc.
  cbn [inventoryControls flatten]. rewrite fold_left_app.
  set (acc1 := fold_left pushControl match cs with Some l => l | None => [] end acc).
  replace (match cs with Some l => fold_left pushControl l acc | None => acc end)
    with acc1 by (subst acc1; destruct cs; reflexivity).
  clearbody acc1. destruct groups as [gs|]; [|reflexivity].
  revert acc1. induction IH as [|g gs Hg _ IHgs]; intros acc1; [reflexivity|].
  rewrite fold_left_app, <- Hg. apply IHgs.
Qed.

Lemma truthy_id (c : RawControl) :
  Js.truthy (raw_control_id c) = negb (String.eqb (idOf c) "").
Proof. unfold idOf. now destruct (raw_control_id c) as [[|x s]|]. Qed.

Lemma inventory_ids (l : list RawControl) :
  forall acc,
    map inv_control_id (fold_left pushControl l acc)
    = (map inv_control_id acc
       ++ filter (fun k => negb (String.eqb k "")) (map idOf l))%list.
Proof.
  induction l as [|c l IH]; intros acc; [simpl; now rewrite app_nil_r|].
  cbn [fold_left map filter]. rewrite IH. unfold pushControl.
  rewrite truthy_id. fold (idOf c).
  destruct (negb (String.eqb (idOf c) "")); [|reflexivity].
  rewrite map_app. cbn [map inv_control_id]. now rewrite <- app_assoc.
Qed.

End Names.



(** Keys that are not in the table: a provider named
    constructor and a framework named name reach the name of a
    function of the runtime. *)
Example inherited_benchmark_name :
  getBenchmarkName ExScan.runtime "name" "constructor" = Some (Named "Object")
  /\ getBenchmarkName ExScan.runtime "constructor" "aws"
     = Some (Foreign "function Object() { [native code] }").
Proof. split; reflexivity. Qed.

(** X5: a control id that contains "164.312" is put under Access
    Control, because "312" is tested first; the domain Encryption is
    given only to ids that contain "encrypt" and neither "access" nor
    "312". *)
Theorem X5_domain_of_164_312 (controlId : string) :
  (contains controlId "164.312" ->
   extractDomainFromControl controlId = Some "Access Control")
  /\ (extractDomainFromControl controlId = Some "Encryption" ->
      Js.includes controlId "encrypt" = true
      /\ Js.includes controlId "access" = false
      /\ Js.includes controlId "312" = false
      /\ Js.includes controlId "164.312" = false).
Proof.
  unfold extractDomainFromControl. split.
  - intros H. apply JsFacts.includes_contains in H.
    change "164.312" with ("164." ++ "312")%string in H.
    apply Names.includes_part_r in H. rewrite H, orb_true_r. reflexivity.
  - destruct (Js.includes controlId "access") eqn:Ha; [discriminate|].
    destruct (Js.includes controlId "312") eqn:H3; [discriminate|].
    assert (H164 : Js.includes controlId "164.312" = false).
    { destruct (Js.includes controlId "164.312") eqn:E; [|reflexivity].
      change "164.312" with ("164." ++ "312")%string in E.
      apply Names.includes_part_r in E. congruence. }
    rewrite H164. cbn [orb]. rewrite orb_false_r.
    destruct (Js.includes controlId "encrypt"); [auto|].
    destruct (_ || _); [discriminate|]. destruct (_ || _); discriminate.
Qed.

Lemma X5_domain_of_164_312_witness :
  contains "hipaa_164.312_e_1_encryption" "164.312"
  /\ extractDomainFromControl "hipaa_164.312_e_1_encryption" = Some "Access Control".
Proof.
  assert (H : contains "hipaa_164.312_e_1_encryption" "164.312")
    by (exists "hipaa_"%string, "_e_1_encryption"%string; reflexivity).
  destruct (X5_domain_of_164_312 "hipaa_164.312_e_1_encryption") as (Hd & _).
  exact (conj H (Hd H)).
Defined.

(** X6: the inventory endpoint lists every occurrence of a control with
    an id, in traversal order; the normalizer's controls are the
    inventory's ids with repeats removed, so the inventory is never
    shorter, and the two totals agree exactly when no id repeats. *)
Theorem X6_inventory_and_normalizer (result : Item) :
  map inv_control_id (benchmarkInventory result) = idsOf result
  /\ map control_id (allControls result)
     = firstSeen (map inv_control_id (benchmarkInventory result))
  /\ (List.length (allControls result) <= List.length (benchmarkInventory result))%nat
  /\ (List.length (allControls result) = List.length (benchmarkInventory result) <->
      NoDup (map inv_control_id (benchmarkInventory result))).
Proof.
  assert (Hinv : map inv_control_id (benchmarkInventory result) = idsOf result).
  { unfold benchmarkInventory, idsOf.
    now rewrite Names.inventory_flatten, Names.inventory_ids. }
  assert (Hn : map control_id (allControls result)
               = firstSeen (map inv_control_id (benchmarkInventory result)))
    by (rewrite Hinv; apply NormalizerMore.allControls_ids).
  split; [exact Hinv|]. split; [exact Hn|].
  rewrite <- (length_map control_id (allControls result)), Hn.
  rewrite <- (length_map inv_control_id (benchmarkInventory result)).
  split; [apply NormalizerMore.firstSeen_length | apply NormalizerMore.firstSeen_same_length].
Qed.

(** X7: with a provider given, [discoverAvailableBenchmarks] keeps the
    entries whose name starts with the provider's prefix and cannot fail
    on them: one description per kept entry, each name with the prefix,
    and for "aws" each classified as aws.  Without a provider, one entry
    that has neither [name] nor [benchmark] makes the whole call fail. *)
Theorem X7_discovery_with_provider (p : string) (benchmarks : list BenchmarkEntry) :
  (p <> "" ->
   exists found,
     discoverFrom (Some p) benchmarks = Some found
     /\ List.length found
        = List.length
            (filter (startsWithPrefix (Js.toLowerCase p ++ "_compliance.benchmark."))
                    benchmarks)
     /\ Forall (fun d => String.prefix (Js.toLowerCase p ++ "_compliance.benchmark.")
                                       (d_name d) = true) found
     /\ (Js.toLowerCase p = "aws" -> Forall (fun d => d_provider d = "aws") found))
  /\ ((exists b, In b benchmarks /\ describe b = None) ->
      discoverFrom None benchmarks = None).
Proof.
  split.
  - intros Hp. unfold discoverFrom.
    assert (Ht : Js.truthy (Some p) = true) by (destruct p; [now elim Hp | reflexivity]).
    rewrite Ht.
    set (pre := (Js.toLowerCase p ++ "_compliance.benchmark.")%string).
    assert (Hpre : forall n, String.prefix pre n = true -> n <> "").
    { intros n H ->. subst pre. destruct (Js.toLowerCase p); discriminate H. }
    induction benchmarks as [|b bs IH].
    + exists []. repeat split; constructor.
    + cbn [filter]. destruct (startsWithPrefix pre b) eqn:E; [|exact IH].
      destruct IH as (found & Hall & Hlen & Hpref & Haws).
      assert (Hd : exists n, describe b
                             = Some (mkDiscovered n (extractedProvider n)
                                                  (discoveredFramework n)
                                                  match b with
                                                  | EntryName _ => None
                                                  | EntryObject _ _ count => count
                                                  end)
                             /\ String.prefix pre n = true).
      { destruct b as [n|[n|] f count]; simpl in E; try discriminate.
        - exists n. now split.
        - exists n. split; [|exact E]. unfold describe, Js.or.
          pose proof (Hpre n E) as Hne. destruct n; [now elim Hne | reflexivity]. }
      destruct Hd as (n & Hd & Hn).
      eexists. cbn [describeAll]. rewrite Hd, Hall. split; [reflexivity|].
      split; [simpl; now rewrite Hlen|].
      split; [constructor; [exact Hn | exact Hpref]|].
      intros Hlow. constructor; [|now apply Haws].
      cbn [d_provider]. unfold extractedProvider.
      subst pre. rewrite Hlow in Hn.
      destruct (Names.prefix_split _ _ Hn) as (r & ->).
      change ("aws" ++ "_compliance.benchmark.")%string
        with ("aws_compliance" ++ ".benchmark.")%string.
      rewrite JsFacts.append_assoc.
      now rewrite (JsFacts.includes_prefix _ _
                     (JsFacts.prefix_app "aws_compliance" (".benchmark." ++ r))).
  - intros (b & Hin & Hnone). unfold discoverFrom.
    induction benchmarks as [|b' bs IH]; [destruct Hin|].
    cbn [describeAll]. destruct Hin as [->|Hin].
    + now rewrite Hnone.
    + destruct (describe b'); [|reflexivity]. now rewrite (IH Hin).
Qed.

Lemma X7_discovery_with_provider_witness :
  "AWS" <> ""
  /\ (exists found,
        discoverFrom (Some "AWS")
          [EntryName "aws_compliance.benchmark.cis_v140";
           EntryObject None None None;
           EntryObject (Some "azure_compliance.benchmark.cis_v200") None (Some 12%nat)]
        = Some found
        /\ List.length found = 1%nat
        /\ Forall (fun d => d_provider d = "aws") found)
  /\ discoverFrom None
       [EntryName "aws_compliance.benchmark.cis_v140";
        EntryObject None None None;
        EntryObject (Some "azure_compliance.benchmark.cis_v200") None (Some 12%nat)]
     = None.
Proof.
  assert (H : "AWS" <> "") by discriminate.
  destruct (X7_discovery_with_provider "AWS"
              [EntryName "aws_compliance.benchmark.cis_v140";
               EntryObject None None None;
               EntryObject (Some "azure_compliance.benchmark.cis_v200") None
                           (Some 12%nat)])
    as (Hsome & Hfail).
  split; [exact H|]. split.
  - destruct (Hsome H) as (found & Hd & Hlen & _ & Haws).
    exists found. split; [exact Hd|]. split; [exact Hlen | apply Haws; reflexivity].
  - apply Hfail. exists (EntryObject None None None).
    split; [right; left|]; reflexivity.
Defined.

(* ================================================================== *)
(** * Locating the JSON                                                *)
(* ================================================================== *)

Module ExtractFacts.

Import Extract.

Lemma app_String (c : ascii) (a b : string) :
  (String c a ++ b = String c (a ++ b))%string.
Proof. reflexivity. Qed.

Lemma length_app (a b : string) :
  String.length (a ++ b) = (String.length a + String.length b)%nat.
Proof. induction a as [|c a IH]; simpl; [reflexivity | now rewrite IH]. Qed.

Lemma plain_spec (c : ascii) :
  plain c = true ->
  Ascii.eqb c "{" = false /\ Ascii.eqb c "}" = false /\ Ascii.eqb c "[" = false
  /\ Ascii.eqb c "]" = false /\ Ascii.eqb c quote = false
  /\ Ascii.eqb c backslash = false.
Proof.
  unfold plain. rewrite negb_true_iff, !orb_false_iff. tauto.
Qed.

(** Inside a string literal the loop only looks for the closing quote. *)
Lemma scan_string (body : string) :
  StrBody body ->
  forall rest i b k,
    scan (body ++ String quote rest) i b k true false
    = scan rest (i + String.length body + 1) b k false false.
Proof.
  induction 1 as [|c r Hq Hb _ IH|c r _ IH]; intros rest i b k.
  - cbn. f_equal. lia.
  - rewrite app_String. cbn [scan]. rewrite Hb, Hq, IH. f_equal. simpl. lia.
  - rewrite !app_String. cbn [scan].
    replace (Ascii.eqb backslash backslash) with true by reflexivity.
    rewrite IH. f_equal. simpl. lia.
Qed.

(** Across bracketed text the loop does not break while a bracket is
    open, and comes out with the counters it went in with. *)
Lemma scan_elems (inner : string) :
  Elems inner ->
  forall rest i b k,
    (1 <= i)%nat -> 0 <= b -> 0 <= k -> 1 <= b + k ->
    scan (inner ++ rest) i b k false false
    = scan rest (i + String.length inner) b k false false.
Proof.
  induction 1 as [|c r Hc _ IH|body r Hbody _ IH
                  |inner r _ IHin _ IHr|inner r _ IHin _ IHr];
    intros rest i b k Hi Hb Hk Hbk.
  - simpl. f_equal. lia.
  - destruct (plain_spec c Hc) as (H1 & H2 & H3 & H4 & H5 & H6).
    rewrite app_String. cbn [scan]. rewrite H6, H5, H1, H2, H3, H4.
    replace ((b =? 0) && (k =? 0)) with false
      by (symmetry; apply andb_false_iff;
          destruct (Z.eqb_spec b 0); [right; apply Z.eqb_neq; lia | now left]).
    cbn [andb]. rewrite IH by lia. f_equal. simpl. lia.
  - rewrite app_String, JsFacts.append_assoc, app_String. cbn [scan].
    replace (Ascii.eqb quote backslash) with false by reflexivity.
    replace (Ascii.eqb quote quote) with true by reflexivity.
    cbn [negb]. rewrite (scan_string body Hbody), IH by lia.
    f_equal. simpl. rewrite length_app. simpl. lia.
  - rewrite app_String, JsFacts.append_assoc, app_String. cbn [scan].
    replace (Ascii.eqb "{" backslash) with false by reflexivity.
    replace (Ascii.eqb "{" quote) with false by reflexivity.
    replace (Ascii.eqb "{" "{") with true by reflexivity.
    replace (Ascii.eqb "{" "}") with false by reflexivity.
    replace (Ascii.eqb "{" "[") with false by reflexivity.
    replace (Ascii.eqb "{" "]") with false by reflexivity.
    replace (b + 1 =? 0) with false by (symmetry; apply Z.eqb_neq; lia).
    cbn [andb]. rewrite IHin by lia. cbn [scan].
    replace (Ascii.eqb "}" backslash) with false by reflexivity.
    replace (Ascii.eqb "}" quote) with false by reflexivity.
    replace (Ascii.eqb "}" "{") with false by reflexivity.
    replace (Ascii.eqb "}" "}") with true by reflexivity.
    replace (Ascii.eqb "}" "[") with false by reflexivity.
    replace (Ascii.eqb "}" "]") with false by reflexivity.
    replace (b + 1 - 1) with b by lia.
    replace ((b =? 0) && (k =? 0)) with false
      by (symmetry; apply andb_false_iff;
          destruct (Z.eqb_spec b 0); [right; apply Z.eqb_neq; lia | now left]).
    cbn [andb]. rewrite IHr by lia. f_equal. simpl. rewrite length_app. simpl. lia.
  - rewrite app_String, JsFacts.append_assoc, app_String. cbn [scan].
    replace (Ascii.eqb "[" backslash) with false by reflexivity.
    replace (Ascii.eqb "[" quote) with false by reflexivity.
    replace (Ascii.eqb "[" "{") with false by reflexivity.
    replace (Ascii.eqb "[" "}") with false by reflexivity.
    replace (Ascii.eqb "[" "[") with true by reflexivity.
    replace (Ascii.eqb "[" "]") with false by reflexivity.
    replace (k + 1 =? 0) with false by (symmetry; apply Z.eqb_neq; lia).
    rewrite andb_false_r. cbn [andb]. rewrite IHin by lia. cbn [scan].
    replace (Ascii.eqb "]" backslash) with false by reflexivity.
    replace (Ascii.eqb "]" quote) with false by reflexivity.
    replace (Ascii.eqb "]" "{") with false by reflexivity.
    replace (Ascii.eqb "]" "}") with false by reflexivity.
    replace (Ascii.eqb "]" "[") with false by reflexivity.
    replace (Ascii.eqb "]" "]") with true by reflexivity.
    replace (k + 1 - 1) with k by lia.
    replace ((b =? 0) && (k =? 0)) with false
      by (symmetry; apply andb_false_iff;
          destruct (Z.eqb_spec b 0); [right; apply Z.eqb_neq; lia | now left]).
    cbn [andb]. rewrite IHr by lia. f_equal. simpl. rewrite length_app. simpl. lia.
Qed.

(** On a document the loop breaks at its closing bracket. *)
Lemma scan_document (doc : string) :
  Document doc ->
  forall post, scan (doc ++ post) 0 0 0 false false = Some (String.length doc).
Proof.
  intros [inner Hin|inner Hin] post.
  - rewrite app_String, JsFacts.append_assoc, app_String. cbn [scan].
    replace (Ascii.eqb "{" backslash) with false by reflexivity.
    replace (Ascii.eqb "{" quote) with false by reflexivity.
    replace (Ascii.eqb "{" "{") with true by reflexivity.
    replace (Ascii.eqb "{" "}") with false by reflexivity.
    replace (Ascii.eqb "{" "[") with false by reflexivity.
    replace (Ascii.eqb "{" "]") with false by reflexivity.
    cbn [Z.add Z.eqb andb]. rewrite (scan_elems inner Hin) by lia. cbn [scan].
    replace (Ascii.eqb "}" backslash) with false by reflexivity.
    replace (Ascii.eqb "}" quote) with false by reflexivity.
    replace (Ascii.eqb "}" "{") with false by reflexivity.
    replace (Ascii.eqb "}" "}") with true by reflexivity.
    replace (Ascii.eqb "}" "[") with false by reflexivity.
    replace (Ascii.eqb "}" "]") with false by reflexivity.
    cbn. f_equal. rewrite length_app. simpl. lia.
  - rewrite app_String, JsFacts.append_assoc, app_String. cbn [scan].
    replace (Ascii.eqb "[" backslash) with false by reflexivity.
    replace (Ascii.eqb "[" quote) with false by reflexivity.
    replace (Ascii.eqb "[" "{") with false by reflexivity.
    replace (Ascii.eqb "[" "}") with false by reflexivity.
    replace (Ascii.eqb "[" "[") with true by reflexivity.
    replace (Ascii.eqb "[" "]") with false by reflexivity.
    cbn [Z.add Z.eqb andb]. rewrite (scan_elems inner Hin) by lia. cbn [scan].
    replace (Ascii.eqb "]" backslash) with false by reflexivity.
    replace (Ascii.eqb "]" quote) with false by reflexivity.
    replace (Ascii.eqb "]" "{") with false by reflexivity.
    replace (Ascii.eqb "]" "}") with false by reflexivity.
    replace (Ascii.eqb "]" "[") with false by reflexivity.
    replace (Ascii.eqb "]" "]") with true by reflexivity.
    cbn. f_equal. rewrite length_app. simpl. lia.
Qed.

Lemma trimEnd_keeps (a : string) (c : ascii) (b : string) :
  isWhitespace c = false ->
  trimEnd (a ++ String c b) = (a ++ String c (trimEnd b))%string.
Proof.
  intros Hc. induction a as [|x a IH].
  - cbn [String.append trimEnd]. rewrite Hc. now destruct (trimEnd b).
  - rewrite app_String. cbn [trimEnd]. rewrite IH.
    now destruct a.
Qed.

Lemma substring_prefix (a b : string) : substring 0 (String.length a) (a ++ b) = a.
Proof.
  induction a as [|c a IH]; simpl; [now destruct b | now rewrite IH].
Qed.

Lemma afterPreamble_skips (pre rest : string) (c : ascii) :
  noOpen pre = true -> isOpen c = true ->
  afterPreamble (pre ++ String c rest) = String c rest.
Proof.
  intros Hpre Hc. unfold afterPreamble.
  assert (H : fromFirstOpen (pre ++ String c rest) = Some (String c rest)).
  { induction pre as [|x pre IH].
    - cbn. now rewrite Hc.
    - cbn in Hpre |- *. apply andb_true_iff in Hpre. destruct Hpre as [Hx Hpre].
      apply negb_true_iff in Hx. rewrite Hx. now apply IH. }
  now rewrite H.
Qed.

(** A document is an opening bracket, and ends in a closing one. *)
Lemma document_shape (doc : string) :
  Document doc ->
  exists o body c,
    doc = String o (body ++ String c EmptyString)
    /\ isOpen o = true /\ isWhitespace o = false /\ isWhitespace c = false.
Proof.
  intros [inner _|inner _]; [exists "{"%char, inner, "}"%char
                            | exists "["%char, inner, "]"%char];
    repeat split.
Qed.

Lemma jsonText_document (pre doc post : string) :
  noOpen pre = true -> Document doc ->
  jsonText (pre ++ doc ++ post) = doc.
Proof.
  intros Hpre Hdoc.
  destruct (document_shape doc Hdoc) as (o & body & c & Hshape & Ho & Hwo & Hwc).
  unfold jsonText.
  assert (Hdp : forall x, (doc ++ x)%string = (String o body ++ String c x)%string).
  { intros x. rewrite Hshape. simpl. now rewrite JsFacts.append_assoc. }
  assert (Hafter : afterPreamble (pre ++ doc ++ post) = (doc ++ post)%string).
  { rewrite Hdp. cbn [String.append]. now apply afterPreamble_skips. }
  assert (Htrim : trim (doc ++ post) = (doc ++ trimEnd post)%string).
  { unfold trim. rewrite !Hdp. cbn [String.append trimStart]. rewrite Hwo.
    exact (trimEnd_keeps (String o body) c post Hwc). }
  rewrite Hafter, Htrim. unfold jsonEnd.
  rewrite (scan_document doc Hdoc). apply substring_prefix.
Qed.

End ExtractFacts.

(** X3: when the engine's output is a preamble without '{' or '[', then
    an object or array whose brackets match (string literals may hold
    any bracket), then any trailer, the text handed to [JSON.parse] is
    that object or array and nothing else. *)
Theorem X3_json_located (pre doc post : string) :
  Extract.noOpen pre = true ->
  Extract.Document doc ->
  Extract.jsonText (pre ++ doc ++ post) = doc.
Proof. apply ExtractFacts.jsonText_document. Qed.

Lemma X3_json_located_witness :
  Extract.noOpen "A new version is available " = true
  /\ Extract.Document ExMore.document
  /\ Extract.jsonText ExMore.output = ExMore.document.
Proof.
  assert (Hpre : Extract.noOpen "A new version is available " = true) by reflexivity.
  assert (Hdoc : Extract.Document ExMore.document).
  { apply (Extract.doc_array "{},[1,2]").
    apply (Extract.el_object "" ",[1,2]" Extract.el_nil).
    apply Extract.el_plain; [reflexivity|].
    apply (Extract.el_array "1,2" ""); [|constructor].
    repeat (apply Extract.el_plain; [reflexivity|]). constructor. }
  split; [exact Hpre|]. split; [exact Hdoc|].
  exact (X3_json_located "A new version is available " ExMore.document " done "
                         Hpre Hdoc).
Defined.

(* ================================================================== *)
(** * Further properties of the scan run                               *)
(* ================================================================== *)

(** X8: whatever happens during a run, [executeScan] leaves its scan in
    a terminal status: the row of the scan is found failed or completed
    afterwards, with a completion time, and with the client, the
    frameworks and the start time it had. *)
Theorem X8_run_ends_terminal (clock : nat -> Z) (rt : Runtime)
    (decryptCredentials : string -> option string)
    (engine : nat -> string -> string -> string -> EngineOutput)
    (scan client : uuid) (frameworks : list string)
    (creds : list CredentialRow) (d : Db) (t : nat) (row : ComplianceCheck) :
  selectCheck scan d = Some row ->
  exists row',
    selectCheck scan
      (db (executeScan clock rt decryptCredentials engine scan client frameworks
                       creds d t))
    = Some row'
    /\ terminal (check_status row') = true
    /\ completed_at row' <> None
    /\ check_client_id row' = check_client_id row
    /\ check_frameworks row' = check_frameworks row
    /\ started_at row' = started_at row.
Proof.
  intros Hrow.
  destruct (executeScan_row clock rt decryptCredentials engine scan client frameworks
                            creds d t row Hrow)
    as (r & Hr & (_ & Hc & Hf & Hs) & Hcompl & Hst).
  exists r. split; [exact Hr|]. split; [|auto].
  destruct Hst as [->|[-> _]]; reflexivity.
Qed.

Lemma X8_run_ends_terminal_witness :
  exists row',
    selectCheck 7
      (db (executeScan ExScan.slow ExScan.runtime ExScan.decrypt ExScan.engineDown 7 1
                       ["CIS"] ExScan.creds ExScan.store 0)) = Some row'
    /\ terminal (check_status row') = true
    /\ started_at row' = 0.
Proof.
  assert (H : selectCheck 7 ExScan.store
              = Some (mkCheck 7 1 ["CIS"] "in_progress" 0 0 0 0 0 0 None None 0))
    by reflexivity.
  destruct (X8_run_ends_terminal ExScan.slow ExScan.runtime ExScan.decrypt
              ExScan.engineDown 7 1 ["CIS"] ExScan.creds ExScan.store 0 _ H)
    as (row' & Hr & Ht & _ & _ & _ & Hs).
  exists row'. auto.
Defined.

(** X10: a run touches no client, credential or metadata row, adds and
    removes no scan row, and changes no scan row but its own. *)
Theorem X10_run_keeps_other_rows (clock : nat -> Z) (rt : Runtime)
    (decryptCredentials : string -> option string)
    (engine : nat -> string -> string -> string -> EngineOutput)
    (scan client : uuid) (frameworks : list string)
    (creds : list CredentialRow) (d : Db) (t : nat) :
  let d' := db (executeScan clock rt decryptCredentials engine scan client frameworks
                            creds d t) in
  clients d' = clients d
  /\ credentials d' = credentials d
  /\ control_metadata d' = control_metadata d
  /\ map check_id (compliance_checks d') = map check_id (compliance_checks d)
  /\ (forall other, other <> scan -> selectCheck other d' = selectCheck other d)
  /\ (forall c, In c (compliance_checks d) -> check_id c <> scan ->
                In c (compliance_checks d')).
Proof.
  cbv zeta.
  pose proof (executeScan_others clock rt decryptCredentials engine scan client
                                 frameworks creds d t) as H.
  pose proof H as (Hc & Hk & Hm & Hrows).
  split; [exact Hc|]. split; [exact Hk|]. split; [exact Hm|].
  split; [exact (othersKept_ids scan H)|].
  split; [intros other Hne; exact (othersKept_select scan other H Hne)|].
  intros c Hin Hne. clear - Hrows Hin Hne.
  induction Hrows as [|a b l l' [_ Hsame] _ IH]; [destruct Hin|].
  destruct Hin as [->|Hin]; [left; now apply Hsame | right; now apply IH].
Qed.

(** X9: a run of [executeScan], begun or not, keeps every finding of
    another client or of a framework outside its set, and never removes
    or alters a history row: the rows it adds to the history come after
    the old ones, carry its own id as archiver, and are snapshots of
    findings in its scope that were live before the run.  With framework
    names that fit their column, the findings outside its scope are
    afterwards the same, in the same order. *)
Theorem X9_run_is_confined (clock : nat -> Z) (rt : Runtime)
    (decryptCredentials : string -> option string)
    (engine : nat -> string -> string -> string -> EngineOutput)
    (scan client : uuid) (frameworks : list string)
    (creds : list CredentialRow) (d : Db) (t : nat) :
  let d' := db (executeScan clock rt decryptCredentials engine scan client frameworks
                            creds d t) in
  (namesFit frameworks ->
   filter (fun f => negb (inScope client frameworks f)) (findings d')
   = filter (fun f => negb (inScope client frameworks f)) (findings d))
  /\ (forall f, In f (findings d) -> inScope client frameworks f = false ->
                In f (findings d'))
  /\ exists hs,
      findings_history d' = (findings_history d ++ hs)%list
      /\ Forall (fun h => archived_by_scan_id h = scan
                          /\ In (snapshot h) (findings d)
                          /\ inScope client frameworks (snapshot h) = true) hs.
Proof.
  cbv zeta.
  destruct (executeScan_any clock rt decryptCredentials engine client frameworks
                            scan creds d t)
    as (keep & new & hs & Hf & Hkeep & Hnew & Hh & Hhs).
  split; [|split].
  - intros Hfit. rewrite Hf, filter_app.
    rewrite (filter_none (fun f => negb (inScope client frameworks f)) (l := new)).
    + rewrite app_nil_r. destruct Hkeep as [->| ->]; [reflexivity|].
      rewrite filter_filter. apply filter_ext. intros f.
      now destruct (inScope client frameworks f).
    + eapply Forall_impl; [|exact Hnew]. intros f Hown.
      pose proof (ownRow_writtenBy scan client frameworks f Hfit Hown) as Hw.
      now rewrite (writtenBy_inScope client frameworks scan f Hw).
  - intros f Hin Hout. rewrite Hf. apply in_or_app. left.
    destruct Hkeep as [->| ->]; [exact Hin|].
    apply filter_In. split; [exact Hin | now rewrite Hout].
  - exists hs. split; [exact Hh|].
    eapply Forall_impl; [|exact Hhs]. intros h (H1 & H2 & H3). auto.
Qed.

Lemma X9_run_is_confined_witness :
  filter (fun f => negb (inScope 1 ["CIS"] f)) (findings (db ExRun.first))
  = [ExScan.otherFinding]
  /\ In ExScan.otherFinding (findings (db ExRun.first)).
Proof.
  unfold ExRun.first.
  destruct (X9_run_is_confined ExScan.steady ExScan.runtime ExScan.decrypt
              ExScan.engineUp 7 1 ["CIS"] ExScan.creds ExRun.store 1)
    as (Hsame & Hkept & _).
  split.
  - rewrite Hsame; [reflexivity|].
    constructor; [vm_compute; lia | constructor].
  - apply Hkept; [right; left; reflexivity | reflexivity].
Defined.

(* ================================================================== *)
(** * Writing the findings of one benchmark                            *)
(* ================================================================== *)

Section WriteMore.

Variable clock : nat -> Z.
Variables (scan client : uuid).

Lemma clash_iff (ids : list string) (d : Db) :
  clash scan ids d = true
  <-> exists g, In g (findings d) /\ compliance_check_id g = scan
                /\ In (f_control_id g) ids.
Proof.
  unfold clash. rewrite existsb_exists.
  split; intros (g & Hin & H); exists g; (split; [exact Hin|]).
  - apply andb_true_iff in H. destruct H as [H1 H2].
    apply Nat.eqb_eq in H1. apply existsb_exists in H2.
    destruct H2 as (k & Hk & E). apply String.eqb_eq in E. subst. auto.
  - destruct H as [H1 H2]. rewrite H1, Nat.eqb_refl. cbn [andb].
    apply existsb_exists. exists (f_control_id g).
    split; [exact H2 | apply String.eqb_refl].
Qed.

Lemma clash_free (ids : list string) (d : Db) :
  clash scan ids d = false ->
  forall g, In g (findings d) -> compliance_check_id g = scan ->
            ~ In (f_control_id g) ids.
Proof.
  intros H g Hg Hs Hin.
  assert (E : clash scan ids d = true) by (apply clash_iff; now exists g).
  congruence.
Qed.

(** The row kept for a control whose texts fit the columns carries the
    control's texts. *)
Lemma stored_writtenFor (fw : string) (control : Control) (d : Db) (now : Z)
    (mk : uuid -> Finding) (id : uuid) (f : Finding) :
  (String.length fw <= 50)%nat ->
  Some (newFinding client scan fw control
                   (selectMetadata client (control_id control) d) now) = Some mk ->
  stored (mk id) = Some f ->
  fitsColumns control -> writtenFor scan client fw control f.
Proof.
  intros Hfw [= <-] Hst (L1 & L2 & _).
  destruct (StoreFacts.stored_inv _ _ Hst)
    as (_ & H1 & H2 & H3 & H4 & H5 & H6 & _ & H7 & _).
  cbn [newFinding client_id compliance_check_id f_control_id control_title framework
       scan_status scan_reason] in H1, H2, H3, H4, H5, H6, H7.
  rewrite (StoreFacts.varchar_fits _ _ L1) in H3.
  rewrite (StoreFacts.varchar_fits _ _ L2) in H4.
  rewrite (StoreFacts.varchar_fits _ _ Hfw) in H5.
  rewrite (proj1 (StoreFacts.statusText_fits (status control))) in H6.
  injection H3 as H3. injection H4 as H4. injection H5 as H5. injection H6 as H6.
  repeat split; auto.
Qed.

Lemma Forall2_firstn_fits [A B : Type] (P : A -> Prop) (R : A -> B -> Prop)
    (l : list A) (l' : list B) (n : nat) :
  Forall P l ->
  Forall2 (fun a b => P a -> R a b) (firstn n l) l' ->
  Forall2 R (firstn n l) l'.
Proof.
  intros HP. revert l' n. induction HP as [|a l Ha _ IH]; intros l' n H.
  - rewrite firstn_nil in *. inversion H. constructor.
  - destruct n as [|n]; cbn [firstn] in *; inversion H; subst; constructor; auto.
Qed.

(** The rows written by the loop for controls that fit the columns. *)
Lemma writeControls_rows (fw : string) (cs : list Control) (s : ScanState)
    (pc : PairCounts) :
  (String.length fw <= 50)%nat ->
  Forall fitsColumns cs ->
  exists new,
    findings (db (fst (writeControls clock scan client fw cs s pc)))
    = (findings (db s) ++ new)%list
    /\ Forall2 (writtenFor scan client fw) (firstn (List.length new) cs) new
    /\ match snd (writeControls clock scan client fw cs s pc) with
       | Some pc' => List.length new = List.length cs /\ pc' = recount cs pc
       | None => (List.length new < List.length cs)%nat
       end.
Proof.
  intros Hfw Hfit. unfold writeControls.
  match goal with
  | |- context [writeEach ?c ?row ?cnt cs s pc] =>
      destruct (writeEach_written c row cnt
                  (fun control f => fitsColumns control -> writtenFor scan client fw control f)
                  (fun control d now mk id f => stored_writtenFor fw control d now mk id f Hfw)
                  cs s pc) as (new & Hf & Hall & Hend)
  end.
  exists new. split; [exact Hf|]. split; [|exact Hend].
  now apply (Forall2_firstn_fits fitsColumns).
Qed.

(** A finding of the scan already stored under one of the ids stops the
    loop. *)
Lemma writeControls_clash (fw : string) (cs : list Control) :
  Forall fitsColumns cs ->
  forall s pc,
    clash scan (map control_id cs) (db s) = true ->
    snd (writeControls clock scan client fw cs s pc) = None.
Proof.
  unfold writeControls.
  induction 1 as [|control cs Hfit _ IH]; intros s pc Hclash.
  - apply clash_iff in Hclash. destruct Hclash as (g & _ & _ & []).
  - match goal with
    | |- context [writeEach ?c ?row ?cnt (control :: cs) s pc] =>
        destruct (writeEach_cons c row cnt control cs s pc)
          as [(mk & f & Er & Hst & Href & Hcon & ->)| ->]; [|reflexivity]
    end.
    apply IH. apply clash_iff in Hclash. destruct Hclash as (g & Hg & Hs & Hid).
    apply clash_iff. exists g.
    cbn [inserted db findings with_next_id with_findings].
    split; [apply in_or_app; now left|]. split; [exact Hs|].
    destruct Hid as [Hid|Hid]; [|exact Hid]. exfalso.
    injection Er as <-.
    destruct (StoreFacts.stored_inv _ _ Hst) as (_ & _ & H2 & H3 & _).
    cbn [newFinding compliance_check_id f_control_id] in H2, H3.
    destruct Hfit as (L1 & _).
    rewrite (StoreFacts.varchar_fits _ _ L1) in H3. injection H3 as H3.
    apply (proj1 (StoreFacts.conflicts_false_iff f (db s)) Hcon g Hg); congruence.
Qed.

Lemma writtenFor_ids (fw : string) (cs : list Control) (new : list Finding) :
  Forall2 (writtenFor scan client fw) cs new ->
  map f_control_id new = map control_id cs.
Proof.
  induction 1 as [|c f cs' new' (_ & _ & _ & Hid & _) _ IH]; [reflexivity|].
  cbn [map]. now rewrite Hid, IH.
Qed.

End WriteMore.

(** X12: when the engine's output is transformed, the client and the
    scan have their rows, the texts of the controls and the name of the
    framework fit the columns, the metadata table obeys its constraints
    and the scan has no finding yet under any of the result's control
    ids, the benchmark's loop writes one finding per control, in the
    order of the result, for this scan, client and framework, the
    benchmark is not counted as failed, and the running totals grow by
    the counts of the result's summary. *)
Theorem X12_benchmark_written_in_full (clock : nat -> Z) (rt : Runtime)
    (engine : nat -> string -> string -> string -> EngineOutput)
    (scan client : uuid) (b creds prov fw : string) (s : ScanState)
    (r : PowerpipeBenchmarkResult) :
  runPowerpipeBenchmark b (engine (tick s) b creds prov) = Transformed r ->
  rowsExist scan client (db s) ->
  (String.length fw <= 50)%nat ->
  Forall fitsColumns (controls r) ->
  metadataKept (db s) ->
  clash scan (map control_id (controls r)) (db s) = false ->
  let s' := runBenchmark clock rt engine scan client (Named b) creds prov fw s in
  exists new,
    findings (db s') = (findings (db s) ++ new)%list
    /\ Forall2 (writtenFor scan client fw) (controls r) new
    /\ benchmarksFailed s' = benchmarksFailed s
    /\ benchmarksRun s' = S (benchmarksRun s)
    /\ totalControls s' = (totalControls s + total (summary r))%nat
    /\ passedControls s' = (passedControls s + passed (summary r))%nat
    /\ failedControls s' = (failedControls s + failed (summary r))%nat
    /\ errorControls s' = (errorControls s + errors (summary r))%nat
    /\ skipControls s' = (skipControls s + skipped (summary r))%nat.
Proof.
  intros Hr Hrows Hfw Hfit Hmd Hclash. cbv zeta. unfold runBenchmark.
  cbn [started tick]. rewrite Hr.
  destruct (transformed_inv b _ r Hr) as (_ & _ & _ & _ & _ & _ & Hsum & _).
  destruct (processResult_all clock scan client fw b r (started s))
    as (s2 & new & Hrun & Hproc & Hf & Hall); auto.
  { exact (transformed_ids _ _ _ Hr). }
  { exact (clash_free scan _ _ Hclash). }
  pose proof (writeEach_counters clock
                (fun control d now =>
                   Some (newFinding client scan fw control
                                    (selectMetadata client (control_id control) d) now))
                countControl (controls r) (started s) (mkCounts 0 0 0 0 0)) as Hc.
  cbv zeta in Hc. unfold writeControls in Hrun. rewrite Hrun in Hc. cbn [fst] in Hc.
  destruct Hc as (C1 & C2 & C3 & C4 & C5 & _ & C7 & C8 & _).
  destruct (recount_counts (controls r) (mkCounts 0 0 0 0 0)) as (R1 & R2 & R3 & R4).
  rewrite Hproc. exists new.
  cbn [addWarnings addTotals db benchmarksFailed benchmarksRun totalControls
       passedControls failedControls errorControls skipControls].
  rewrite C1, C2, C3, C4, C5, C7, C8, R1, R2, R3, R4, Hsum.
  cbn [started db summarize total passed failed errors skipped benchmarkPassed
       benchmarkFailed benchmarkError benchmarkSkip benchmarksFailed benchmarksRun
       totalControls passedControls failedControls errorControls skipControls plus]
    in *.
  repeat split; auto.
Qed.

(** X13: when the engine's output is transformed, with texts that fit
    the columns, but the scan already has a finding under one of the
    result's control ids, an insert is refused: the benchmark is counted
    as failed and its name recorded, the running totals stay as they
    were, and the findings written for the controls before the refused
    one, fewer than the result's controls, stay in the store. *)
Theorem X13_benchmark_refused_insert (clock : nat -> Z) (rt : Runtime)
    (engine : nat -> string -> string -> string -> EngineOutput)
    (scan client : uuid) (b creds prov fw : string) (s : ScanState)
    (r : PowerpipeBenchmarkResult) :
  runPowerpipeBenchmark b (engine (tick s) b creds prov) = Transformed r ->
  (String.length fw <= 50)%nat ->
  Forall fitsColumns (controls r) ->
  clash scan (map control_id (controls r)) (db s) = true ->
  let s' := runBenchmark clock rt engine scan client (Named b) creds prov fw s in
  benchmarksFailed s' = S (benchmarksFailed s)
  /\ benchmarkErrors s' = (benchmarkErrors s ++ [b])%list
  /\ totalControls s' = totalControls s
  /\ passedControls s' = passedControls s
  /\ failedControls s' = failedControls s
  /\ errorControls s' = errorControls s
  /\ skipControls s' = skipControls s
  /\ exists new,
      findings (db s') = (findings (db s) ++ new)%list
      /\ (List.length new < List.length (controls r))%nat
      /\ Forall2 (writtenFor scan client fw)
                 (firstn (List.length new) (controls r)) new.
Proof.
  intros Hr Hfw Hfit Hclash. cbv zeta. unfold runBenchmark.
  cbn [started tick]. rewrite Hr. unfold processResult.
  destruct (writeControls_rows clock scan client fw (controls r) (started s)
                               (mkCounts 0 0 0 0 0) Hfw Hfit)
    as (new & Hf & Hrows & Hout).
  pose proof (writeControls_clash clock scan client fw (controls r) Hfit (started s)
                                  (mkCounts 0 0 0 0 0) Hclash) as Hnone.
  pose proof (writeEach_counters clock
                (fun control d now =>
                   Some (newFinding client scan fw control
                                    (selectMetadata client (control_id control) d) now))
                countControl (controls r) (started s) (mkCounts 0 0 0 0 0)) as Hc.
  cbv zeta in Hc. fold (writeControls clock scan client fw (controls r) (started s)
                                      (mkCounts 0 0 0 0 0)) in Hc.
  destruct (writeControls clock scan client fw (controls r) (started s)
                          (mkCounts 0 0 0 0 0)) as [s2 [pc|]];
    cbn [fst snd] in *; [discriminate Hnone|].
  destruct Hc as (C1 & C2 & C3 & C4 & C5 & _ & _ & C8 & C9).
  cbn [benchmarkThrew db benchmarksFailed benchmarkErrors totalControls passedControls
       failedControls errorControls skipControls].
  rewrite C1, C2, C3, C4, C5, C8, C9.
  do 7 (split; [reflexivity|]). exists new. auto.
Qed.

Lemma X12_benchmark_written_in_full_witness :
  exists new,
    findings (db ExMore.afterFirst) = (findings ExScan.store ++ new)%list
    /\ map f_control_id new = ["cis_1_5"; "cis_2_1"]
    /\ totalControls ExMore.afterFirst = 2%nat
    /\ benchmarksFailed ExMore.afterFirst = 0%nat.
Proof.
  assert (Hr : runPowerpipeBenchmark ExMore.cis (ExScan.engineUp 0 ExMore.cis "{}" "aws")
               = Transformed ExMore.transformed) by (vm_compute; reflexivity).
  assert (Hc : clash 7 (map control_id (controls ExMore.transformed)) ExScan.store
               = false) by (vm_compute; reflexivity).
  assert (H1 : rowsExist 7 1 ExScan.store).
  { split; eexists.
    - split; [left; reflexivity | reflexivity].
    - split; [right; left; reflexivity | reflexivity]. }
  assert (H2 : (String.length "CIS" <= 50)%nat) by (vm_compute; lia).
  assert (H3 : Forall fitsColumns (controls ExMore.transformed)).
  { repeat (constructor; [repeat split; try reflexivity; vm_compute; lia|]).
    constructor. }
  assert (H4 : metadataKept ExScan.store).
  { split.
    - repeat constructor. simpl. tauto.
    - constructor; [|constructor]. intros rs [= <-]. vm_compute. lia. }
  destruct (X12_benchmark_written_in_full ExScan.steady ExScan.runtime ExScan.engineUp
              7 1 ExMore.cis "{}" "aws" "CIS" (initState ExScan.store 0)
              ExMore.transformed Hr H1 H2 H3 H4 Hc)
    as (new & Hf & Hrows & Hfailed & _ & Htotal & _).
  exists new. split; [exact Hf|]. split; [|split; [exact Htotal | exact Hfailed]].
  rewrite (writtenFor_ids 7 1 "CIS" _ _ Hrows). vm_compute. reflexivity.
Defined.

Lemma X13_benchmark_refused_insert_witness :
  let s' := runBenchmark ExScan.steady ExScan.runtime ExScan.engineUp 7 1
                         (Named ExMore.cis) "{}" "aws" "CIS" ExMore.afterFirst in
  benchmarksFailed s' = 1%nat
  /\ totalControls s' = 2%nat
  /\ List.length (findingsOf 7 (findings (db s'))) = 2%nat.
Proof.
  assert (Hr : runPowerpipeBenchmark ExMore.cis
                 (ExScan.engineUp (tick ExMore.afterFirst) ExMore.cis "{}" "aws")
               = Transformed ExMore.transformed) by (vm_compute; reflexivity).
  assert (Hc : clash 7 (map control_id (controls ExMore.transformed))
                     (db ExMore.afterFirst) = true) by (vm_compute; reflexivity).
  assert (H2 : (String.length "CIS" <= 50)%nat) by (vm_compute; lia).
  assert (H3 : Forall fitsColumns (controls ExMore.transformed)).
  { repeat (constructor; [repeat split; try reflexivity; vm_compute; lia|]).
    constructor. }
  destruct (X13_benchmark_refused_insert ExScan.steady ExScan.runtime ExScan.engineUp
              7 1 ExMore.cis "{}" "aws" "CIS" ExMore.afterFirst
              ExMore.transformed Hr H2 H3 Hc)
    as (Hfailed & _ & Htotal & _).
  cbv zeta. split; [exact Hfailed|]. split; [exact Htotal|].
  vm_compute. reflexivity.
Defined.

(* ================================================================== *)
(** * The totals of a run                                              *)
(* ================================================================== *)

Section TotalsFacts.

Variable clock : nat -> Z.
Variable rt : Runtime.
Variable decryptCredentials : string -> option string.
Variable engine : nat -> string -> string -> string -> EngineOutput.
Variables (scan client : uuid) (frameworks : list string).

Lemma findingsOf_app (l1 l2 : list Finding) :
  findingsOf scan (l1 ++ l2) = (findingsOf scan l1 ++ findingsOf scan l2)%list.
Proof. apply filter_app. Qed.

Lemma findingsOf_own (new : list Finding) :
  Forall (fun f => compliance_check_id f = scan) new -> findingsOf scan new = new.
Proof.
  induction 1 as [|f new' Hs _ IH]; [reflexivity|].
  unfold findingsOf in *. cbn [filter]. now rewrite Hs, Nat.eqb_refl, IH.
Qed.

Lemma countFindings_app (st : Status) (l1 l2 : list Finding) :
  countFindings st (l1 ++ l2) = (countFindings st l1 + countFindings st l2)%nat.
Proof. unfold countFindings. now rewrite filter_app, length_app. Qed.

Lemma statusText_eqb (a b : Status) :
  String.eqb (statusText a) (statusText b) = Status_eqb a b.
Proof. now destruct a, b. Qed.

Lemma Forall2_own [A : Type] (R : A -> Finding -> Prop) (cs : list A)
    (new : list Finding) :
  (forall c f, R c f -> compliance_check_id f = scan) ->
  Forall2 R cs new -> Forall (fun f => compliance_check_id f = scan) new.
Proof.
  intros HR. induction 1 as [|c f cs' new' Hcf _ IH]; constructor; eauto.
Qed.

Lemma countFindings_stored (st : Status) (cs : list Control) (new : list Finding) :
  Forall2 (storedFor scan client) cs new ->
  countFindings st new = countStatus st cs.
Proof.
  unfold countFindings, countStatus.
  induction 1 as [|c f cs' new' (_ & _ & _ & Hst & _) _ IH]; [reflexivity|].
  cbn [filter]. rewrite Hst, statusText_eqb.
  destruct (Status_eqb (status c) st); cbn [List.length]; now rewrite IH.
Qed.

Lemma countFindings_cons (st : Status) (f : Finding) (l : list Finding) :
  countFindings st (f :: l)
  = ((if String.eqb (scan_status f) (statusText st) then 1 else 0)
     + countFindings st l)%nat.
Proof.
  unfold countFindings. cbn [filter].
  now destruct (String.eqb (scan_status f) (statusText st)).
Qed.

(** The counters of a result that came as the engine gave it: at most
    one count per control, and a control counted under a status has its
    finding under that status. *)
Lemma countRaw_bounds (cs : list Json) (new : list Finding) :
  Forall2 (rawStoredFor scan) cs new ->
  forall pc,
    let pc' := fold_left (fun pc control => countRaw control pc) cs pc in
    (benchmarkPassed pc' <= benchmarkPassed pc + countFindings pass new)%nat
    /\ (benchmarkFailed pc' <= benchmarkFailed pc + countFindings fail new)%nat
    /\ (benchmarkError pc' <= benchmarkError pc + countFindings error new)%nat
    /\ (benchmarkSkip pc' <= benchmarkSkip pc + countFindings skip new)%nat
    /\ (benchmarkPassed pc' + benchmarkFailed pc' + benchmarkError pc' + benchmarkSkip pc'
        <= benchmarkPassed pc + benchmarkFailed pc + benchmarkError pc + benchmarkSkip pc
           + List.length cs)%nat.
Proof.
  induction 1 as [|c f cs' new' [_ Hst] _ IH]; intros pc; cbv zeta.
  - cbn. repeat split; lia.
  - cbn [fold_left List.length]. rewrite !countFindings_cons.
    destruct (IH (countRaw c pc)) as (H1 & H2 & H3 & H4 & H5). cbv zeta in *.
    unfold countRaw in *.
    destruct (statusIs c "pass") eqn:E1.
    { rewrite (Hst pass E1).
      cbn [benchmarkPassed benchmarkFailed benchmarkError benchmarkSkip statusText]
        in *.
      rewrite String.eqb_refl. repeat split; lia. }
    destruct (statusIs c "fail") eqn:E2.
    { rewrite (Hst fail E2).
      cbn [benchmarkPassed benchmarkFailed benchmarkError benchmarkSkip statusText]
        in *.
      rewrite String.eqb_refl. repeat split; lia. }
    destruct (statusIs c "error") eqn:E3.
    { rewrite (Hst error E3).
      cbn [benchmarkPassed benchmarkFailed benchmarkError benchmarkSkip statusText]
        in *.
      rewrite String.eqb_refl. repeat split; lia. }
    destruct (statusIs c "skip") eqn:E4.
    { rewrite (Hst skip E4).
      cbn [benchmarkPassed benchmarkFailed benchmarkError benchmarkSkip statusText]
        in *.
      rewrite String.eqb_refl. repeat split; lia. }
    cbn [benchmarkPassed benchmarkFailed benchmarkError benchmarkSkip] in *.
    repeat split; lia.
Qed.

Lemma rawFinding_rawStoredFor (fw : string) (control : Json) (d : Db) (now : Z)
    (mk : uuid -> Finding) (id : uuid) (f : Finding) :
  rawFinding rt client scan fw control d now = Some mk ->
  stored (mk id) = Some f ->
  rawStoredFor scan control f.
Proof.
  intros Hraw Hst.
  destruct (StoreFacts.stored_inv _ _ Hst) as (_ & _ & H2 & _ & _ & _ & H6 & _).
  destruct (rawFinding_own rt scan client fw control d now mk id Hraw) as (_ & Hs & _).
  split; [congruence|].
  intros st Hstatus. unfold statusIs in Hstatus.
  destruct (member control "status") as [[| | |text| |]|] eqn:Em; try discriminate.
  apply String.eqb_eq in Hstatus. subst text.
  revert Hraw H6. unfold rawFinding.
  destruct control; try discriminate;
    (destruct (rawDomain rt _) as [dom|]; [|discriminate]);
    (destruct (toParam rt (member _ "control_id")) as [cid|]; [|discriminate]);
    (destruct (toParam rt (member _ "title")) as [ttl|]; [|discriminate]);
    rewrite ?Em; cbn [toParam];
    intros [= <-]; cbn [scan_status];
    rewrite (proj1 (StoreFacts.statusText_fits st)); congruence.
Qed.

(** The invariant of the totals: the counts by status are no more than
    the total, and the totals are no more than the findings of the scan,
    in all and by status. *)
Lemma processResult_tallied (b fw : string) (r : PowerpipeBenchmarkResult)
    (s : ScanState) :
  let s' := processResult clock scan client b fw r s in
  ((passedControls s + failedControls s + errorControls s + skipControls s
    <= totalControls s)%nat ->
   tallied scan s ->
   (passedControls s' + failedControls s' + errorControls s' + skipControls s'
    <= totalControls s')%nat
   /\ tallied scan s')
  /\ (addsUp s -> addsUp s')
  /\ (controls r <> [] ->
      ((totalControls s < totalControls s')%nat
       /\ benchmarksFailed s' = benchmarksFailed s)
      \/ (totalControls s' = totalControls s
          /\ benchmarksFailed s' = S (benchmarksFailed s)))
  /\ (tallied scan s -> exactTally scan s -> exactTally scan s').
Proof.
  cbv zeta. unfold processResult, writeControls.
  match goal with
  | |- context [writeEach ?c ?row ?cnt ?l ?s0 ?p] =>
      pose proof (writeEach_counters c row cnt l s0 p) as Hc;
      pose proof (writeEach_written c row cnt (storedFor scan client)
                    (fun control d now mk id f =>
                       newFinding_storedFor scan client fw control d now mk id f)
                    l s0 p) as Hw;
      destruct (writeEach c row cnt l s0 p) as [s2 [pc|]]
  end; cbv zeta in Hc; cbn [fst snd] in Hc, Hw;
    destruct Hc as (C1 & C2 & C3 & C4 & C5 & _ & C7 & C8 & _);
    destruct Hw as (new & Hf & Hall & Hend);
    unfold tallied, exactTally, addsUp; cbv zeta.
  - destruct Hend as [Hlen ->]. rewrite Hlen, firstn_all in Hall.
    fold (recount (controls r) (mkCounts 0 0 0 0 0)).
    destruct (recount_counts (controls r) (mkCounts 0 0 0 0 0)) as (R1 & R2 & R3 & R4).
    pose proof (NormalizerMore.count_partition (controls r)) as Hpart.
    assert (Hown : findingsOf scan new = new).
    { apply findingsOf_own.
      apply (Forall2_own (storedFor scan client) (controls r)); [|exact Hall].
      intros c f (Hs & _). exact Hs. }
    cbn [addWarnings addTotals db totalControls passedControls failedControls
         errorControls skipControls benchmarksFailed benchmarksRun].
    rewrite Hf, findingsOf_app, Hown, length_app, !countFindings_app, Hlen.
    rewrite !(countFindings_stored _ _ _ Hall).
    rewrite C1, C2, C3, C4, C5, C8, R1, R2, R3, R4.
    cbn [benchmarkPassed benchmarkFailed benchmarkError benchmarkSkip plus].
    split; [|split; [|split]].
    + intros Hsum (T0 & T1 & T2 & T3 & T4). repeat split; lia.
    + lia.
    + intros Hne.
      assert (1 <= List.length (controls r))%nat
        by (destruct (controls r); [now elim Hne | cbn; lia]).
      left. split; [lia | reflexivity].
    + intros (T0 & T1 & T2 & T3 & T4) Hexact Hzero.
      destruct (Hexact Hzero) as (E0 & E1 & E2 & E3 & E4). repeat split; lia.
  - cbn [benchmarkThrew db totalControls passedControls failedControls
         errorControls skipControls benchmarksFailed benchmarksRun].
    assert (Hown : findingsOf scan new = new).
    { apply findingsOf_own.
      apply (Forall2_own (storedFor scan client) (firstn (List.length new) (controls r)));
        [|exact Hall].
      intros c f (Hs & _). exact Hs. }
    rewrite Hf, findingsOf_app, Hown, length_app, !countFindings_app.
    rewrite C1, C2, C3, C4, C5, C8.
    split; [|split; [|split]].
    + intros Hsum (T0 & T1 & T2 & T3 & T4). repeat split; lia.
    + lia.
    + intros _. right. split; reflexivity.
    + intros _ _ Hzero. discriminate Hzero.
Qed.

Lemma processRaw_tallied (b fw : string) (raw : Json) (s : ScanState) :
  let s' := processRaw clock rt scan client b fw raw s in
  (passedControls s + failedControls s + errorControls s + skipControls s
   <= totalControls s)%nat ->
  tallied scan s ->
  (passedControls s' + failedControls s' + errorControls s' + skipControls s'
   <= totalControls s')%nat
  /\ tallied scan s'.
Proof.
  cbv zeta. intros Hsum Ht. unfold processRaw.
  destruct (logged rt raw); [|now split].
  destruct (member raw "controls") as [[| | | |cs|]|]; try (now split).
  unfold writeRaw.
  match goal with
  | |- context [writeEach ?c ?row ?cnt ?l ?s0 ?p] =>
      pose proof (writeEach_counters c row cnt l s0 p) as Hc;
      pose proof (writeEach_written c row cnt (rawStoredFor scan)
                    (fun control d now mk id f =>
                       rawFinding_rawStoredFor fw control d now mk id f)
                    l s0 p) as Hw;
      destruct (writeEach c row cnt l s0 p) as [s2 [pc|]]
  end; cbv zeta in Hc; cbn [fst snd] in Hc, Hw;
    destruct Hc as (C1 & C2 & C3 & C4 & C5 & _);
    destruct Hw as (new & Hf & Hall & Hend);
    destruct Ht as (T0 & T1 & T2 & T3 & T4); cbv zeta in *.
  - destruct Hend as [Hlen ->]. rewrite Hlen, firstn_all in Hall.
    destruct (countRaw_bounds cs new Hall (mkCounts 0 0 0 0 0))
      as (B1 & B2 & B3 & B4 & B5).
    cbv zeta in B1, B2, B3, B4, B5.
    cbn [benchmarkPassed benchmarkFailed benchmarkError benchmarkSkip plus]
      in B1, B2, B3, B4, B5.
    assert (Hown : findingsOf scan new = new).
    { apply findingsOf_own.
      apply (Forall2_own (rawStoredFor scan) cs); [|exact Hall].
      intros c f (Hs & _). exact Hs. }
    assert (Hgoal :
              let s3 := addTotals (List.length cs)
                          (fold_left (fun pc control => countRaw control pc) cs
                                     (mkCounts 0 0 0 0 0)) s2 in
              (passedControls s3 + failedControls s3 + errorControls s3 + skipControls s3
               <= totalControls s3)%nat
              /\ tallied scan s3).
    { cbv zeta. unfold tallied. cbv zeta.
      cbn [addTotals db totalControls passedControls failedControls errorControls
           skipControls].
      rewrite Hf, findingsOf_app, Hown, length_app, !countFindings_app, Hlen.
      rewrite C1, C2, C3, C4, C5. repeat split; lia. }
    cbv zeta in Hgoal.
    destruct (truthyJ _); [|exact Hgoal].
    destruct (optMember _ _) as [[| | | |ws|]|]; try exact Hgoal.
    destruct (forallb _ ws); exact Hgoal.
  - unfold tallied. cbv zeta.
    cbn [benchmarkThrew db totalControls passedControls failedControls
         errorControls skipControls].
    assert (Hown : findingsOf scan new = new).
    { apply findingsOf_own.
      apply (Forall2_own (rawStoredFor scan) (firstn (List.length new) cs)); [|exact Hall].
      intros c f (Hs & _). exact Hs. }
    rewrite Hf, findingsOf_app, Hown, length_app, !countFindings_app.
    rewrite C1, C2, C3, C4, C5. repeat split; lia.
Qed.

Lemma runBenchmark_tallied (b : BenchmarkName) (creds prov fw : string) (s : ScanState) :
  let s' := runBenchmark clock rt engine scan client b creds prov fw s in
  (passedControls s + failedControls s + errorControls s + skipControls s
   <= totalControls s)%nat /\ tallied scan s ->
  (passedControls s' + failedControls s' + errorControls s' + skipControls s'
   <= totalControls s')%nat /\ tallied scan s'.
Proof.
  cbv zeta. intros [Hsum Ht]. unfold runBenchmark.
  destruct b as [name|text]; [|now split].
  destruct (runPowerpipeBenchmark _ _) as [r|raw|raw|]; try (now split).
  - now apply (proj1 (processResult_tallied name fw r (started s))).
  - now apply (processRaw_tallied name fw raw (started s)).
Qed.

Lemma runBenchmark_countedExactly (b : BenchmarkName) (creds prov fw : string)
    (s : ScanState) :
  noPassthrough engine ->
  countedExactly s ->
  countedExactly (runBenchmark clock rt engine scan client b creds prov fw s).
Proof.
  intros Hno [Hadd Hrun].
  assert (Hthrew : forall name, countedExactly (benchmarkThrew name (started s))).
  { intros name. split; [exact Hadd|].
    cbn [benchmarkThrew started benchmarksRun benchmarksFailed totalControls]. lia. }
  unfold runBenchmark. destruct b as [name|text]; [|apply Hthrew].
  destruct (runPowerpipeBenchmark name _) as [r|raw|raw|] eqn:Hr; try apply Hthrew.
  2:{ now elim (Hno _ _ _ _ _ Hr). }
  destruct (transformed_inv _ _ _ Hr) as (result & raw0 & _ & _ & Hne & _).
  destruct (processResult_tallied name fw r (started s)) as (_ & H2 & H3 & _).
  cbv zeta in H2, H3.
  split; [exact (H2 Hadd)|].
  pose proof (processResult_counters clock scan client name fw r (started s)) as [Hr1 _].
  cbv zeta in Hr1. rewrite Hr1.
  cbn [started benchmarksRun benchmarksFailed totalControls] in H3 |- *.
  destruct (H3 Hne) as [[H31 H32]|[H31 H32]]; lia.
Qed.

Lemma runBenchmark_exactTally (b : BenchmarkName) (creds prov fw : string)
    (s : ScanState) :
  noPassthrough engine ->
  let s' := runBenchmark clock rt engine scan client b creds prov fw s in
  (passedControls s + failedControls s + errorControls s + skipControls s
   <= totalControls s)%nat /\ tallied scan s /\ exactTally scan s ->
  (passedControls s' + failedControls s' + errorControls s' + skipControls s'
   <= totalControls s')%nat /\ tallied scan s' /\ exactTally scan s'.
Proof.
  intros Hno. cbv zeta. intros (Hsum & Ht & Hexact).
  destruct (runBenchmark_tallied b creds prov fw s (conj Hsum Ht)) as [Hsum' Ht'].
  split; [exact Hsum'|]. split; [exact Ht'|].
  assert (Hthrew : forall name, exactTally scan (benchmarkThrew name (started s)))
    by (intros name Hzero; discriminate Hzero).
  unfold runBenchmark. destruct b as [name|text]; [|apply Hthrew].
  destruct (runPowerpipeBenchmark name _) as [r|raw|raw|] eqn:Hr; try apply Hthrew.
  2:{ now elim (Hno _ _ _ _ _ Hr). }
  destruct (processResult_tallied name fw r (started s)) as (_ & _ & _ & H4).
  exact (H4 Ht Hexact).
Qed.

Lemma beforePairs_zero (d : Db) (t : nat) :
  let s := beforePairs clock scan client frameworks d t in
  totalControls s = 0%nat /\ passedControls s = 0%nat /\ failedControls s = 0%nat
  /\ errorControls s = 0%nat /\ skipControls s = 0%nat
  /\ benchmarksRun s = 0%nat /\ benchmarksFailed s = 0%nat.
Proof.
  cbv zeta. unfold beforePairs. destruct (selectCheck scan d); repeat split.
Qed.

Lemma findingsOf_filter_nil (p : Finding -> bool) (l : list Finding) :
  findingsOf scan l = [] -> findingsOf scan (filter p l) = [].
Proof.
  intros H. rewrite findingsOf_filter, H. reflexivity.
Qed.

Lemma scanPairs_tallied (creds : list CredentialRow) (d : Db) (t : nat) :
  let s1 := stateOf (scanPairs clock rt decryptCredentials engine scan client frameworks
                               creds d t) in
  ((passedControls s1 + failedControls s1 + errorControls s1 + skipControls s1
    <= totalControls s1)%nat /\ tallied scan s1)
  /\ (noPassthrough engine ->
      countedExactly s1
      /\ (findingsOf scan (findings d) = [] -> exactTally scan s1)).
Proof.
  cbv zeta. unfold scanPairs.
  destruct (beforePairs_zero d t) as (Z0 & Z1 & Z2 & Z3 & Z4 & Z5 & Z6).
  cbv zeta in Z0, Z1, Z2, Z3, Z4, Z5, Z6.
  assert (Ht0 : tallied scan (beforePairs clock scan client frameworks d t)).
  { unfold tallied. cbv zeta. rewrite Z0, Z1, Z2, Z3, Z4. repeat split; lia. }
  split.
  - apply (eachCredential_inv clock rt decryptCredentials engine scan client frameworks
             (fun s => (passedControls s + failedControls s + errorControls s
                        + skipControls s <= totalControls s)%nat /\ tallied scan s));
      auto.
    + intros b c p fw s H. now apply runBenchmark_tallied.
    + split; [lia | exact Ht0].
  - intros Hno.
    assert (Hc0 : countedExactly (beforePairs clock scan client frameworks d t)).
    { unfold countedExactly, addsUp. rewrite Z0, Z1, Z2, Z3, Z4, Z5, Z6. split; lia. }
    split.
    + apply (eachCredential_inv clock rt decryptCredentials engine scan client frameworks
               countedExactly); auto.
      intros b c p fw s H. now apply runBenchmark_countedExactly.
    + intros Hfresh.
      apply (eachCredential_inv clock rt decryptCredentials engine scan client frameworks
               (fun s => (passedControls s + failedControls s + errorControls s
                          + skipControls s <= totalControls s)%nat
                         /\ tallied scan s /\ exactTally scan s)); auto.
      * intros b c p fw s H. now apply runBenchmark_exactTally.
      * split; [lia|]. split; [exact Ht0|].
        intros _. cbv zeta.
        destruct (beforePairs_store clock client frameworks scan d t) as (now & Hf & _).
        rewrite Hf, (findingsOf_filter_nil _ _ Hfresh), Z0, Z1, Z2, Z3, Z4.
        now repeat split.
Qed.

End TotalsFacts.



(* ================================================================== *)
(** * A run in which no benchmark is found                             *)
(* ================================================================== *)

Section UnmappedFacts.

Variable clock : nat -> Z.
Variable rt : Runtime.
Variable decryptCredentials : string -> option string.
Variables (scan client : uuid) (frameworks : list string).

Lemma unmapped_lookup (fws : list string) (creds : list CredentialRow)
    (c : CredentialRow) (fw : string) :
  unmapped rt fws creds -> In c creds -> In fw fws ->
  getBenchmarkName rt fw (provider c) = None.
Proof.
  intros H Hc Hfw. specialize (H c fw Hc Hfw). unfold getBenchmarkName.
  destruct (prop (Js.toLowerCase (provider c)) FRAMEWORK_TO_BENCHMARK) as [m|];
    [|exact H].
  destruct H as [-> H]. exact H.
Qed.

Lemma eachFramework_unmapped (engine1 engine2 : nat -> string -> string -> string -> EngineOutput)
    (start : Z) (creds prov : string) (fws : list string) :
  (forall fw, In fw fws -> getBenchmarkName rt fw prov = None) ->
  forall s,
    eachFramework clock rt engine1 scan client start creds prov fws s
    = eachFramework clock rt engine2 scan client start creds prov fws s
    /\ benchmarksRun (stateOf (eachFramework clock rt engine1 scan client start creds
                                             prov fws s)) = benchmarksRun s
    /\ findings (db (stateOf (eachFramework clock rt engine1 scan client start creds
                                            prov fws s))) = findings (db s).
Proof.
  induction fws as [|fw fws IH]; intros Hall s; [now repeat split|].
  cbn [eachFramework]. destruct (timedOut clock start s); [now repeat split|].
  rewrite (Hall fw (or_introl eq_refl)).
  apply (IH (fun fw' H => Hall fw' (or_intror H)) (read s)).
Qed.

Lemma eachCredential_unmapped
    (engine1 engine2 : nat -> string -> string -> string -> EngineOutput)
    (start : Z) (creds : list CredentialRow) :
  unmapped rt frameworks creds ->
  forall s,
    eachCredential clock rt decryptCredentials engine1 scan client frameworks start
                   creds s
    = eachCredential clock rt decryptCredentials engine2 scan client frameworks start
                     creds s
    /\ benchmarksRun (stateOf (eachCredential clock rt decryptCredentials engine1 scan
                                              client frameworks start creds s))
       = benchmarksRun s
    /\ findings (db (stateOf (eachCredential clock rt decryptCredentials engine1 scan
                                             client frameworks start creds s)))
       = findings (db s).
Proof.
  induction creds as [|c creds IH]; intros Hall s; [now repeat split|].
  cbn [eachCredential]. destruct (timedOut clock start s); [now repeat split|].
  destruct (decryptCredentials (encrypted_credentials c)) as [dc|]; [|now repeat split].
  destruct (eachFramework_unmapped engine1 engine2 start dc (provider c) frameworks
              (fun fw H => unmapped_lookup frameworks (c :: creds) c fw Hall
                                           (or_introl eq_refl) H)
              (read s)) as (E & Hrun & Hfind).
  rewrite <- E.
  destruct (eachFramework clock rt engine1 scan client start dc (provider c) frameworks
                          (read s)) as [s1|s1]; cbn [stateOf] in *.
  - destruct (IH (fun c' fw Hc Hfw => Hall c' fw (or_intror Hc) Hfw) s1) as (E1 & H1 & H2).
    rewrite H1, H2, Hrun, Hfind. now repeat split.
  - now repeat split.
Qed.

End UnmappedFacts.

(** X14: a run that begins within the budget for credentials and
    frameworks none of which leads to a benchmark (no framework of the
    set is a key of the benchmark table for a provider of the
    credentials, and the prototypes give nothing for them; in particular
    a run with no credentials) executes no benchmark, whatever the
    engine would answer, and ends failed; the findings of the client for
    the set are archived and deleted all the same, so that none is live
    afterwards. *)
Theorem X14_nothing_mapped (clock : nat -> Z) (rt : Runtime)
    (decryptCredentials : string -> option string)
    (engine engine' : nat -> string -> string -> string -> EngineOutput)
    (scan client : uuid) (frameworks : list string)
    (creds : list CredentialRow) (d : Db) (t : nat) (row : ComplianceCheck) :
  let final := executeScan clock rt decryptCredentials engine scan client frameworks
                           creds d t in
  unmapped rt frameworks creds ->
  NoDup (map check_id (compliance_checks d)) ->
  In row (compliance_checks d) ->
  check_id row = scan ->
  clock (S t) - started_at row <= 1800000 ->
  benchmarksRun final = 0%nat
  /\ final = executeScan clock rt decryptCredentials engine' scan client frameworks
                         creds d t
  /\ statusOf scan (db final) = Some "failed"
  /\ findings (db final)
     = filter (fun f => negb (inScope client frameworks f)) (findings d)
  /\ filter (inScope client frameworks) (findings (db final)) = []
  /\ List.length (findings_history (db final))
     = (List.length (findings_history d)
        + List.length (filter (inScope client frameworks) (findings d)))%nat.
Proof.
  cbv zeta. intros Hun Hnd Hin Hid Hintime.
  assert (Hrow : selectCheck scan d = Some row)
    by (rewrite <- Hid; now apply selectCheck_unique).
  assert (Hstart : timedOutBeforeStart clock scan (scanStart d t) = false).
  { apply beforeStart_false. intros row0 Hin0 Hid0.
    assert (E : selectCheck scan d = Some row0)
      by (rewrite <- Hid0; now apply selectCheck_unique).
    rewrite Hrow in E. injection E as <-. exact Hintime. }
  destruct (eachCredential_unmapped clock rt decryptCredentials scan client frameworks
              engine engine' (clock t) creds Hun
              (beforePairs clock scan client frameworks d t)) as (Esame & Hrun & Hfind).
  destruct (beforePairs_store clock client frameworks scan d t) as (now & Hf & Hh & _).
  destruct (beforePairs_zero clock scan client frameworks d t)
    as (_ & _ & _ & _ & _ & Z5 & _). cbv zeta in Z5.
  rewrite Z5 in Hrun.
  assert (Hfinal : findings (db (executeScan clock rt decryptCredentials engine scan client
                                             frameworks creds d t))
                   = filter (fun f => negb (inScope client frameworks f)) (findings d)).
  { unfold executeScan, scanPairs. rewrite Hstart.
    destruct (eachCredential _ _ _ _ _ _ _ _ _ _) as [s1|s1]; cbn [stateOf] in Hfind;
      [rewrite (finalizeScan_findings clock rt)|]; now rewrite Hfind. }
  split; [|split; [|split; [|split; [|split]]]].
  - unfold executeScan, scanPairs. rewrite Hstart.
    destruct (eachCredential _ _ _ _ _ _ _ _ _ _) as [s1|s1]; cbn [stateOf] in Hrun.
    + unfold finalizeScan. rewrite Hrun. cbn. exact Hrun.
    + exact Hrun.
  - unfold executeScan, scanPairs. now rewrite Hstart, Esame.
  - destruct (executeScan_row clock rt decryptCredentials engine scan client frameworks
                              creds d t row Hrow)
      as (r & Hr & _ & _ & Hcase).
    unfold statusOf. rewrite Hr. cbn [option_map]. f_equal.
    destruct Hcase as [Hfailed|(_ & _ & s1 & Hpairs & _ & Hne & _)]; [exact Hfailed|].
    unfold scanPairs in Hpairs. rewrite Hpairs in Hrun. cbn [stateOf] in Hrun.
    contradiction.
  - exact Hfinal.
  - rewrite Hfinal, filter_filter. apply filter_none, Forall_forall. intros f _.
    now destruct (inScope client frameworks f).
  - destruct (executeScan_after_archive clock rt decryptCredentials engine client
                frameworks scan creds d t Hstart) as (Hh' & _).
    rewrite Hh', Hh, length_app, length_map. reflexivity.
Qed.

Lemma X14_nothing_mapped_witness :
  let creds := [mkCredential 2 1 "oracle" "{}" true] in
  let final := executeScan ExScan.steady ExScan.runtime ExScan.decrypt ExScan.engineUp
                           7 1 ["CIS"] creds ExScan.store 0 in
  benchmarksRun final = 0%nat
  /\ statusOf 7 (db final) = Some "failed"
  /\ findings (db final) = [ExScan.otherFinding]
  /\ List.length (findings_history (db final)) = 1%nat.
Proof.
  cbv zeta.
  pose proof (X14_nothing_mapped ExScan.steady ExScan.runtime ExScan.decrypt
                ExScan.engineUp ExScan.engineDown 7 1
                ["CIS"] [mkCredential 2 1 "oracle" "{}" true] ExScan.store 0
                (mkCheck 7 1 ["CIS"] "in_progress" 0 0 0 0 0 0 None None 0)) as H.
  cbv zeta in H.
  assert (Hun : unmapped ExScan.runtime ["CIS"] [mkCredential 2 1 "oracle" "{}" true]).
  { intros c fw [<-|[]] [<-|[]]. reflexivity. }
  assert (Hnd : NoDup (map check_id (compliance_checks ExScan.store))).
  { repeat constructor; simpl; intuition discriminate. }
  assert (Hin : In (mkCheck 7 1 ["CIS"] "in_progress" 0 0 0 0 0 0 None None 0)
                   (compliance_checks ExScan.store)) by (right; left; reflexivity).
  assert (H0 : ExScan.steady 1 - 0 <= 1800000) by (vm_compute; discriminate).
  destruct (H Hun Hnd Hin eq_refl H0) as (Hrun & _ & Hst & Hf & _ & Hh).
  split; [exact Hrun|]. split; [exact Hst|].
  split; [rewrite Hf; vm_compute; reflexivity | rewrite Hh; vm_compute; reflexivity].
Defined.

(* ================================================================== *)
(** * The request handlers                                             *)
(* ================================================================== *)

Section HandlerFacts.

Variable clock : nat -> Z.

Lemma markIfTimedOut_cases (now : Z) (scan : ComplianceCheck) (d : Db) (t : nat) :
  (overdue now scan = true
   /\ markIfTimedOut clock now scan d t
      = (setStatus "failed" (clock (S t)) scan,
         updateStatus "failed" (clock t) (check_id scan) d, S (S t)))
  \/ (overdue now scan = false /\ markIfTimedOut clock now scan d t = (scan, d, t)).
Proof.
  unfold markIfTimedOut, overdue. destruct (_ && _); auto.
Qed.

Lemma Forall2_map_left [A B C : Type] (R : B -> C -> Prop) (f : A -> B)
    (l : list A) (l' : list C) :
  Forall2 R (map f l) l' -> Forall2 (fun a c => R (f a) c) l l'.
Proof.
  revert l'. induction l as [|a l IH]; intros l' H; inversion H; subst; constructor; auto.
Qed.

Lemma Forall2_right [A B : Type] (R : A -> B -> Prop) (Q : B -> Prop)
    (l : list A) (l' : list B) :
  Forall2 R l l' -> (forall a b, In a l -> R a b -> Q b) -> Forall Q l'.
Proof.
  induction 1 as [|x y l l' Hxy _ IH]; intros H; constructor.
  - apply (H x y); auto using in_eq.
  - apply IH. intros a b Ha. apply H. now right.
Qed.

Lemma setStatus_twice (st : string) (t1 t2 : Z) (c : ComplianceCheck) :
  setStatus st t2 (setStatus st t1 c) = setStatus st t2 c.
Proof. reflexivity. Qed.

Lemma markEach_store (now : Z) (rows : list ComplianceCheck) :
  forall d t, marked now rows d (snd (fst (markEach clock now rows d t))).
Proof.
  induction rows as [|r rows IH]; intros d t.
  - cbn. repeat split. induction (compliance_checks d); constructor; auto.
    reflexivity.
  - cbn [markEach].
    destruct (markIfTimedOut clock now r d t) as [[scan' d1] t1] eqn:E1.
    pose proof (IH d1 t1) as Hrest.
    destruct (markEach clock now rows d1 t1) as [[rest' d2] t2]. cbn [fst snd] in *.
    destruct Hrest as (H1 & H2 & H3 & H4 & H5 & H6 & Hrows).
    destruct (markIfTimedOut_cases now r d t) as [[Hover E]|[Hover E]];
      rewrite E in E1; injection E1 as <- <- <-.
    + cbn [updateStatus with_checks clients credentials findings findings_history
           control_metadata next_id compliance_checks] in *.
      do 6 (split; [assumption|]).
      apply Forall2_map_left in Hrows.
      eapply Forall2_impl; [|exact Hrows]. cbn beta. intros c c' Hc.
      cbn [existsb]. rewrite Hover. cbn [andb].
      destruct (check_id c =? check_id r)%nat eqn:Eid; cbn [orb].
      * cbn [setStatus check_id] in Hc.
        destruct (existsb _ rows); [|eauto].
        destruct Hc as [tm ->]. eexists. apply setStatus_twice.
      * exact Hc.
    + do 6 (split; [assumption|]).
      eapply Forall2_impl; [|exact Hrows]. cbn beta. intros c c' Hc.
      cbn [existsb]. rewrite Hover. exact Hc.
Qed.

Lemma markEach_rows (now : Z) (rows : list ComplianceCheck) :
  forall d t,
    Forall2 (fun r r' => if overdue now r
                         then exists tm, r' = setStatus "failed" tm r
                         else r' = r)
            rows (fst (fst (markEach clock now rows d t))).
Proof.
  induction rows as [|r rows IH]; intros d t; [constructor|].
  cbn [markEach].
  destruct (markIfTimedOut clock now r d t) as [[scan' d1] t1] eqn:E1.
  pose proof (IH d1 t1) as Hrest.
  destruct (markEach clock now rows d1 t1) as [[rest' d2] t2]. cbn [fst snd] in *.
  constructor; [|exact Hrest].
  destruct (markIfTimedOut_cases now r d t) as [[Hover E]|[Hover E]];
    rewrite E in E1; injection E1 as <- <- <-; rewrite Hover; eauto.
Qed.

Lemma ids_unique (l : list ComplianceCheck) (a b : ComplianceCheck) :
  NoDup (map check_id l) -> In a l -> In b l -> check_id a = check_id b -> a = b.
Proof.
  induction l as [|c l IH]; intros Hnd Ha Hb E; [destruct Ha|].
  cbn [map] in Hnd. inversion Hnd as [|k ks Hnotin Hnd']; subst.
  destruct Ha as [->|Ha], Hb as [->|Hb]; auto.
  - elim Hnotin. rewrite E. now apply in_map.
  - elim Hnotin. rewrite <- E. now apply in_map.
Qed.

(** Among rows taken from a table with unique keys, a row is marked
    exactly when it is itself overdue. *)
Lemma marked_overdue (now : Z) (l rows : list ComplianceCheck) (c : ComplianceCheck) :
  NoDup (map check_id l) -> incl rows l -> In c l ->
  existsb (fun r => overdue now r && (check_id c =? check_id r)%nat) rows = true ->
  overdue now c = true /\ In c rows.
Proof.
  intros Hnd Hincl Hin Hex. apply existsb_exists in Hex.
  destruct Hex as (r & Hr & H). apply andb_true_iff in H. destruct H as [Hover Hid].
  apply Nat.eqb_eq in Hid.
  assert (c = r) by (apply (ids_unique l); auto). subst. auto.
Qed.

Lemma marked_ids (now : Z) (rows : list ComplianceCheck) (d d' : Db) :
  marked now rows d d' ->
  map check_id (compliance_checks d') = map check_id (compliance_checks d).
Proof.
  intros (_ & _ & _ & _ & _ & _ & H).
  induction H as [|c c' l l' Hc _ IH]; [reflexivity|].
  cbn [map]. rewrite IH. f_equal.
  destruct (existsb _ rows); [destruct Hc as [tm ->]|subst]; reflexivity.
Qed.

(** ** [ORDER BY] *)

Lemma insertSorted_perm [A : Type] (before : A -> A -> bool) (x : A) (l : list A) :
  Permutation (insertSorted before x l) (x :: l).
Proof.
  induction l as [|y r IH]; [reflexivity|]. cbn [insertSorted].
  destruct (before x y); [reflexivity|].
  rewrite IH. apply perm_swap.
Qed.

Lemma orderBy_perm [A : Type] (before : A -> A -> bool) (l : list A) :
  Permutation (orderBy before l) l.
Proof.
  unfold orderBy. induction l as [|x l IH]; [reflexivity|]. cbn [fold_right].
  rewrite insertSorted_perm. now constructor.
Qed.

Lemma orderBy_In [A : Type] (before : A -> A -> bool) (l : list A) (x : A) :
  In x (orderBy before l) <-> In x l.
Proof.
  split; apply Permutation_in; [|symmetry]; apply orderBy_perm.
Qed.

(** The rows of [ORDER BY created_at DESC]: each row is at least as
    recent as those after it. *)
Lemma newestFirst_sorted (l : list ComplianceCheck) :
  StronglySorted (fun a b => check_created_at b <= check_created_at a)
                 (orderBy (fun a b => check_created_at b <? check_created_at a) l).
Proof.
  unfold orderBy. induction l as [|x l IH]; [constructor|]. cbn [fold_right].
  set (sorted := fold_right
                   (insertSorted (fun a b => check_created_at b <? check_created_at a))
                   [] l) in *.
  clearbody sorted. induction IH as [|y r Hr IH Hy]; [repeat constructor|].
  cbn [insertSorted]. destruct (Z.ltb_spec (check_created_at y) (check_created_at x)).
  - constructor; [constructor; assumption|].
    constructor; [lia|]. eapply Forall_impl; [|exact Hy]. cbn beta. intros z Hz. lia.
  - constructor; [exact IH|].
    apply Forall_forall. intros z Hz.
    apply (Permutation_in _ (insertSorted_perm _ x r)) in Hz.
    destruct Hz as [<-|Hz]; [lia|]. exact (proj1 (Forall_forall _ _) Hy z Hz).
Qed.

End HandlerFacts.

(** X15: [GET /api/scans] on a table of scans with unique keys.  The
    response holds the selected rows, the most recently created first
    (a status filter that is empty selects as no filter does); none of
    them is reported in progress more than the budget after its start;
    the status reported for a row is the status stored for it after the
    call; rows that were not in progress are left as they were in the
    store; and findings and history are not touched. *)
Theorem X15_list_marks_overdue (clock : nat -> Z) (client_filter : option uuid)
    (status_filter : option string) (d : Db) (t : nat) :
  let rows := fst (fst (listScans clock client_filter status_filter d t)) in
  let d' := snd (fst (listScans clock client_filter status_filter d t)) in
  NoDup (map check_id (compliance_checks d)) ->
  Permutation (map check_id rows)
              (map check_id (filter (selected client_filter status_filter)
                                    (compliance_checks d)))
  /\ StronglySorted (fun a b => b <= a) (map check_created_at rows)
  /\ listScans clock client_filter (Some "") d t = listScans clock client_filter None d t
  /\ Forall (fun r => check_status r = "in_progress" ->
                      clock t - started_at r <= 1800000) rows
  /\ Forall (fun r => exists c', selectCheck (check_id r) d' = Some c'
                                 /\ check_status c' = check_status r) rows
  /\ (forall c, In c (compliance_checks d) -> check_status c <> "in_progress" ->
                In c (compliance_checks d'))
  /\ findings d' = findings d
  /\ findings_history d' = findings_history d.
Proof.
  cbv zeta. intros Hnd. unfold listScans.
  change (fun c : ComplianceCheck =>
            match client_filter with
            | Some id => (check_client_id c =? id)%nat
            | None => true
            end
            && (if Js.truthy status_filter
                then match status_filter with
                     | Some st => String.eqb (check_status c) st
                     | None => true
                     end
                else true))
    with (selected client_filter status_filter).
  set (sel := orderBy (fun a b => check_created_at b <? check_created_at a)
                      (filter (selected client_filter status_filter)
                              (compliance_checks d))).
  assert (Hperm : Permutation sel (filter (selected client_filter status_filter)
                                          (compliance_checks d)))
    by apply orderBy_perm.
  assert (Hsorted : StronglySorted (fun a b => check_created_at b <= check_created_at a)
                                   sel) by apply newestFirst_sorted.
  pose proof (markEach_store clock (clock t) sel d (S t)) as Hstore.
  pose proof (markEach_rows clock (clock t) sel d (S t)) as Hrows.
  pose proof (marked_ids (clock t) sel _ _ Hstore) as Hids.
  destruct (markEach clock (clock t) sel d (S t)) as [[rows d'] t']. cbn [fst snd] in *.
  assert (Hincl : incl sel (compliance_checks d)).
  { intros c Hc. apply (Permutation_in _ Hperm) in Hc. apply filter_In in Hc. apply Hc. }
  assert (Hnd' : NoDup (map check_id (compliance_checks d'))) by now rewrite Hids.
  destruct Hstore as (_ & _ & Hf & Hh & _ & _ & Hchecks).
  assert (Hsame : map check_id rows = map check_id sel
                  /\ map check_created_at rows = map check_created_at sel).
  { clear - Hrows. induction Hrows as [|r r' l l' Hr _ [IH1 IH2]]; [now split|].
    cbn [map]. rewrite IH1, IH2.
    destruct (overdue (clock t) r); [destruct Hr as [tm ->]|subst]; now split. }
  split; [|split; [|split; [|split; [|split; [|split; [|split]]]]]];
    [| | | | | |exact Hf|exact Hh].
  - rewrite (proj1 Hsame). now apply Permutation_map.
  - rewrite (proj2 Hsame). clear - Hsorted.
    induction Hsorted as [|a l _ IH Ha]; [constructor|]. cbn [map].
    constructor; [exact IH|]. apply Forall_forall. intros z Hz.
    apply in_map_iff in Hz. destruct Hz as (b & <- & Hb).
    exact (proj1 (Forall_forall _ _) Ha b Hb).
  - reflexivity.
  - clear - Hrows. induction Hrows as [|r r' l l' Hr _ IH]; constructor; [|exact IH].
    intros Hst. destruct (overdue (clock t) r) eqn:Hover.
    + destruct Hr as [tm ->]. cbn in Hst. discriminate Hst.
    + subst r'. unfold overdue in Hover. rewrite Hst, String.eqb_refl in Hover.
      cbn [andb] in Hover. rewrite Z.gtb_ltb in Hover.
      apply Z.ltb_ge in Hover. unfold MAX_SCAN_DURATION_MS in Hover. lia.
  - assert (Hall : forall r r', In r sel ->
                     (if overdue (clock t) r
                      then exists tm, r' = setStatus "failed" tm r else r' = r) ->
                     exists c', selectCheck (check_id r') d' = Some c'
                                /\ check_status c' = check_status r').
    { intros r r' Hin Hr. pose proof (Hincl r Hin) as Hin0.
      destruct (Forall2_In_left _ _ _ r Hchecks Hin0) as (c' & Hc' & Hrel).
      exists c'.
      assert (Hid : check_id c' = check_id r' /\ check_status c' = check_status r').
      { destruct (existsb _ sel) eqn:Hex.
        - destruct (marked_overdue (clock t) _ sel r Hnd Hincl Hin0 Hex) as [Hover _].
          rewrite Hover in Hr. destruct Hr as [tm ->], Hrel as [tm' ->]. now split.
        - destruct (overdue (clock t) r) eqn:Hover.
          + assert (Hex' : existsb (fun r0 => overdue (clock t) r0
                                              && (check_id r =? check_id r0)%nat) sel
                           = true).
            { apply existsb_exists. exists r. split; [exact Hin|].
              now rewrite Hover, Nat.eqb_refl. }
            rewrite Hex' in Hex. discriminate Hex.
          + subst. now split. }
      destruct Hid as [Hid Hst]. split; [|exact Hst].
      rewrite <- Hid. now apply selectCheck_unique. }
    exact (Forall2_right _ _ _ _ Hrows Hall).
  - intros c Hin Hst.
    destruct (Forall2_In_left _ _ _ c Hchecks Hin) as (c' & Hc' & Hrel).
    destruct (existsb _ sel) eqn:Hex; [|now subst].
    destruct (marked_overdue (clock t) _ sel c Hnd Hincl Hin Hex) as [Hover _].
    unfold overdue in Hover. apply andb_true_iff in Hover. destruct Hover as [Hs _].
    apply String.eqb_eq in Hs. now elim Hst.
Qed.

Lemma X15_list_marks_overdue_witness :
  let rows := fst (fst (listScans ExScan.slow None (Some "in_progress") ExScan.store 6)) in
  let d' := snd (fst (listScans ExScan.slow None (Some "in_progress") ExScan.store 6)) in
  map check_status rows = ["failed"]
  /\ Forall (fun r => exists c', selectCheck (check_id r) d' = Some c'
                                 /\ check_status c' = check_status r) rows.
Proof.
  cbv zeta.
  assert (Hnd : NoDup (map check_id (compliance_checks ExScan.store))).
  { cbn. constructor; [intros [H|[]]; discriminate H|].
    constructor; [intros []|constructor]. }
  split; [vm_compute; reflexivity|].
  pose proof (X15_list_marks_overdue ExScan.slow None (Some "in_progress")
                ExScan.store 6) as H.
  cbv zeta in H. destruct (H Hnd) as (_ & _ & _ & _ & H3 & _). exact H3.
Defined.
(** X16: [GET /api/scans/:id] answers 404 exactly when no scan has the
    id, and then changes nothing.  Otherwise the scan returned has the
    id, is not reported in progress more than the budget after its
    start, is reported with the status stored for it after the call, and
    comes with exactly the findings of that scan; the findings are not
    touched. *)
Theorem X16_get_scan (clock : nat -> Z) (collate : string -> string -> comparison)
    (id : uuid) (d : Db) (t : nat) :
  let resp := fst (fst (getScan clock collate id d t)) in
  let d' := snd (fst (getScan clock collate id d t)) in
  (resp = None <-> selectCheck id d = None)
  /\ (resp = None -> d' = d)
  /\ findings d' = findings d
  /\ forall scan' fs,
      resp = Some (scan', fs) ->
      check_id scan' = id
      /\ (forall f, In f fs <-> In f (findings d) /\ compliance_check_id f = id)
      /\ (check_status scan' = "in_progress" ->
          clock t - started_at scan' <= MAX_SCAN_DURATION_MS)
      /\ exists c', selectCheck id d' = Some c'
                    /\ check_status c' = check_status scan'.
Proof.
  cbv zeta. unfold getScan.
  destruct (selectCheck id d) as [scan|] eqn:Hsel.
  2:{ cbn [fst snd]. split; [tauto|]. split; [reflexivity|]. split; [reflexivity|].
      intros scan' fs H. discriminate H. }
  assert (Hid : check_id scan = id).
  { unfold selectCheck in Hsel. apply find_some in Hsel.
    now apply Nat.eqb_eq. }
  assert (Hfs : forall d0, findings d0 = findings d ->
                  forall f, In f (orderBy (byFrameworkAndControl collate)
                                    (filter (fun f => compliance_check_id f =? id)%nat
                                            (findings d0)))
                            <-> In f (findings d) /\ compliance_check_id f = id).
  { intros d0 -> f. rewrite orderBy_In, filter_In, Nat.eqb_eq. tauto. }
  destruct (String.eqb (check_status scan) "in_progress") eqn:Hst.
  - destruct (markIfTimedOut_cases clock (clock t) scan d (S t)) as [[Hover E]|[Hover E]];
      rewrite E; cbn [fst snd].
    + split; [split; discriminate|]. split; [discriminate|]. split; [reflexivity|].
      intros scan' fs [= <- <-]. split; [exact Hid|]. split; [now apply Hfs|].
      split; [intros H; cbn in H; discriminate H|].
      rewrite Hid, selectCheck_updateStatus, Hsel. cbn [option_map]. eauto.
    + split; [split; discriminate|]. split; [discriminate|]. split; [reflexivity|].
      intros scan' fs [= <- <-]. split; [exact Hid|]. split; [now apply Hfs|].
      split; [|eauto]. intros _. unfold overdue in Hover. rewrite Hst in Hover.
      cbn [andb] in Hover. rewrite Z.gtb_ltb in Hover. now apply Z.ltb_ge in Hover.
  - cbn [fst snd]. split; [split; discriminate|]. split; [discriminate|].
    split; [reflexivity|].
    intros scan' fs [= <- <-]. split; [exact Hid|]. split; [now apply Hfs|].
    split; [|eauto]. intros H. rewrite H in Hst. discriminate Hst.
Qed.

Section SubmitFacts.

Variable clock : nat -> Z.

Lemma find_last (k : uuid) (l : list ComplianceCheck) (c : ComplianceCheck) :
  Forall (fun x => check_id x <> k) l ->
  find (fun x => check_id x =? k)%nat (l ++ [c])
  = find (fun x => check_id x =? k)%nat [c].
Proof.
  induction 1 as [|x l Hx _ IH]; [reflexivity|].
  cbn [app find]. apply Nat.eqb_neq in Hx. now rewrite Hx.
Qed.

Lemma find_first (k : uuid) (l l' : list ComplianceCheck) (c : ComplianceCheck) :
  find (fun x => check_id x =? k)%nat l = Some c ->
  find (fun x => check_id x =? k)%nat (l ++ l') = Some c.
Proof.
  induction l as [|x l IH]; [discriminate|].
  cbn [app find]. destruct (check_id x =? k)%nat; auto.
Qed.

(** An accepted submission: the new row, the store and the credentials
    handed to the run. *)
Lemma postScan_accepted (req : ScanRequest) (d : Db) (t : nat)
    (check : ComplianceCheck) (creds : list CredentialRow) (d1 : Db) (t1 : nat) :
  postScan clock req d t = (Accepted check creds, d1, t1) ->
  exists fws,
    fws <> []
    /\ check = mkCheck (next_id d) (req_client_id req) fws "in_progress"
                       0 0 0 0 0 (clock t) None None (clock t)
    /\ creds = filter (fun c => (credential_client_id c =? req_client_id req)%nat
                                && is_active c) (credentials d)
    /\ creds <> []
    /\ d1 = with_next_id (S (next_id d))
              (with_checks (compliance_checks d ++ [check]) d).
Proof.
  unfold postScan.
  destruct (find _ (clients d)) as [row|]; [|discriminate].
  destruct (match req_frameworks req with
            | Some l => Some l
            | None => assigned_frameworks row
            end) as [[|fw fws]|]; try discriminate.
  destruct (filter _ (credentials d)) as [|c cs] eqn:Hcreds; [discriminate|].
  intros [= <- <- <- <-]. exists (fw :: fws).
  repeat split; discriminate.
Qed.

End SubmitFacts.

(** X17: an accepted submission, on a store whose scan keys are unique
    and below the next key.  The keys stay so; the new scan is found
    under its key and every older scan under its own, unchanged; the run
    is given the client's active credentials, at least one; and whenever
    the background run of the new scan is carried out on that store, the
    scan ends failed or completed, with the start time written at the
    submission. *)
Theorem X17_accepted_scan_runs_to_end (clock : nat -> Z) (rt : Runtime)
    (decryptCredentials : string -> option string)
    (engine : nat -> string -> string -> string -> EngineOutput)
    (req : ScanRequest) (d : Db) (t : nat)
    (check : ComplianceCheck) (creds : list CredentialRow) (d1 : Db) (t1 t' : nat) :
  keysBelow d ->
  postScan clock req d t = (Accepted check creds, d1, t1) ->
  keysBelow d1
  /\ selectCheck (check_id check) d1 = Some check
  /\ (forall c, In c (compliance_checks d) -> selectCheck (check_id c) d1 = Some c)
  /\ creds <> []
  /\ Forall (fun c => credential_client_id c = req_client_id req
                      /\ is_active c = true /\ In c (credentials d)) creds
  /\ exists row',
      selectCheck (check_id check)
        (db (executeScan clock rt decryptCredentials engine (check_id check)
                         (req_client_id req) (check_frameworks check) creds d1 t'))
      = Some row'
      /\ terminal (check_status row') = true
      /\ check_client_id row' = req_client_id req
      /\ started_at row' = clock t.
Proof.
  intros [Hbelow Hnd] Hpost.
  destruct (postScan_accepted clock req d t check creds d1 t1 Hpost)
    as (fws & Hfws & Hcheck & Hcreds & Hne & Hd1).
  assert (Hfresh : Forall (fun x => check_id x <> check_id check) (compliance_checks d)).
  { eapply Forall_impl; [|exact Hbelow]. intros x Hx E. rewrite Hcheck in E.
    cbn [check_id] in E. cbn beta in Hx. rewrite E in Hx.
    exact (Nat.lt_irrefl _ Hx). }
  assert (Hnew : selectCheck (check_id check) d1 = Some check).
  { unfold selectCheck. rewrite Hd1. cbn [compliance_checks with_next_id with_checks].
    rewrite (find_last _ _ _ Hfresh). cbn [find]. now rewrite Nat.eqb_refl. }
  split; [|split; [exact Hnew|split; [|split; [exact Hne|split]]]].
  - rewrite Hd1. unfold keysBelow.
    cbn [compliance_checks next_id with_next_id with_checks]. split.
    + apply Forall_app. split.
      * eapply Forall_impl; [|exact Hbelow]. intros x Hx. cbn beta in *. lia.
      * constructor; [|constructor]. rewrite Hcheck. cbn. lia.
    + rewrite map_app. cbn [map]. apply NoDup_app; [exact Hnd | | ].
      * constructor; [intros []|constructor].
      * intros k Hk [<-|[]]. apply in_map_iff in Hk. destruct Hk as (x & Hx & Hin).
        rewrite Forall_forall in Hfresh. now apply (Hfresh x Hin).
  - intros c Hin. unfold selectCheck. rewrite Hd1.
    cbn [compliance_checks with_next_id with_checks]. apply find_first.
    exact (selectCheck_unique d c Hnd Hin).
  - rewrite Hcreds. apply Forall_forall. intros c Hc. apply filter_In in Hc.
    destruct Hc as [Hin Hc]. apply andb_true_iff in Hc. destruct Hc as [H1 H2].
    apply Nat.eqb_eq in H1. auto.
  - destruct (executeScan_row clock rt decryptCredentials engine (check_id check)
                (req_client_id req) (check_frameworks check) creds d1 t' check Hnew)
      as (r & Hr & (_ & Hc & _ & Hs) & _ & Hst).
    exists r. split; [exact Hr|]. split; [|split].
    + destruct Hst as [->|[-> _]]; reflexivity.
    + rewrite Hc, Hcheck. reflexivity.
    + rewrite Hs, Hcheck. reflexivity.
Qed.

Lemma X17_accepted_scan_runs_to_end_witness :
  let submitted := postScan ExScan.steady (mkRequest 1 None) ExScan.store 60 in
  let check := mkCheck 100 1 ["CIS"] "in_progress" 0 0 0 0 0 60000 None None 60000 in
  keysBelow ExScan.store
  /\ (exists d1 t1,
        submitted = (Accepted check ExScan.creds, d1, t1)
        /\ keysBelow d1
        /\ exists row',
            selectCheck 100
              (db (executeScan ExScan.steady ExScan.runtime ExScan.decrypt ExScan.engineUp 100 1
                               ["CIS"] ExScan.creds d1 t1)) = Some row'
            /\ terminal (check_status row') = true).
Proof.
  cbv zeta.
  assert (Hkeys : keysBelow ExScan.store).
  { split.
    - cbn. repeat constructor; lia.
    - cbn. constructor; [intros [H|[]]; discriminate H|].
      constructor; [intros []|constructor]. }
  split; [exact Hkeys|].
  eexists _, _. split; [vm_compute; reflexivity|].
  pose proof (fun d1 t1 =>
                X17_accepted_scan_runs_to_end ExScan.steady ExScan.runtime ExScan.decrypt
                  ExScan.engineUp (mkRequest 1 None) ExScan.store 60
                  (mkCheck 100 1 ["CIS"] "in_progress" 0 0 0 0 0 60000 None None 60000)
                  ExScan.creds d1 t1 t1 Hkeys) as H.
  match goal with
  | |- keysBelow ?d1 /\ (exists row', selectCheck _ (db (executeScan _ _ _ _ _ _ _ _ _ ?t1)) = _ /\ _) =>
      destruct (H d1 t1 ltac:(vm_compute; reflexivity))
        as (Hk & _ & _ & _ & _ & r & Hr & Ht & _)
  end.
  split; [exact Hk|]. exists r. split; [exact Hr | exact Ht].
Defined.

(* ================================================================== *)
(** * The verification report and the run                              *)
(* ================================================================== *)

Lemma finalizeScan_failed (clock : nat -> Z) (rt : Runtime) (scan : uuid)
    (s : ScanState) :
  benchmarksFailed (finalizeScan clock rt scan s) = benchmarksFailed s.
Proof.
  unfold finalizeScan, completeScan.
  destruct (_ && _); [reflexivity|]. destruct (_ =? _)%nat; [reflexivity|].
  now destruct (forallb _ _).
Qed.

(** X18: the verification report of a scan, asked for right after the
    run that completed it.  The report exists and shows the scan as
    completed; its counts, taken from the findings, are at least the
    totals stored on the scan, status by status.  When the engine gives
    no object that is used as it is, the report counts at least one
    control and does not recommend looking into a scan without controls;
    and when moreover the scan had no finding before the run and no
    benchmark of the run failed, the counts of the report are the totals
    stored on the scan. *)
Theorem X18_report_after_run (clock : nat -> Z) (rt : Runtime)
    (decryptCredentials : string -> option string)
    (engine : nat -> string -> string -> string -> EngineOutput)
    (scan client : uuid) (frameworks : list string)
    (creds : list CredentialRow) (d : Db) (t : nat) (row row' : ComplianceCheck) :
  let final := executeScan clock rt decryptCredentials engine scan client frameworks
                           creds d t in
  selectCheck scan d = Some row ->
  selectCheck scan (db final) = Some row' ->
  check_status row' = "completed" ->
  exists rep,
    scanReport scan (db final) = Some rep
    /\ report_status rep = "completed"
    /\ (total_controls row' <= cc_total (report_control_counts rep))%nat
    /\ (passed_controls row' <= cc_passed (report_control_counts rep))%nat
    /\ (failed_controls row' <= cc_failed (report_control_counts rep))%nat
    /\ (error_controls row' <= cc_error (report_control_counts rep))%nat
    /\ (skip_controls row' <= cc_skipped (report_control_counts rep))%nat
    /\ (noPassthrough engine ->
        (1 <= cc_total (report_control_counts rep))%nat
        /\ ~ In NoControlsFound (report_recommendations rep)
        /\ (findingsOf scan (findings d) = [] ->
            benchmarksFailed final = 0%nat ->
            report_control_counts rep
            = mkControlCounts (total_controls row') (passed_controls row')
                              (failed_controls row') (error_controls row')
                              (skip_controls row'))).
Proof.
  cbv zeta. intros Hrow Hrow' Hst.
  destruct (executeScan_row clock rt decryptCredentials engine scan client frameworks
                            creds d t row Hrow)
    as (r & Hr & _ & _ & Hcase).
  rewrite Hrow' in Hr. injection Hr as <-.
  destruct Hcase
    as [Hfailed|(_ & Hstart & s1 & Hpairs & Hne & Hrun & T & P & F & E & S & _)];
    [rewrite Hfailed in Hst; discriminate Hst|].
  destruct (scanPairs_tallied clock rt decryptCredentials engine scan client frameworks
                              creds d t) as [[_ (T0 & T1 & T2 & T3 & T4)] Hexact].
  cbv zeta in T0, T1, T2, T3, T4, Hexact.
  pose proof (failed_le_run clock rt decryptCredentials engine scan client frameworks
                            creds (clock t)
                            (beforePairs clock scan client frameworks d t)) as Hle.
  destruct (beforePairs_zero clock scan client frameworks d t)
    as (_ & _ & _ & _ & _ & Z5 & Z6).
  cbv zeta in Hle, Z5, Z6. specialize (Hle ltac:(lia)).
  fold (scanPairs clock rt decryptCredentials engine scan client frameworks creds d t)
    in Hle.
  rewrite Hpairs in T0, T1, T2, T3, T4, Hexact, Hle.
  cbn [stateOf] in T0, T1, T2, T3, T4, Hexact, Hle.
  assert (Hfinal : executeScan clock rt decryptCredentials engine scan client frameworks
                               creds d t = finalizeScan clock rt scan s1)
    by (unfold executeScan; now rewrite Hstart, Hpairs).
  rewrite Hfinal in *.
  unfold scanReport. rewrite Hrow'. eexists. split; [reflexivity|].
  cbn [report_status report_control_counts report_recommendations controlCounts
       cc_total cc_passed cc_failed cc_error cc_skipped].
  rewrite finalizeScan_findings.
  change (filter (fun f => (compliance_check_id f =? scan)%nat) (findings (db s1)))
    with (findingsOf scan (findings (db s1))).
  rewrite T, P, F, E, S.
  split; [exact Hst|]. do 5 (split; [assumption|]).
  intros Hno. destruct (Hexact Hno) as [[_ Hbound] Hfresh].
  assert (Hpos : (1 <= List.length (findingsOf scan (findings (db s1))))%nat) by lia.
  split; [exact Hpos|]. split.
  - unfold generateRecommendations. cbn [cc_total cc_error controlCounts].
    intros Hin. repeat (apply in_app_or in Hin; destruct Hin as [Hin|Hin]).
    + destruct (_ <? _)%nat; [destruct Hin as [H|[]]; discriminate H | destruct Hin].
    + destruct (PrimFloat.ltb _ _); [destruct Hin as [H|[]]; discriminate H | destruct Hin].
    + destruct (_ <? _)%nat; [destruct Hin as [H|[]]; discriminate H | destruct Hin].
    + destruct (List.length (findingsOf scan (findings (db s1)))) eqn:Hlen; [lia|].
      rewrite andb_false_r in Hin. destruct Hin.
  - intros Hnone Hzero. rewrite finalizeScan_failed in Hzero.
    destruct (Hfresh Hnone Hzero) as (E0 & E1 & E2 & E3 & E4).
    now rewrite E0, E1, E2, E3, E4.
Qed.

Lemma X18_report_after_run_witness :
  let final := executeScan ExScan.steady ExScan.runtime ExScan.decrypt ExScan.engineUp
                           7 1 ["CIS"] ExScan.creds ExScan.store 0 in
  exists row' rep,
    selectCheck 7 (db final) = Some row'
    /\ check_status row' = "completed"
    /\ scanReport 7 (db final) = Some rep
    /\ report_status rep = "completed"
    /\ (total_controls row' <= cc_total (report_control_counts rep))%nat
    /\ total_controls row' = 2%nat.
Proof.
  cbv zeta.
  set (final := executeScan ExScan.steady ExScan.runtime ExScan.decrypt ExScan.engineUp
                            7 1 ["CIS"] ExScan.creds ExScan.store 0).
  evaluated (selectCheck 7 (db final)) as Hrow'.
  match type of Hrow' with
  | _ = Some ?r => exists r
  end.
  destruct (X18_report_after_run ExScan.steady ExScan.runtime ExScan.decrypt
              ExScan.engineUp 7 1 ["CIS"] ExScan.creds ExScan.store 0
              (mkCheck 7 1 ["CIS"] "in_progress" 0 0 0 0 0 0 None None 0) _
              eq_refl Hrow' eq_refl)
    as (rep & Hrep & Hstatus & Htotal & _).
  exists rep. split; [exact Hrow'|]. split; [reflexivity|]. split; [exact Hrep|].
  split; [exact Hstatus|]. split; [exact Htotal | reflexivity].
Defined.

(** X19: the verification report of a scan after a later scan of the
    same client and frameworks has begun, the framework names being of
    the width of their column.  The findings of the earlier scan are
    then in the history only: its report still shows its status but
    counts no control and no permission error, and recommends checking a
    low control count, and for a completed scan a scan without
    controls. *)
Theorem X19_report_after_later_scan (clock : nat -> Z) (rt : Runtime)
    (decryptCredentials : string -> option string)
    (engine : nat -> string -> string -> string -> EngineOutput)
    (prior next client : uuid) (frameworks : list string)
    (creds1 creds2 : list CredentialRow) (d0 : Db) (t0 t1 : nat)
    (row : ComplianceCheck) :
  let d1 := db (executeScan clock rt decryptCredentials engine prior client frameworks
                            creds1 d0 t0) in
  let d2 := db (executeScan clock rt decryptCredentials engine next client frameworks
                            creds2 d1 t1) in
  namesFit frameworks ->
  prior <> next ->
  findingsOf prior (findings d0) = [] ->
  selectCheck prior d1 = Some row ->
  timedOutBeforeStart clock next (scanStart d1 t1) = false ->
  exists rep,
    scanReport prior d2 = Some rep
    /\ report_status rep = check_status row
    /\ report_control_counts rep = mkControlCounts 0 0 0 0 0
    /\ report_permission_count rep = 0%nat
    /\ report_recommendations rep
       = LowControlCount 0
           :: (if String.eqb (check_status row) "completed"
               then [NoControlsFound] else []).
Proof.
  cbv zeta. intros Hfit Hne Hfresh Hrow Hstart.
  set (d1 := db (executeScan clock rt decryptCredentials engine prior client frameworks
                             creds1 d0 t0)) in *.
  set (d2 := db (executeScan clock rt decryptCredentials engine next client frameworks
                             creds2 d1 t1)).
  assert (Hrow2 : selectCheck prior d2 = Some row).
  { rewrite <- Hrow.
    apply (othersKept_select next prior
             (executeScan_others clock rt decryptCredentials engine next client
                                 frameworks creds2 d1 t1) Hne). }
  assert (Hown : findingsOf prior (findings d2) = []).
  { destruct (executeScan_any clock rt decryptCredentials engine client frameworks
                prior creds1 d0 t0) as (keep & new1 & hs & Hf1 & Hkeep & Hnew1 & _).
    destruct (beforePairs_store clock client frameworks next d1 t1) as (now & Hf0 & _).
    destruct (executeScan_after_archive clock rt decryptCredentials engine client
                frameworks next creds2 d1 t1 Hstart) as (_ & _ & new2 & Hf2 & Hnew2).
    fold d1 in Hf1. fold d2 in Hf2. rewrite Hf2, Hf0, Hf1.
    apply filter_empty. intros f Hin. apply Nat.eqb_neq. intros Hid.
    apply in_app_or in Hin. destruct Hin as [Hin|Hin].
    - apply filter_In in Hin. destruct Hin as [Hin Hout].
      apply in_app_or in Hin. destruct Hin as [Hin|Hin].
      + assert (Hold : In f (findings d0)).
        { destruct Hkeep as [-> | ->]; [exact Hin|].
          apply filter_In in Hin. apply Hin. }
        assert (Hf : In f (findingsOf prior (findings d0)))
          by (apply filter_In; split; [exact Hold | now apply Nat.eqb_eq]).
        rewrite Hfresh in Hf. destruct Hf.
      + pose proof (proj1 (Forall_forall _ _) Hnew1 f Hin) as Hw.
        apply (ownRow_writtenBy prior client frameworks f Hfit) in Hw.
        rewrite (writtenBy_inScope client frameworks prior f Hw) in Hout.
        discriminate Hout.
    - destruct (proj1 (Forall_forall _ _) Hnew2 f Hin) as (_ & Hs & _).
      apply Hne. now rewrite <- Hid, Hs. }
  unfold scanReport. rewrite Hrow2. eexists. split; [reflexivity|].
  cbn [report_status report_control_counts report_permission_count
       report_recommendations].
  change (filter (fun f => (compliance_check_id f =? prior)%nat) (findings d2))
    with (findingsOf prior (findings d2)).
  rewrite Hown. split; [reflexivity|]. split; [reflexivity|]. split; [reflexivity|].
  unfold generateRecommendations.
  cbn [controlCounts cc_total cc_error List.length filter firstn countFindings
       Nat.ltb Nat.leb Nat.eqb errorRate app andb].
  assert (Hrate : PrimFloat.ltb 20 0 = false) by (vm_compute; reflexivity).
  rewrite Hrate. cbn [app]. rewrite andb_true_r. reflexivity.
Qed.

Lemma X19_report_after_later_scan_witness :
  let d1 := db (executeScan ExScan.steady ExScan.runtime ExScan.decrypt ExScan.engineUp
                            7 1 ["CIS"] ExScan.creds ExRun.store 1) in
  let d2 := db (executeScan ExScan.steady ExScan.runtime ExScan.decrypt ExScan.engineUp
                            100 1 ["CIS"] ExScan.creds d1 50) in
  exists rep,
    scanReport 7 d2 = Some rep
    /\ report_status rep = "completed"
    /\ report_control_counts rep = mkControlCounts 0 0 0 0 0
    /\ report_recommendations rep = [LowControlCount 0; NoControlsFound].
Proof.
  cbv zeta.
  pose proof (X19_report_after_later_scan ExScan.steady ExScan.runtime ExScan.decrypt
                ExScan.engineUp 7 100 1 ["CIS"] ExScan.creds ExScan.creds
                ExRun.store 1 50) as H.
  cbv zeta in H.
  set (d1 := db (executeScan ExScan.steady ExScan.runtime ExScan.decrypt ExScan.engineUp
                             7 1 ["CIS"] ExScan.creds ExRun.store 1)) in *.
  assert (Hfit : namesFit ["CIS"]) by (repeat constructor; cbn; lia).
  assert (Hne : 7%nat <> 100%nat) by discriminate.
  assert (Hfresh : findingsOf 7 (findings ExRun.store) = [])
    by (vm_compute; reflexivity).
  evaluated (selectCheck 7 d1) as Hrow.
  evaluated (timedOutBeforeStart ExScan.steady 100 (scanStart d1 50)) as Hstart.
  destruct (H _ Hfit Hne Hfresh Hrow Hstart) as (rep & Hrep & Hs & Hc & _ & Hrec).
  exists rep. split; [exact Hrep|]. split; [exact Hs|]. split; [exact Hc | exact Hrec].
Defined.

Lemma includes_trans (s k r : string) :
  Js.includes s k = true -> Js.includes k r = true -> Js.includes s r = true.
Proof.
  rewrite !Names.includes_iff. intros (a & b & ->) (a' & b' & ->).
  exists (a ++ a')%string, (b' ++ b)%string.
  now rewrite !JsFacts.append_assoc.
Qed.

(** The reason stored with a finding is matched by a word of the report
    exactly when the error text read by the normalizer includes it. *)
Lemma ilike_errorText (c : RawControl) (keyword : string) :
  keyword <> "" ->
  ilike (Js.orNull (Js.orNull (Js.or (firstReason c) (raw_run_error c)))) keyword
  = Js.includes (errorText c) keyword.
Proof.
  intros Hk. unfold errorText, ilike.
  assert (Hempty : Js.includes "" keyword = false)
    by (destruct keyword; [now elim Hk | reflexivity]).
  destruct (firstReason c) as [[|a s]|], (raw_run_error c) as [[|a' s']|];
    cbn [Js.or Js.orNull Js.orEmpty Js.truthy Js.toLowerCase];
    try reflexivity; now rewrite Hempty.
Qed.

(** The rows listed by the report are rows of the scan that satisfy the
    condition of the query, at most twenty of them. *)
Lemma firstn_In [A : Type] (n : nat) (l : list A) (x : A) :
  In x (firstn n l) -> In x l.
Proof.
  revert n. induction l as [|y l IH]; intros [|n]; cbn; try tauto.
  intros [H|H]; [now left | right; now apply (IH n)].
Qed.

(** X20: the normalizer's permission flag against the report's query for
    permission errors, for a finding [f] in the store that was written
    for a control of a scan with a report.  The finding satisfies the
    condition of the query exactly when its status is error and the
    error text includes one of the report's four words.  The report
    counts the rows of the scan that satisfy the condition, up to
    twenty; each row it lists is such a row; and when no more than
    twenty rows satisfy the condition, the finding is listed whenever it
    satisfies it.  A finding found through the words access denied or
    forbidden was flagged by the normalizer.  A flagged control in error
    whose finding does not satisfy the condition is one whose text
    includes a keyword the report has no word for, such as accessdenied
    written as one word. *)
Theorem X20_permission_errors_in_report (client scan : uuid) (fw controlId : string)
    (c : RawControl) (f : Finding) (d : Db) (rep : ScanReport) :
  let control := transformedControl controlId c in
  let matching := filter permissionRelated (findingsOf scan (findings d)) in
  writtenFor scan client fw control f ->
  In f (findings d) ->
  scanReport scan d = Some rep ->
  (permissionRelated f = true <->
   status control = error
   /\ existsb (Js.includes (errorText c)) reportKeywords = true)
  /\ report_permission_count rep = Nat.min 20 (List.length matching)
  /\ List.length (report_permission_examples rep) = report_permission_count rep
  /\ (forall e, In e (report_permission_examples rep) ->
        exists g, In g (findings d) /\ compliance_check_id g = scan
                  /\ permissionRelated g = true
                  /\ e = (f_control_id g, control_title g, scan_reason g))
  /\ ((List.length matching <= 20)%nat ->
      permissionRelated f = true ->
      In (f_control_id f, control_title f, scan_reason f)
         (report_permission_examples rep))
  /\ (status control = error ->
      Js.includes (errorText c) "access denied" = true
      \/ Js.includes (errorText c) "forbidden" = true ->
      permissionRelated f = true /\ permission_error control = true)
  /\ (status control = error ->
      permission_error control = true ->
      permissionRelated f = false ->
      existsb (Js.includes (errorText c)) unreportedKeywords = true).
Proof.
  cbv zeta. intros (Hscan & _ & _ & _ & _ & Hstatus & Hreason) Hin Hrep.
  assert (Hlike : forall k, k <> ""%string ->
                    ilike (scan_reason f) k = Js.includes (errorText c) k).
  { intros k Hk. rewrite Hreason. exact (ilike_errorText c k Hk). }
  assert (Hrel : permissionRelated f
                 = Status_eqb (status (transformedControl controlId c)) error
                   && existsb (Js.includes (errorText c)) reportKeywords).
  { unfold permissionRelated, reportKeywords. cbn [existsb].
    rewrite !Hlike by discriminate. rewrite Hstatus.
    now destruct (status (transformedControl controlId c)). }
  unfold scanReport in Hrep. destruct (selectCheck scan d) as [row|]; [|discriminate].
  assert (Hsome : forall x y : ScanReport, Some x = Some y -> x = y)
    by (intros x y E; congruence).
  apply Hsome in Hrep. subst rep.
  unfold report_permission_count, report_permission_examples.
  change (filter (fun f => (compliance_check_id f =? scan)%nat) (findings d))
    with (findingsOf scan (findings d)).
  split; [|split; [|split; [|split; [|split; [|split]]]]].
  - rewrite Hrel, andb_true_iff. split; intros [H1 H2]; (split; [|exact H2]).
    + now destruct (status (transformedControl controlId c)).
    + now rewrite H1.
  - apply length_firstn.
  - apply length_map.
  - intros e He. apply in_map_iff in He. destruct He as (g & <- & Hg).
    apply firstn_In, filter_In in Hg. destruct Hg as [Hg Hperm].
    apply filter_In in Hg. destruct Hg as [Hg Hid]. apply Nat.eqb_eq in Hid.
    exists g. repeat split; assumption.
  - intros Hfew Hperm. rewrite firstn_all2 by exact Hfew.
    apply (in_map (fun r => (f_control_id r, control_title r, scan_reason r))).
    apply filter_In. split; [|exact Hperm].
    apply filter_In. split; [exact Hin | now apply Nat.eqb_eq].
  - intros Hst Hword. rewrite Hrel, Hst. cbn [Status_eqb andb].
    unfold reportKeywords. cbn [existsb permission_error transformedControl].
    unfold isPermissionError, permissionErrorKeywords. cbn [existsb].
    destruct Hword as [-> | ->]; rewrite ?orb_true_r; split; reflexivity.
  - intros Hst Hperm Hnot. rewrite Hrel, Hst in Hnot. cbn [Status_eqb andb] in Hnot.
    cbn [permission_error transformedControl] in Hperm.
    unfold isPermissionError, permissionErrorKeywords in Hperm.
    unfold reportKeywords in Hnot. unfold unreportedKeywords.
    cbn [existsb] in *.
    repeat (apply orb_false_iff in Hnot; destruct Hnot as [? Hnot]).
    assert (Hsub : forall k r, Js.includes (errorText c) r = false ->
                     Js.includes k r = true -> Js.includes (errorText c) k = false).
    { intros k r Hr Hkr. destruct (Js.includes (errorText c) k) eqn:E; [|reflexivity].
      rewrite (includes_trans _ _ _ E Hkr) in Hr. discriminate Hr. }
    rewrite (Hsub "unauthorizedoperation" "unauthorized"),
            (Hsub "unauthorized operation" "unauthorized"),
            (Hsub "unauthorized: access is denied" "unauthorized"),
            (Hsub "insufficient permissions" "permission"),
            (Hsub "permission denied" "permission") in Hperm
      by (assumption || reflexivity).
    match goal with
    | H1 : Js.includes _ "access denied" = false,
      H2 : Js.includes _ "forbidden" = false |- _ => rewrite H1, H2 in Hperm
    end.
    cbn [orb] in Hperm. rewrite ?orb_false_r in Hperm |- *.
    repeat (apply orb_true_iff in Hperm; destruct Hperm as [Hperm|Hperm]);
      rewrite Hperm, ?orb_true_r; reflexivity.
Qed.

Lemma X20_permission_errors_in_report_witness :
  let control := transformedControl "cis_2_1" Ex.denied in
  let f := newFinding 1 7 "CIS" control None 0 100 in
  let d := with_findings [f] ExScan.store in
  exists rep,
    scanReport 7 d = Some rep
    /\ status control = error
    /\ permission_error control = true
    /\ report_permission_count rep = 0%nat
    /\ existsb (Js.includes (errorText Ex.denied)) unreportedKeywords = true.
Proof.
  cbv zeta.
  set (f := newFinding 1 7 "CIS" (transformedControl "cis_2_1" Ex.denied) None 0 100).
  set (d := with_findings [f] ExScan.store).
  assert (Hw : writtenFor 7 1 "CIS" (transformedControl "cis_2_1" Ex.denied) f)
    by (repeat split).
  assert (Hin : In f (findings d)) by (left; reflexivity).
  assert (Hrep : exists rep, scanReport 7 d = Some rep) by (eexists; reflexivity).
  destruct Hrep as [rep Hrep].
  assert (H1 : status (transformedControl "cis_2_1" Ex.denied) = error)
    by (vm_compute; reflexivity).
  assert (H2 : permission_error (transformedControl "cis_2_1" Ex.denied) = true)
    by (vm_compute; reflexivity).
  assert (H3 : permissionRelated f = false) by (vm_compute; reflexivity).
  destruct (X20_permission_errors_in_report 1 7 "CIS" "cis_2_1" Ex.denied f d rep
              Hw Hin Hrep) as (_ & Hcount & _ & _ & _ & _ & Hmiss).
  exists rep. split; [exact Hrep|]. split; [exact H1|]. split; [exact H2|].
  split; [rewrite Hcount; vm_compute; reflexivity | exact (Hmiss H1 H2 H3)].
Defined.
